(** * ONNX frontend operator translators: sqrt, mul, scatter_nd,
      random_normal_like, stft and scan

    A shallow embedding of the translators of
    [src/frontends/onnx/frontend/src/op] and of the properties their
    specification states about them.

    Modelling conventions.
    - A translator is a function from a [Node] to a [result]: either the
      [OutputVector] it returns, or the way the C++ call ends otherwise
      (a validation error, a failed assertion, an exception of the
      standard library, undefined behaviour).
    - The graph a translator builds out of fresh nodes is a term of
      [Output]: every [std::make_shared<Op>(...)] is a constructor.  The
      checks and the shape inference the runtime performs inside those
      constructors are not part of the translators and are not modelled;
      where a translator reads an inferred shape or type it does so
      through a function the development is parametrised by.
    - The body subgraph of a Scan node is mutated in place by the scan
      translator, so it is modelled as a store of nodes addressed by
      index, with the edges between them.
    - [int64_t] values are integers of [Z]; signed arithmetic that leaves
      the range of the type is undefined behaviour, [size_t] arithmetic
      wraps around modulo [2^64]. *)

From Stdlib Require Import ZArith String List Lia Bool.
From Stdlib Require Import Floats.SpecFloat.
From stdpp Require Import base gmap strings list.

Local Open Scope string_scope.
Local Open Scope list_scope.
Local Open Scope Z_scope.

(** ** Outcomes of a call *)

Inductive error : Type :=
| ValidationError (msg : string)      (* CHECK_VALID_NODE failed *)
| AssertionFailure (msg : string)     (* OPENVINO_ASSERT failed *)
| OutOfRange                          (* std::out_of_range thrown by at() *)
| LengthError                         (* std::length_error of a vector constructor *)
| UnknownAttribute (name : string)    (* required attribute is absent *)
| InvalidAttribute (name : string)    (* attribute of another type than asked for *)
| ExternalFailure (msg : string)      (* exception of a collaborator outside src *)
| UndefinedBehaviour (what : string). (* the C++ has no defined outcome *)

Inductive result (A : Type) : Type :=
| Ok (a : A)
| Err (e : error).

Arguments Ok {A} a.
Arguments Err {A} e.

Definition bind {A B : Type} (r : result A) (k : A -> result B) : result B :=
  match r with
  | Ok a => k a
  | Err e => Err e
  end.

Notation "'let*' x ':=' r 'in' k" := (bind r (fun x => k))
  (at level 10, x name, r at level 100, k at level 200).

(** Modelled from the spec: the validation utilities are a collaborator
    outside src; [CHECK_VALID_NODE(node, cond, msg)] and
    [OPENVINO_ASSERT(cond, msg)] throw when the condition does not hold. *)
Definition CHECK_VALID_NODE (cond : bool) (msg : string) : result unit :=
  if cond then Ok tt else Err (ValidationError msg).

Definition OPENVINO_ASSERT (cond : bool) (msg : string) : result unit :=
  if cond then Ok tt else Err (AssertionFailure msg).

(** [v.at(i)] throws, [v[i]] is undefined out of range. *)
Definition at_ {A : Type} (v : list A) (i : nat) : result A :=
  match v !! i with
  | Some a => Ok a
  | None => Err OutOfRange
  end.

Definition index {A : Type} (v : list A) (i : Z) : result A :=
  if i <? 0 then Err (UndefinedBehaviour "index out of range")
  else match v !! Z.to_nat i with
       | Some a => Ok a
       | None => Err (UndefinedBehaviour "index out of range")
       end.

(** Monadic iteration: [foldM f l s] runs the loop body [f] over [l]. *)
Fixpoint foldM {A S : Type} (f : A -> S -> result S) (l : list A) (s : S)
  : result S :=
  match l with
  | [] => Ok s
  | a :: l' => let* s' := f a s in foldM f l' s'
  end.

(** The values [0, 1, ..., n-1] a counting loop runs through. *)
Definition range (n : Z) : list Z := map Z.of_nat (seq 0 (Z.to_nat n)).

(** [for (i = 0; i < n; ++i) body] over a state. *)
Definition for_loop {S : Type} (n : Z) (body : Z -> S -> result S) (s : S)
  : result S :=
  foldM body (range n) s.

(** ** Machine integers *)

Definition int64_min : Z := - 2 ^ 63.
Definition int64_max : Z := 2 ^ 63 - 1.

Definition in_int64 (z : Z) : bool := (int64_min <=? z) && (z <=? int64_max).

Definition checked (z : Z) : result Z :=
  if in_int64 z then Ok z else Err (UndefinedBehaviour "signed overflow").

Definition add64 (a b : Z) : result Z := checked (a + b).
Definition sub64 (a b : Z) : result Z := checked (a - b).
Definition mul64 (a b : Z) : result Z := checked (a * b).

(** [a / b] on [int64_t]: truncation towards zero, undefined for [b = 0]. *)
Definition div64 (a b : Z) : result Z :=
  if b =? 0 then Err (UndefinedBehaviour "division by zero")
  else checked (Z.quot a b).

(** Conversion of an integer to [int64_t] and arithmetic of [size_t]. *)
Definition to_int64 (z : Z) : Z := (z + 2 ^ 63) mod 2 ^ 64 - 2 ^ 63.
Definition size_wrap (z : Z) : Z := z mod 2 ^ 64.

(** ** Element types, shapes *)

Inductive ElementType : Type :=
| dynamic | boolean | bf16 | f16 | f32 | f64
| i4 | i8 | i16 | i32 | i64
| u1 | u4 | u8 | u16 | u32 | u64.

(** [ov::Shape]: the extents are [size_t]. *)
Abbreviation Shape := (list N).

(** [ov::shape_size]: product of the extents, in [size_t]. *)
Definition shape_size (s : Shape) : N :=
  fold_right (fun d acc => ((d * acc) mod 2 ^ 64)%N) 1%N s.

(** Modelled from the spec: the shapes of the runtime, whose classes are
    outside src.  [ov::Dimension] is static with its length or dynamic. *)
Inductive Dimension : Type :=
| DimStatic (len : Z)
| DimDynamic.

Definition dim_is_static (d : Dimension) : bool :=
  match d with DimStatic _ => true | DimDynamic => false end.

(** [ov::PartialShape]: the rank is dynamic, or static with its dimensions. *)
Inductive PartialShape : Type :=
| RankDynamic
| RankStatic (dims : list Dimension).

Definition Rank : Type := Dimension.

Definition rank (s : PartialShape) : Rank :=
  match s with
  | RankDynamic => DimDynamic
  | RankStatic dims => DimStatic (Z.of_nat (length dims))
  end.

(** [PartialShape::is_static]: static rank and all dimensions static. *)
Definition is_static (s : PartialShape) : bool :=
  match s with
  | RankDynamic => false
  | RankStatic dims => forallb dim_is_static dims
  end.

(** ** The body of a Scan: a store of nodes *)

(** Modelled from the spec: the graph of the runtime, whose classes are
    outside src, as far as scan reads and changes the nodes of a body.
    [ov::Output<ov::Node>] inside a body is a node of the store and a
    port. *)
Record Src : Type := mkSrc { src_node : nat; src_port : nat }.

Inductive BodyOp : Type :=
| OpParameter (et : ElementType) (pshape : PartialShape)
| OpConstant (et : ElementType) (shape : Shape) (values : list Z)
| OpSqueeze
| OpUnsqueeze
| OpOther (type_name : string).

Record BodyNode : Type := mkBodyNode { node_op : BodyOp; node_args : list Src }.

(** The node objects of a body; a node is addressed by its position. *)
Abbreviation BodyStore := (list BodyNode).

(** [onnx::Subgraph], as far as scan reads it: its node objects, the
    result of [get_ng_parameters] and the result of [get_ov_outputs]. *)
Record Subgraph : Type := mkSubgraph {
  sg_nodes : BodyStore;
  sg_parameters : list nat;
  sg_outputs : list Src
}.

(** [ov::Model(results, parameters)] over the node objects it reaches. *)
Record Model : Type := mkModel {
  model_nodes : BodyStore;
  model_results : list Src;
  model_parameters : list nat
}.

(** ** The graph the translators build *)

Local Set Warnings "-register-all".

Inductive ConstData : Type :=
| IntData (values : list Z)
| FloatData (values : list spec_float).

(** Modelled from the spec: the primitive operations of the runtime the
    translators build their outputs from (elementwise operations, slicing,
    reshaping, shape-of, scatter update, the loop construct), whose classes
    are outside src.

    Descriptions a TensorIterator keeps of its inputs and outputs, with
    the arguments of the call that added them. *)
Inductive InputDescription (V : Type) : Type :=
| SliceInput (param : nat) (value : V) (start stride part_size end_ axis : Z)
| MergedInput (param : nat) (initial_value : V) (successive_value : Src).

Arguments SliceInput {V}.
Arguments MergedInput {V}.

Inductive OutputDescription : Type :=
| BodyOutput (body_value : Src) (iteration : Z)
| ConcatOutput (body_value : Src) (start stride part_size end_ axis : Z).

Inductive Output : Type :=
| NullNode
| v0_Parameter (et : ElementType) (pshape : PartialShape)
| v0_Constant (et : ElementType) (shape : Shape) (data : ConstData)
| v0_Sqrt (arg : Output)
| v1_Multiply (arg0 arg1 : Output)
| v3_ScatterNDUpdate (data indices updates : Output)
| v0_ShapeOf (arg : Output)
| v3_ShapeOf (arg : Output)
| v8_Slice (data start stop step axes : Output)
| v1_Reshape (arg pattern : Output) (special_zero : bool)
| v3_Broadcast (arg target_shape : Output)
| v0_Unsqueeze (arg axes : Output)
| v0_Concat (args : list Output) (axis : Z)
| Operation (type_name : string) (args : list Output) (* any other operation *)
| v0_TensorIterator (body : Model)
                    (input_descriptions : list (InputDescription Output))
                    (output_descriptions : list OutputDescription)
                    (output_index : nat).

Abbreviation OutputVector := (list Output).

(** [ov::op::util::is_null] and [ov::op::util::is_constant]. *)
Definition is_null (o : Output) : bool :=
  match o with NullNode => true | _ => false end.

Definition is_constant (o : Output) : bool :=
  match o with v0_Constant _ _ _ => true | _ => false end.

(** [v0::Constant::create(type, shape, values)] for integers and floats. *)
Definition Constant_create (et : ElementType) (shape : Shape) (values : list Z)
  : Output :=
  v0_Constant et shape (IntData values).

Definition Constant_create_float (et : ElementType) (shape : Shape)
  (values : list spec_float) : Output :=
  v0_Constant et shape (FloatData values).

(** [get_shape] of the output of a constant. *)
Definition get_shape (o : Output) : result Shape :=
  match o with
  | v0_Constant _ shape _ => Ok shape
  | _ => Err (ExternalFailure "get_shape of a shape that is not static")
  end.

(** ** Nodes of the source graph *)

Inductive AttrValue : Type :=
| AInt (i : Z)
| AFloat (f : spec_float)
| AString (s : string)
| AInts (l : list Z).

(** Modelled from the spec: [onnx::Node] of the node and attribute parsing
    layer, which is outside src, by what the translators ask of it: its
    inputs are the already resolved outputs, its attributes a sequence of
    named values searched front to back, its subgraphs a map from
    attribute name to graph. *)
Record Node : Type := mkNode {
  get_ng_inputs : OutputVector;
  attributes : list (string * AttrValue);
  get_subgraphs : gmap string Subgraph;
  get_description : string
}.

Fixpoint find_attribute (attrs : list (string * AttrValue)) (name : string)
  : option AttrValue :=
  match attrs with
  | [] => None
  | (n, v) :: rest => if String.eqb n name then Some v else find_attribute rest name
  end.

Definition has_attribute (node : Node) (name : string) : bool :=
  match find_attribute (attributes node) name with
  | Some _ => true
  | None => false
  end.

(** [node.get_attribute_value<T>(name)]: the attribute is required. *)
Definition get_attribute_value_int (node : Node) (name : string) : result Z :=
  match find_attribute (attributes node) name with
  | Some (AInt i) => Ok i
  | Some _ => Err (InvalidAttribute name)
  | None => Err (UnknownAttribute name)
  end.

(** [node.get_attribute_value<T>(name, default_value)]. *)
Definition get_attribute_value_int_or (node : Node) (name : string) (default : Z)
  : result Z :=
  match find_attribute (attributes node) name with
  | Some (AInt i) => Ok i
  | Some _ => Err (InvalidAttribute name)
  | None => Ok default
  end.

Definition get_attribute_value_float_or (node : Node) (name : string)
  (default : spec_float) : result spec_float :=
  match find_attribute (attributes node) name with
  | Some (AFloat f) => Ok f
  | Some _ => Err (InvalidAttribute name)
  | None => Ok default
  end.

Definition get_attribute_value_string_or (node : Node) (name : string)
  (default : string) : result string :=
  match find_attribute (attributes node) name with
  | Some (AString s) => Ok s
  | Some _ => Err (InvalidAttribute name)
  | None => Ok default
  end.

Definition get_attribute_value_ints_or (node : Node) (name : string)
  (default : list Z) : result (list Z) :=
  match find_attribute (attributes node) name with
  | Some (AInts l) => Ok l
  | Some _ => Err (InvalidAttribute name)
  | None => Ok default
  end.

(** The float literals [0.0f] and [1.0f]. *)
Definition float_zero : spec_float := S754_zero false.
Definition float_one : spec_float := S754_finite false 8388608 (-23).

(** ** sqrt and mul *)

Module set_1_sqrt.

Definition sqrt (node : Node) : result OutputVector :=
  let* x := at_ (get_ng_inputs node) 0 in
  Ok [v0_Sqrt x].

End set_1_sqrt.

Module set_7_mul.

Definition mul (node : Node) : result OutputVector :=
  let* a := at_ (get_ng_inputs node) 0 in
  let* b := at_ (get_ng_inputs node) 1 in
  Ok [v1_Multiply a b].

End set_7_mul.

(** ** scatter_nd *)

Module set_1_scatter_nd.

Definition scatter_nd (node : Node) : result OutputVector :=
  let ng_inputs := get_ng_inputs node in
  let* data := at_ ng_inputs 0 in
  let* indices := at_ ng_inputs 1 in
  let* updates := at_ ng_inputs 2 in
  let* reduction_checked :=
    (if has_attribute node "reduction" then
       let* reduction := get_attribute_value_string_or node "reduction" "none" in
       CHECK_VALID_NODE (String.eqb reduction "none")
         "Unsupported value of attribute: `reduction`. Only `none` is supported, got:"
     else Ok tt) in
  Ok [v3_ScatterNDUpdate data indices updates].

End set_1_scatter_nd.

(** ** Collaborators outside src

    What the translators call but do not define: the shape and type
    inference of the runtime, the conversions of constants, and helpers of
    the frontend.  The translators are parametrised by them. *)
Class Runtime : Type := {
  (* Output<Node>::get_partial_shape and get_element_type *)
  get_partial_shape : Output -> PartialShape;
  get_element_type : Output -> ElementType;
  (* the conversion cast_vector<int64_t> applies to a float element *)
  float_to_int64 : spec_float -> Z;
  (* common::get_ov_element_type: ONNX data type to element type *)
  get_ov_element_type : Z -> result ElementType;
  (* ov::frontend::make_random_normal(sizes, type, mean, scale, seed) *)
  make_random_normal :
    Output -> ElementType -> Output -> Output -> spec_float ->
    OutputVector * OutputVector;
  (* dft::make_dft(signal, length, axis, is_inversed, is_onesided) *)
  make_dft : Output -> Output -> Z -> bool -> bool -> Output;
  (* ov::util::normalize_axis(node_description, axis, rank) *)
  normalize_axis : string -> Z -> Rank -> result Z;
  (* get_partial_shape of an output inside a body *)
  get_body_partial_shape : BodyStore -> Src -> PartialShape
}.

(** ** random_normal_like *)

Module set_1_random_normal_like.
Section RandomNormalLike.
Context {rt : Runtime}.

Definition random_normal_like (node : Node) : result OutputVector :=
  let* input := at_ (get_ng_inputs node) 0 in
  let* target_type :=
    (if has_attribute node "dtype" then
       let* dtype := get_attribute_value_int node "dtype" in
       get_ov_element_type dtype
     else Ok (get_element_type input)) in
  let shape := v0_ShapeOf input in
  let* seed := get_attribute_value_float_or node "seed" float_zero in
  let* mean := get_attribute_value_float_or node "mean" float_zero in
  let* scale := get_attribute_value_float_or node "scale" float_one in
  let scale_node := Constant_create_float target_type [1%N] [scale] in
  let mean_node := Constant_create_float target_type [1%N] [mean] in
  let res := make_random_normal shape target_type mean_node scale_node seed in
  Ok (fst res).

End RandomNormalLike.
End set_1_random_normal_like.

(** ** stft *)

Module set_17_stft.
Section Stft.
Context {rt : Runtime}.

(** [inputs.size() > i && !is_null(inputs[i])], with the input. *)
Definition provided (inputs : OutputVector) (i : nat) : option Output :=
  match inputs !! i with
  | Some x => if is_null x then None else Some x
  | None => None
  end.

(** [is_constant(n) && shape_size(n.get_shape()) <= 1]. *)
Definition is_scalar_constant (o : Output) : bool :=
  is_constant o &&
  match get_shape o with
  | Ok shape => (shape_size shape <=? 1)%N
  | Err _ => false
  end.

(** [as_type_ptr<v0::Constant>(n)->cast_vector<int64_t>()]. *)
Definition cast_vector_int64 (o : Output) : result (list Z) :=
  match o with
  | v0_Constant _ _ (IntData values) => Ok (map to_int64 values)
  | v0_Constant _ _ (FloatData values) => Ok (map float_to_int64 values)
  | _ => Err (UndefinedBehaviour "null pointer dereference")
  end.

Definition constant_value0 (o : Output) : result Z :=
  let* values := cast_vector_int64 o in
  index values 0.

(** [shape[i].get_length()] *)
Definition dim_length (shape : PartialShape) (i : nat) : result Z :=
  match shape with
  | RankStatic dims =>
      match dims !! i with
      | Some (DimStatic len) => Ok len
      | Some DimDynamic => Err (ExternalFailure "get_length of a dynamic dimension")
      | None => Err (ExternalFailure "dimension index out of range")
      end
  | RankDynamic => Err (ExternalFailure "dimension of a shape of dynamic rank")
  end.

(** [signal_param_shape.is_static() && signal_param_shape.size() == 3] *)
Definition is_static_rank3 (shape : PartialShape) : bool :=
  is_static shape &&
  match shape with
  | RankStatic dims => (length dims =? 3)%nat
  | RankDynamic => false
  end.

(** The lambda [is_complex] of stft: the innermost dimension is static
    and equal to 2.  [cend() - 1] of a shape of rank 0 is undefined. *)
Definition is_complex (data : Output) : result bool :=
  match get_partial_shape data with
  | RankDynamic => Ok false
  | RankStatic dims =>
      match last dims with
      | Some (DimStatic len) => Ok (len =? 2)
      | Some DimDynamic => Ok false
      | None => Err (UndefinedBehaviour "iterator before the first dimension")
      end
  end.

(** The checks of the window input, lines 61 to 72. *)
Definition check_window (window : option Output) (frame_length : Z)
  : result unit :=
  match window with
  | Some w =>
      match get_partial_shape w with
      | RankStatic dims =>
          let* rank_checked :=
            CHECK_VALID_NODE (length dims =? 1)%nat
              "The rank of window input must be 1D." in
          match dims !! 0%nat with
          | Some (DimStatic len) =>
              CHECK_VALID_NODE (len =? frame_length)
                "The length of window input must be equal to frame_length."
          | _ => Ok tt
          end
      | RankDynamic => Ok tt
      end
  | None => Ok tt
  end.

Definition zero_const : Output := Constant_create i64 [] [0].
Definition step_const : Output := Constant_create i64 [2%N] [1; 1].

(** The body of the inner loop, lines 89 to 118: the transform of one
    frame, appended to [signals_in_batch]. *)
Definition stft_frame (signal : Output) (window dft_length : option Output)
  (onesided frame_step frame_length batch sig_idx : Z)
  (signals_in_batch : OutputVector) : result OutputVector :=
  let axis := 1 in
  let* start_pos := mul64 sig_idx frame_step in
  let start := Constant_create i64 [2%N] [batch; start_pos] in
  let* batch_stop := add64 batch 1 in
  let* stop_pos := add64 start_pos frame_length in
  let stop := Constant_create i64 [2%N] [batch_stop; stop_pos] in
  let slice_axes := Constant_create i64 [2%N] [0; axis] in
  let slice := v8_Slice signal start stop step_const slice_axes in
  let* slice_complex := is_complex slice in
  let flatten_slice :=
    v1_Reshape slice
      (if slice_complex then Constant_create i64 [2%N] [-1; 2]
       else if negb (onesided =? 0) then Constant_create i64 [1%N] [-1]
            else Constant_create i64 [2%N] [-1; 1])
      false in
  let* dft_input :=
    match window with
    | Some w =>
        let* flatten_complex := is_complex flatten_slice in
        Ok (v1_Multiply flatten_slice
              (if flatten_complex
               then v3_Broadcast
                      (v0_Unsqueeze w (Constant_create i64 [1%N] [1]))
                      (v3_ShapeOf flatten_slice)
               else w))
    | None => Ok flatten_slice
    end in
  let dft :=
    make_dft dft_input
      (match dft_length with Some l => l | None => NullNode end)
      0 false (onesided =? 1) in
  Ok (signals_in_batch ++ [v0_Unsqueeze dft zero_const]).

(** The body of the outer loop, lines 87 to 121. *)
Definition stft_batch (signal : Output) (window dft_length : option Output)
  (onesided frame_step frame_length nstfts batch : Z)
  (all_signals : OutputVector) : result OutputVector :=
  let* signals_in_batch :=
    for_loop nstfts
      (stft_frame signal window dft_length onesided frame_step frame_length batch)
      [] in
  Ok (all_signals ++ [v0_Unsqueeze (v0_Concat signals_in_batch 0) zero_const]).

(** Lines 60 to 123: the checks of the window input and of the onesided
    attribute, then the construction of the graph. *)
Definition stft_construct (ng_inputs : OutputVector) (signal : Output)
  (dft_length : option Output) (onesided frame_step frame_length : Z)
  : result OutputVector :=
  let axis := 1%nat in
  let signal_param_shape := get_partial_shape signal in
  let window := provided ng_inputs 2 in
  let* window_checked := check_window window frame_length in
  let* onesided_checked :=
    (if onesided =? 1 then
       let* signal_complex := is_complex signal in
       CHECK_VALID_NODE (negb signal_complex)
         "If attribute onesided==1, signal input can NOT be complex."
     else Ok tt) in
  let* batch_size := dim_length signal_param_shape 0 in
  let* signal_length := dim_length signal_param_shape axis in
  let* remaining := sub64 signal_length frame_length in
  let* quotient := div64 remaining frame_step in
  let* nstfts := add64 quotient 1 in
  let* all_signals :=
    for_loop batch_size
      (stft_batch signal window dft_length onesided frame_step frame_length nstfts)
      [] in
  Ok [v0_Concat all_signals 0].

(** Lines 30 to 58, followed by the rest of the function. *)
Definition stft (node : Node) : result OutputVector :=
  let ng_inputs := get_ng_inputs node in
  let* signal := at_ ng_inputs 0 in
  let dft_length := provided ng_inputs 3 in
  let* onesided := get_attribute_value_int_or node "onesided" 1 in
  let axis := 1%nat in
  let* frame_step_node := at_ ng_inputs 1 in
  let* frame_step_checked :=
    CHECK_VALID_NODE (is_scalar_constant frame_step_node)
      "frame_step input must be a scalar or Shape{1} constant." in
  let* frame_step := constant_value0 frame_step_node in
  let signal_param_shape := get_partial_shape signal in
  let* signal_checked :=
    CHECK_VALID_NODE (is_static_rank3 signal_param_shape)
      "Shape of signal input must be static with the rank equal to 3." in
  let* signal_length := dim_length signal_param_shape axis in
  let* default_frame_length := div64 signal_length frame_step in
  let* frame_length :=
    match dft_length with
    | Some frame_length_node =>
        let* frame_length_checked :=
          CHECK_VALID_NODE (is_scalar_constant frame_length_node)
            "frame_length input must be a scalar or Shape{1} constant." in
        constant_value0 frame_length_node
    | None => Ok default_frame_length
    end in
  stft_construct ng_inputs signal dft_length onesided frame_step frame_length.

End Stft.
End set_17_stft.

(** ** scan *)

#[global] Instance Src_eq_dec : EqDecision Src.
Proof. solve_decision. Defined.

(** *** Operations on the nodes of a body *)

(** [std::make_shared<Op>(args)] inside the body: a new node object. *)
Definition alloc (st : BodyStore) (n : BodyNode) : BodyStore * nat :=
  (st ++ [n], length st).

(** The end of the scope that created the node objects from position [n]
    on, when nothing but the pointers of that scope holds them: the node
    objects are destroyed. *)
Definition release (st : BodyStore) (n : nat) : BodyStore := take n st.

(** Modelled from the spec: the methods of the nodes of the runtime that
    scan calls on the body.
    [Parameter::set_element_type] and [Parameter::set_partial_shape],
    followed by [validate_and_infer_types]: the output of a parameter has
    the type and shape of its attributes. *)
Definition set_element_type (st : BodyStore) (p : nat) (et : ElementType)
  : result BodyStore :=
  match st !! p with
  | Some (mkBodyNode (OpParameter _ pshape) args) =>
      Ok (<[p := mkBodyNode (OpParameter et pshape) args]> st)
  | _ => Err (UndefinedBehaviour "not a parameter of the body")
  end.

Definition set_partial_shape (st : BodyStore) (p : nat) (pshape : PartialShape)
  : result BodyStore :=
  match st !! p with
  | Some (mkBodyNode (OpParameter et _) args) =>
      Ok (<[p := mkBodyNode (OpParameter et pshape) args]> st)
  | _ => Err (UndefinedBehaviour "not a parameter of the body")
  end.

(** [shape[axis] = value] on a partial shape. *)
Definition set_dimension (shape : PartialShape) (axis : Z) (value : Dimension)
  : result PartialShape :=
  match shape with
  | RankStatic dims =>
      if (0 <=? axis) && (axis <? Z.of_nat (length dims))
      then Ok (RankStatic (<[Z.to_nat axis := value]> dims))
      else Err (ExternalFailure "dimension index out of range")
  | RankDynamic => Err (ExternalFailure "dimension of a shape of dynamic rank")
  end.

(** The positions of [o] among the arguments [args], counted from [k]. *)
Fixpoint arg_positions (o : Src) (args : list Src) (k : nat) : list nat :=
  match args with
  | [] => []
  | a :: rest =>
      if decide (a = o) then k :: arg_positions o rest (S k)
      else arg_positions o rest (S k)
  end.

(** The inputs (node, argument position) fed by [o] among the nodes
    [nodes], the first of which has index [c]. *)
Fixpoint target_inputs_from (o : Src) (nodes : list BodyNode) (c : nat)
  : list (nat * nat) :=
  match nodes with
  | [] => []
  | n :: rest =>
      map (fun k => (c, k)) (arg_positions o (node_args n) 0)
        ++ target_inputs_from o rest (S c)
  end.

(** [output.get_target_inputs()]: the inputs that consume [o]. *)
Definition get_target_inputs (st : BodyStore) (o : Src) : list (nat * nat) :=
  target_inputs_from o st 0.

(** [input.replace_source_output(new_source)]. *)
Definition replace_source_output (st : BodyStore) (input : nat * nat)
  (new_source : Src) : BodyStore :=
  match st !! input.1 with
  | Some n =>
      <[input.1 := mkBodyNode (node_op n) (<[input.2 := new_source]> (node_args n))]> st
  | None => st
  end.

(** *** The TensorIterator under construction *)

(** Modelled from the spec: the loop construct of the runtime, by the
    calls scan makes on it; each call records its arguments. *)
Record TensorIterator : Type := mkTensorIterator {
  ti_function : Model;
  ti_input_descriptions : list (InputDescription Output);
  ti_output_descriptions : list OutputDescription
}.

Definition set_sliced_input (ti : TensorIterator) (param : nat) (value : Output)
  (start stride part_size end_ axis : Z) : TensorIterator :=
  mkTensorIterator (ti_function ti)
    (ti_input_descriptions ti
       ++ [SliceInput param value start stride part_size end_ axis])
    (ti_output_descriptions ti).

Definition set_merged_input (ti : TensorIterator) (body_parameter : nat)
  (initial_value : Output) (successive_value : Src) : TensorIterator :=
  mkTensorIterator (ti_function ti)
    (ti_input_descriptions ti
       ++ [MergedInput body_parameter initial_value successive_value])
    (ti_output_descriptions ti).

(** [get_iter_value] and [get_concatenated_slices] add an output to the
    iterator and return it: the index of the new output. *)
Definition get_iter_value (ti : TensorIterator) (body_value : Src)
  (iteration : Z) : TensorIterator * nat :=
  (mkTensorIterator (ti_function ti) (ti_input_descriptions ti)
     (ti_output_descriptions ti ++ [BodyOutput body_value iteration]),
   length (ti_output_descriptions ti)).

Definition get_concatenated_slices (ti : TensorIterator) (body_value : Src)
  (start stride part_size end_ axis : Z) : TensorIterator * nat :=
  (mkTensorIterator (ti_function ti) (ti_input_descriptions ti)
     (ti_output_descriptions ti
        ++ [ConcatOutput body_value start stride part_size end_ axis]),
   length (ti_output_descriptions ti)).

(** [Output<Node>(tensor_iterator, index)]: all outputs share the iterator. *)
Definition ti_output (ti : TensorIterator) (index : nat) : Output :=
  v0_TensorIterator (ti_function ti) (ti_input_descriptions ti)
    (ti_output_descriptions ti) index.

(** [std::vector<int64_t>(count, value)]; the count is converted to
    [size_t], and a count above [max_size] throws. *)
Definition vector_max_size : Z := (2 ^ 63 - 1) / 8.

Definition vector_fill (count : Z) (value : Z) : result (list Z) :=
  if vector_max_size <? size_wrap count then Err LengthError
  else Ok (replicate (Z.to_nat (size_wrap count)) value).

Module scan_detail.
Section Scan.
Context {rt : Runtime}.

Variable node_inputs : OutputVector.
Variable body_inputs : list nat.
Variable num_scan_inputs : Z.
Variable scan_input_axes scan_input_directions : list Z.
Variable scan_output_axes scan_output_directions : list Z.
Variable in_offset : Z.
Variable node_description : string.

(** Lines 40 to 44, the body of the loop over the state variables. *)
Definition align_state_input (i : Z) (st : BodyStore) : result BodyStore :=
  let* p := index body_inputs i in
  let* x := index node_inputs (size_wrap (i + in_offset)) in
  let* st1 := set_element_type st p (get_element_type x) in
  set_partial_shape st1 p (get_partial_shape x).

(** Lines 49 to 68, the body of the loop over the scan inputs.  The
    constant and the Squeeze are the last node objects created, at the
    positions [axis_node] and [axis_node + 1]. *)
Definition align_scan_input (num_initial_values : Z) (i : Z) (st : BodyStore)
  : result BodyStore :=
  let in_idx := size_wrap (num_initial_values + i) in
  let* axis := index scan_input_axes i in
  let '(st1, axis_node) := alloc st (mkBodyNode (OpConstant i64 [1%N] [axis]) []) in
  let* x := index node_inputs (size_wrap (in_idx + in_offset)) in
  let shape := get_partial_shape x in
  let* shape' :=
    match rank shape with
    | DimStatic _ =>
        let* axis' := normalize_axis node_description axis (rank shape) in
        set_dimension shape axis' (DimStatic 1)
    | DimDynamic => Ok shape
    end in
  let* p := index body_inputs in_idx in
  let* st2 := set_partial_shape st1 p shape' in
  let input_consumers := get_target_inputs st2 (mkSrc p 0) in
  let '(st3, squeeze) :=
    alloc st2 (mkBodyNode OpSqueeze [mkSrc p 0; mkSrc axis_node 0]) in
  let st4 :=
    fold_left (fun s input => replace_source_output s input (mkSrc squeeze 0))
      input_consumers st3 in
  (* line 68: [squeeze] and [axis_node] go out of scope; the Squeeze is
     held by the inputs that were moved to it and the constant by the
     Squeeze, so without consumers both are destroyed *)
  Ok (match input_consumers with
      | [] => release st4 axis_node
      | _ :: _ => st4
      end).

(** Lines 70 to 75; the state is the body and the vector [body_outputs]. *)
Definition align_scan_output (num_initial_values : Z) (i : Z)
  (s : BodyStore * list Src) : result (BodyStore * list Src) :=
  let '(st, body_outputs) := s in
  let out_idx := size_wrap (num_initial_values + i) in
  let* axis := index scan_output_axes i in
  let '(st1, axis_node) := alloc st (mkBodyNode (OpConstant i64 [1%N] [axis]) []) in
  let* out := index body_outputs out_idx in
  let '(st2, unsqueeze) :=
    alloc st1 (mkBodyNode OpUnsqueeze [out; mkSrc axis_node 0]) in
  Ok (st2, <[Z.to_nat out_idx := mkSrc unsqueeze 0]> body_outputs).

(** Lines 83 to 93. *)
Definition slice_scan_input (num_initial_values : Z) (i : Z)
  (ti : TensorIterator) : result TensorIterator :=
  let in_idx := size_wrap (num_initial_values + i) in
  let* a := index scan_input_axes i in
  let* x := index node_inputs (size_wrap (in_idx + in_offset)) in
  let* axis := normalize_axis node_description a (rank (get_partial_shape x)) in
  let* direction := index scan_input_directions i in
  let* p := index body_inputs in_idx in
  if negb (direction =? 0)
  then Ok (set_sliced_input ti p x (-1) (-1) 1 0 axis)
  else Ok (set_sliced_input ti p x 0 1 1 (-1) axis).

(** Lines 97 to 101; the state is the iterator and the vector [outputs],
    each output given by its index in the iterator. *)
Definition state_output (body_outputs : list Src) (i : Z)
  (s : TensorIterator * list nat) : result (TensorIterator * list nat) :=
  let '(ti, outputs) := s in
  let* p := index body_inputs i in
  let* x := index node_inputs (size_wrap (i + in_offset)) in
  let* out := index body_outputs i in
  let ti1 := set_merged_input ti p x out in
  let '(ti2, o) := get_iter_value ti1 out (-1) in
  Ok (ti2, outputs ++ [o]).

(** Lines 102 to 112. *)
Definition scan_output (st : BodyStore) (body_outputs : list Src)
  (num_initial_values : Z) (i : Z)
  (s : TensorIterator * list nat) : result (TensorIterator * list nat) :=
  let '(ti, outputs) := s in
  let out_idx := size_wrap (num_initial_values + i) in
  let* a := index scan_output_axes i in
  let* out := index body_outputs out_idx in
  let* axis :=
    normalize_axis node_description a (rank (get_body_partial_shape st out)) in
  let* direction := index scan_output_directions i in
  let '(ti1, o) :=
    if negb (direction =? 0)
    then get_concatenated_slices ti out (-1) (-1) 1 0 axis
    else get_concatenated_slices ti out 0 1 1 (-1) axis in
  Ok (ti1, outputs ++ [o]).

(** [scan_to_tensor_iterator]; next to the outputs it returns the node
    objects of the body as the call leaves them. *)
Definition scan_to_tensor_iterator (body : BodyStore) (body_outputs : list Src)
  : result (OutputVector * BodyStore) :=
  let num_initial_values :=
    size_wrap (Z.of_nat (length body_inputs) - num_scan_inputs) in
  let num_scan_outputs :=
    size_wrap (Z.of_nat (length body_outputs) - num_initial_values) in
  let* st1 := for_loop num_initial_values align_state_input body in
  let* st2 := for_loop num_scan_inputs (align_scan_input num_initial_values) st1 in
  let* aligned :=
    for_loop num_scan_outputs (align_scan_output num_initial_values)
      (st2, body_outputs) in
  let '(st3, body_outputs') := aligned in
  let ti_body := mkModel st3 body_outputs' body_inputs in
  let tensor_iterator := mkTensorIterator ti_body [] [] in
  let* ti1 :=
    for_loop num_scan_inputs (slice_scan_input num_initial_values)
      tensor_iterator in
  let* with_states :=
    for_loop num_initial_values (state_output body_outputs') (ti1, []) in
  let* with_scans :=
    for_loop num_scan_outputs (scan_output st3 body_outputs' num_initial_values)
      with_states in
  let '(ti2, outputs) := with_scans in
  Ok (map (ti_output ti2) outputs, st3).

End Scan.

Section ImportScan.
Context {rt : Runtime}.

(** The node object after the call: its body has been rewritten. *)
Definition with_body (node : Node) (body_graph : Subgraph) (nodes : BodyStore)
  : Node :=
  mkNode (get_ng_inputs node) (attributes node)
    (<["body" := mkSubgraph nodes (sg_parameters body_graph) (sg_outputs body_graph)]>
       (get_subgraphs node))
    (get_description node).

Definition import_onnx_scan (node : Node) (default_axis in_offset : Z)
  (in_directions_attr_name : string) : result (OutputVector * Node) :=
  let node_inputs := get_ng_inputs node in
  let subgraphs := get_subgraphs node in
  let* body_graph :=
    match subgraphs !! "body" with
    | Some g => Ok g
    | None => Err OutOfRange
    end in
  let body_outputs := sg_outputs body_graph in
  let body_inputs := sg_parameters body_graph in
  let* num_scan_inputs := get_attribute_value_int node "num_scan_inputs" in
  let num_initial_values :=
    size_wrap (Z.of_nat (length body_inputs) - num_scan_inputs) in
  let num_scan_outputs :=
    size_wrap (Z.of_nat (length body_outputs) - num_initial_values) in
  let* default_input_axes := vector_fill num_scan_inputs default_axis in
  let* scan_input_axes :=
    get_attribute_value_ints_or node "scan_input_axes" default_input_axes in
  let* default_input_directions := vector_fill num_scan_inputs 0 in
  let* scan_input_directions :=
    get_attribute_value_ints_or node in_directions_attr_name
      default_input_directions in
  let* default_output_axes := vector_fill num_scan_outputs default_axis in
  let* scan_output_axes :=
    get_attribute_value_ints_or node "scan_output_axes" default_output_axes in
  let* default_output_directions := vector_fill num_scan_outputs 0 in
  let* scan_output_directions :=
    get_attribute_value_ints_or node "scan_output_directions"
      default_output_directions in
  let* translated :=
    scan_to_tensor_iterator node_inputs body_inputs num_scan_inputs
      scan_input_axes scan_input_directions
      scan_output_axes scan_output_directions
      in_offset (get_description node)
      (sg_nodes body_graph) body_outputs in
  Ok (translated.1, with_body node body_graph translated.2).

End ImportScan.
End scan_detail.

Module set_1_scan.
Section Scan.
Context {rt : Runtime}.

Definition scan (node : Node) : result (OutputVector * Node) :=
  let* sequence_lens := at_ (get_ng_inputs node) 0 in
  let* sequence_lens_checked :=
    OPENVINO_ASSERT (is_null sequence_lens)
      " ONNX Scan-8 `sequence_lens` input is not supported. " in
  scan_detail.import_onnx_scan node 1 1 "directions".

End Scan.
End set_1_scan.

Module set_9_scan.
Section Scan.
Context {rt : Runtime}.

Definition scan (node : Node) : result (OutputVector * Node) :=
  scan_detail.import_onnx_scan node 0 0 "scan_input_directions".

End Scan.
End set_9_scan.

(** ** Predicates and graphs the properties are stated with *)

(** The node carries a "reduction" attribute whose value is not "none". *)
Definition reduction_unsupported (node : Node) : Prop :=
  exists v : AttrValue,
    find_attribute (attributes node) "reduction" = Some v /\ v <> AString "none".

(** The float attribute [name] of the node has value [value], [default]
    standing in for an absent attribute. *)
Definition float_attribute (node : Node) (name : string)
  (default value : spec_float) : Prop :=
  find_attribute (attributes node) name = Some (AFloat value) \/
  (find_attribute (attributes node) name = None /\ value = default).

(** The node with every argument [o] replaced by [new_source]. *)
Definition rewire (o new_source : Src) (n : BodyNode) : BodyNode :=
  mkBodyNode (node_op n)
    (map (fun a => if decide (a = o) then new_source else a) (node_args n)).

Section StftSpecification.
Context {rt : Runtime}.

(** The innermost dimension of the shape of [o] is static and equal to 2. *)
Definition innermost_is_2 (o : Output) : bool :=
  match get_partial_shape o with
  | RankStatic dims =>
      match last dims with
      | Some (DimStatic len) => len =? 2
      | _ => false
      end
  | RankDynamic => false
  end.

(** Frame [sig_idx] of batch element [b]: rows [b, b+1) on axis 0 and
    positions [sig_idx * frame_step, sig_idx * frame_step + frame_length)
    on axis 1. *)
Definition frame_slice (signal : Output) (frame_step frame_length b sig_idx : Z)
  : Output :=
  v8_Slice signal
    (v0_Constant i64 [2%N] (IntData [b; sig_idx * frame_step]))
    (v0_Constant i64 [2%N] (IntData [b + 1; sig_idx * frame_step + frame_length]))
    (v0_Constant i64 [2%N] (IntData [1; 1]))
    (v0_Constant i64 [2%N] (IntData [0; 1])).

(** The frame flattened: to pairs when it is complex, to a vector for a
    onesided transform, to a column otherwise. *)
Definition frame_flattened (onesided : Z) (frame : Output) : Output :=
  v1_Reshape frame
    (if innermost_is_2 frame then v0_Constant i64 [2%N] (IntData [-1; 2])
     else if onesided =? 0 then v0_Constant i64 [2%N] (IntData [-1; 1])
          else v0_Constant i64 [1%N] (IntData [-1]))
    false.

(** The flattened frame multiplied by the window, when there is one; the
    window is broadcast to the shape of a complex frame. *)
Definition frame_windowed (window : option Output) (flat : Output) : Output :=
  match window with
  | Some w =>
      v1_Multiply flat
        (if innermost_is_2 flat
         then v3_Broadcast
                (v0_Unsqueeze w (v0_Constant i64 [1%N] (IntData [1])))
                (v3_ShapeOf flat)
         else w)
  | None => flat
  end.

(** The transform of one frame. *)
Definition frame_transform (signal : Output) (window dft_length : option Output)
  (onesided frame_step frame_length b sig_idx : Z) : Output :=
  make_dft
    (frame_windowed window
       (frame_flattened onesided
          (frame_slice signal frame_step frame_length b sig_idx)))
    (default NullNode dft_length) 0 false (onesided =? 1).

(** The output of stft: the concatenation over the batch elements of the
    concatenation over the frames of the transforms. *)
Definition stft_graph (signal : Output) (window dft_length : option Output)
  (onesided frame_step frame_length batch_size nstfts : Z) : Output :=
  let zero := v0_Constant i64 [] (IntData [0]) in
  v0_Concat
    (map (fun b =>
            v0_Unsqueeze
              (v0_Concat
                 (map (fun sig_idx =>
                         v0_Unsqueeze
                           (frame_transform signal window dft_length onesided
                              frame_step frame_length b sig_idx)
                           zero)
                    (range nstfts))
                 0)
              zero)
       (range batch_size))
    0.

(** A constant of scalar or Shape{1} form. *)
Definition scalar_or_shape1_constant (o : Output) : Prop :=
  exists et shape data,
    o = v0_Constant et shape data /\ (shape = [] \/ shape = [1%N]).

(** The window conditions: a static rank other than 1, a static length
    other than [frame_length]. *)
Definition window_rank_mismatch (window : option Output) : Prop :=
  exists w dims,
    window = Some w /\ get_partial_shape w = RankStatic dims /\
    length dims <> 1%nat.

Definition window_length_mismatch (window : option Output) (frame_length : Z)
  : Prop :=
  exists w dims len,
    window = Some w /\ get_partial_shape w = RankStatic dims /\
    dims !! 0%nat = Some (DimStatic len) /\ len <> frame_length.

(** A onesided transform is asked of a complex signal. *)
Definition onesided_complex (signal : Output) (onesided : Z) : Prop :=
  onesided = 1 /\ innermost_is_2 signal = true.

(** The five conditions the specification lists for a validation error. *)
Definition listed_stft_failure (signal frame_step_node : Output)
  (window : option Output) (onesided frame_length : Z) : Prop :=
  ~ scalar_or_shape1_constant frame_step_node \/
  set_17_stft.is_static_rank3 (get_partial_shape signal) = false \/
  window_rank_mismatch window \/
  window_length_mismatch window frame_length \/
  onesided_complex signal onesided.

(** The conditions under which the code raises a validation error: the
    frame_step input is not a constant of at most one element, the signal
    is not static of rank 3, a provided dft_length input is not a
    constant of at most one element, and the window and onesided
    conditions. *)
Definition stft_rejected (signal frame_step_node : Output)
  (window dft_length : option Output) (onesided frame_length : Z) : Prop :=
  set_17_stft.is_scalar_constant frame_step_node = false \/
  set_17_stft.is_static_rank3 (get_partial_shape signal) = false \/
  (exists l, dft_length = Some l /\ set_17_stft.is_scalar_constant l = false) \/
  window_rank_mismatch window \/
  window_length_mismatch window frame_length \/
  onesided_complex signal onesided.

(** The first value of a constant and the length of a dimension, 0 where
    there is none. *)
Definition int64_value0 (o : Output) : Z :=
  match set_17_stft.constant_value0 o with
  | Ok v => v
  | Err _ => 0
  end.

Definition axis_length (shape : PartialShape) (i : nat) : Z :=
  match set_17_stft.dim_length shape i with
  | Ok len => len
  | Err _ => 0
  end.

(** The frame length: the value of the dft_length input when provided,
    the length of axis 1 of the signal divided by the frame step
    otherwise. *)
Definition stft_frame_length (signal frame_step_node : Output)
  (dft_length : option Output) : Z :=
  match dft_length with
  | Some l => int64_value0 l
  | None =>
      Z.quot (axis_length (get_partial_shape signal) 1)
        (int64_value0 frame_step_node)
  end.

(** All static dimensions of a shape lie in [0, bound). *)
Definition static_dims_below (bound : Z) (shape : PartialShape) : Prop :=
  match shape with
  | RankStatic dims =>
      Forall (fun d => match d with
                       | DimStatic len => 0 <= len < bound
                       | DimDynamic => True
                       end) dims
  | RankDynamic => True
  end.

(** The shapes the runtime infers for the slices of [data] have at least
    one dimension. *)
Definition slices_have_dimensions (data : Output) : Prop :=
  forall start stop step axes,
    get_partial_shape (v8_Slice data start stop step axes) <> RankStatic [].

(** The three patterns stft flattens a frame with (lines 99 to 101). *)
Definition stft_patterns : list Output :=
  [ Constant_create i64 [2%N] [-1; 2];
    Constant_create i64 [1%N] [-1];
    Constant_create i64 [2%N] [-1; 1] ].

(** The shapes the runtime infers for the flattened frames stft builds,
    the reshapes of a slice of [data] by one of the three patterns, have
    at least one dimension. *)
Definition reshapes_have_dimensions (data : Output) : Prop :=
  forall start stop step axes pattern,
    pattern ∈ stft_patterns ->
    get_partial_shape
      (v1_Reshape (v8_Slice data start stop step axes) pattern false)
    <> RankStatic [].

(** An error that stands for undefined behaviour. *)
Definition undefined (e : error) : Prop :=
  exists what, e = UndefinedBehaviour what.

End StftSpecification.

(** *** scan *)

(** Some input of a node object of [st] consumes [o]. *)
Definition consumed (st : BodyStore) (o : Src) : Prop :=
  exists (k : nat) (n : BodyNode) (j : nat),
    st !! k = Some n /\ node_args n !! j = Some o.

(** In the body [st], every input that consumed parameter [p] in the body
    [body] consumes a Squeeze of [p] whose axes operand is the constant
    [axis]: one Squeeze for all of them.  Of a parameter without consumers
    this says nothing: no Squeeze is left for it. *)
Definition squeezed_consumers (body st : BodyStore) (p : nat) (axis : Z) : Prop :=
  consumed body (mkSrc p 0) ->
  exists sq c : nat,
    st !! sq = Some (mkBodyNode OpSqueeze [mkSrc p 0; mkSrc c 0]) /\
    st !! c = Some (mkBodyNode (OpConstant i64 [1%N] [axis]) []) /\
    forall (k : nat) (n : BodyNode) (j : nat),
      body !! k = Some n ->
      node_args n !! j = Some (mkSrc p 0) ->
      exists n', st !! k = Some n' /\ node_args n' !! j = Some (mkSrc sq 0).

(** In the body [st], parameter [p] has the dimensions [dims] with the
    static extent 1 at [axis]. *)
Definition unit_extent (st : BodyStore) (p : nat) (dims : list Dimension)
  (axis : Z) : Prop :=
  0 <= axis < Z.of_nat (length dims) /\
  exists (et : ElementType) (pdims : list Dimension),
    node_op <$> st !! p = Some (OpParameter et (RankStatic pdims)) /\
    pdims = <[Z.to_nat axis := DimStatic 1]> dims /\
    pdims !! Z.to_nat axis = Some (DimStatic 1).

(** The body after one iteration of the alignment of the scan inputs:
    parameter [p] gets the shape [pshape], the constant [axis] and the
    Squeeze of [p] are added, and the nodes that were there consume the
    Squeeze in place of [p]. *)
Definition aligned_body (st : BodyStore) (p : nat) (et : ElementType)
  (pshape : PartialShape) (pargs : list Src) (axis : Z) : BodyStore :=
  map (rewire (mkSrc p 0) (mkSrc (S (length st)) 0))
    (<[p := mkBodyNode (OpParameter et pshape) pargs]> st
     ++ [mkBodyNode (OpConstant i64 [1%N] [axis]) []])
  ++ [mkBodyNode OpSqueeze [mkSrc p 0; mkSrc (length st) 0]].

(** The inputs that consume parameter [p] in [body] still consume it in
    [st]. *)
Definition pending_consumers (body st : BodyStore) (p : nat) : Prop :=
  forall (k : nat) (n : BodyNode) (j : nat),
    body !! k = Some n ->
    node_args n !! j = Some (mkSrc p 0) ->
    exists n', st !! k = Some n' /\ node_args n' !! j = Some (mkSrc p 0).

Section ScanSpecification.
Context {rt : Runtime}.

Variable node_inputs : OutputVector.
Variable body_inputs : list nat.
Variable scan_input_axes scan_output_axes : list Z.
Variable in_offset : Z.
Variable node_description : string.
Variable num_initial_values : Z.

(** Scan input [i] is aligned in the body [st]: its parameter has extent
    1 at the normalized scan axis when the rank of the input is static,
    and the consumers the parameter had in [body] consume a Squeeze of it
    along the scan axis. *)
Definition scan_input_aligned (body st : BodyStore) (i : Z) : Prop :=
  exists (p : nat) (x : Output) (a : Z),
    body_inputs !! Z.to_nat (num_initial_values + i) = Some p /\
    node_inputs !! Z.to_nat (size_wrap (num_initial_values + i + in_offset))
      = Some x /\
    scan_input_axes !! Z.to_nat i = Some a /\
    squeezed_consumers body st p a /\
    forall dims,
      get_partial_shape x = RankStatic dims ->
      exists ax,
        normalize_axis node_description a (DimStatic (Z.of_nat (length dims)))
        = Ok ax /\
        unit_extent st p dims ax.

(** Scan output [j] is aligned: in the vector [body_outputs'] it is an
    Unsqueeze, along the scan axis, of what it is in [body_outputs]. *)
Definition scan_output_aligned (st : BodyStore)
  (body_outputs body_outputs' : list Src) (j : Z) : Prop :=
  exists (out : Src) (a : Z) (u c : nat),
    body_outputs !! Z.to_nat (num_initial_values + j) = Some out /\
    scan_output_axes !! Z.to_nat j = Some a /\
    body_outputs' !! Z.to_nat (num_initial_values + j) = Some (mkSrc u 0) /\
    st !! u = Some (mkBodyNode OpUnsqueeze [out; mkSrc c 0]) /\
    st !! c = Some (mkBodyNode (OpConstant i64 [1%N] [a]) []).

(** The descriptions of a sliced input and of a concatenated output for
    a direction: reverse (start -1, stride -1, end 0) when the direction
    is not 0, forward (start 0, stride 1, end -1) when it is. *)
Definition slice_description (p : nat) (x : Output) (direction axis : Z)
  : InputDescription Output :=
  if direction =? 0 then SliceInput p x 0 1 1 (-1) axis
  else SliceInput p x (-1) (-1) 1 0 axis.

Definition concat_description (out : Src) (direction axis : Z)
  : OutputDescription :=
  if direction =? 0 then ConcatOutput out 0 1 1 (-1) axis
  else ConcatOutput out (-1) (-1) 1 0 axis.

Variable scan_input_directions scan_output_directions : list Z.
Variable body_outputs : list Src.

(** Output [i] of the iterator is the value, at the last iteration, of
    body output [i], which is merged with state variable [i] by a back
    edge. *)
Definition state_variable_output (ti : TensorIterator) (i : Z) : Prop :=
  exists (p : nat) (x : Output) (out : Src),
    body_inputs !! Z.to_nat i = Some p /\
    node_inputs !! Z.to_nat (size_wrap (i + in_offset)) = Some x /\
    body_outputs !! Z.to_nat i = Some out /\
    MergedInput p x out ∈ ti_input_descriptions ti /\
    ti_output_descriptions ti !! Z.to_nat i = Some (BodyOutput out (-1)).

(** Output [num_initial_values + j] of the iterator is the concatenation,
    along the scan axis and in the direction of scan output [j], of the
    unsqueezed body output. *)
Definition scan_output_concatenated (st : BodyStore) (ti : TensorIterator)
  (j : Z) : Prop :=
  exists (out : Src) (a : Z) (u c : nat) (direction axis : Z),
    body_outputs !! Z.to_nat (num_initial_values + j) = Some out /\
    scan_output_axes !! Z.to_nat j = Some a /\
    st !! u = Some (mkBodyNode OpUnsqueeze [out; mkSrc c 0]) /\
    st !! c = Some (mkBodyNode (OpConstant i64 [1%N] [a]) []) /\
    scan_output_directions !! Z.to_nat j = Some direction /\
    normalize_axis node_description a
      (rank (get_body_partial_shape st (mkSrc u 0))) = Ok axis /\
    ti_output_descriptions ti !! Z.to_nat (num_initial_values + j)
      = Some (concat_description (mkSrc u 0) direction axis).

(** Scan input [i] is sliced along its normalized scan axis, in its
    direction. *)
Definition scan_input_sliced (ti : TensorIterator) (i : Z) : Prop :=
  exists (p : nat) (x : Output) (a direction axis : Z),
    body_inputs !! Z.to_nat (num_initial_values + i) = Some p /\
    node_inputs !! Z.to_nat (size_wrap (num_initial_values + i + in_offset))
      = Some x /\
    scan_input_axes !! Z.to_nat i = Some a /\
    scan_input_directions !! Z.to_nat i = Some direction /\
    normalize_axis node_description a (rank (get_partial_shape x)) = Ok axis /\
    slice_description p x direction axis ∈ ti_input_descriptions ti.

End ScanSpecification.

Section ScanTranslation.
Context {rt : Runtime}.

(** The translation of a scan node of opset 1 or of opset 9, with the
    default axis, the input offset and the name of the attribute of the
    input directions of that opset; [node'] is the node after the call. *)
Definition scan_translated (node node' : Node) (outs : OutputVector)
  (default_axis in_offset : Z) (directions_name : string) : Prop :=
  (set_1_scan.scan node = Ok (outs, node') /\
   default_axis = 1 /\ in_offset = 1 /\ directions_name = "directions") \/
  (set_9_scan.scan node = Ok (outs, node') /\
   default_axis = 0 /\ in_offset = 0 /\
   directions_name = "scan_input_directions").

End ScanTranslation.



(** ** A runtime and nodes to run the translators on *)

(** A shape inference that knows parameters, constants and slices, and
    leaves the shape of everything else dynamic; helpers that build one
    operation. *)
Fixpoint example_shape (o : Output) : PartialShape :=
  match o with
  | v0_Parameter _ pshape => pshape
  | v0_Constant _ shape _ =>
      RankStatic (map (fun d => DimStatic (Z.of_N d)) shape)
  | v8_Slice data _ _ _ _ =>
      match example_shape data with
      | RankStatic dims => RankStatic (map (fun _ => DimDynamic) dims)
      | RankDynamic => RankDynamic
      end
  | _ => RankDynamic
  end.

Definition example_type (o : Output) : ElementType :=
  match o with
  | v0_Parameter et _ => et
  | v0_Constant et _ _ => et
  | _ => dynamic
  end.

Definition example_ov_element_type (dtype : Z) : result ElementType :=
  if dtype =? 1 then Ok f32
  else if dtype =? 10 then Ok f16
  else if dtype =? 11 then Ok f64
  else Err (ExternalFailure "unsupported element type").

Definition example_normalize_axis (description : string) (axis : Z) (r : Rank)
  : result Z :=
  match r with
  | DimDynamic =>
      if axis <? 0
      then Err (AssertionFailure "Rank must be static in order to normalize negative axis")
      else Ok axis
  | DimStatic n =>
      if (- n <=? axis) && (axis <? n)
      then Ok (if axis <? 0 then axis + n else axis)
      else Err (AssertionFailure "axis out of the tensor rank range")
  end.

Definition example_body_shape (st : BodyStore) (o : Src) : PartialShape :=
  match st !! src_node o with
  | Some (mkBodyNode (OpParameter _ pshape) _) => pshape
  | _ => RankDynamic
  end.

Definition example_runtime : Runtime := {|
  get_partial_shape := example_shape;
  get_element_type := example_type;
  float_to_int64 := fun _ => 0;
  get_ov_element_type := example_ov_element_type;
  make_random_normal := fun sizes et mean scale seed =>
    ([Operation "RandomNormal" [sizes; mean; scale]], []);
  make_dft := fun signal length axis inverse onesided =>
    Operation (if onesided then "RDFT" else "DFT") [signal; length];
  normalize_axis := example_normalize_axis;
  get_body_partial_shape := example_body_shape
|}.

Definition example_input : Output := v0_Parameter f32 (RankStatic [DimStatic 2; DimDynamic]).
Definition example_indices : Output := v0_Parameter i64 (RankStatic [DimStatic 1; DimStatic 1]).
Definition example_updates : Output := v0_Parameter f32 (RankStatic [DimStatic 1; DimDynamic]).

Definition example_unary_node : Node :=
  mkNode [example_input] [] ∅ "unary".

Definition example_binary_node : Node :=
  mkNode [example_input; example_updates] [] ∅ "binary".

Definition example_scatter_node : Node :=
  mkNode [example_input; example_indices; example_updates]
    [("reduction", AString "none")] ∅ "ScatterND".

Definition example_scatter_add_node : Node :=
  mkNode [example_input; example_indices; example_updates]
    [("reduction", AString "add")] ∅ "ScatterND".

Definition example_random_node : Node :=
  mkNode [example_input] [("dtype", AInt 11); ("mean", AFloat float_one)] ∅
    "RandomNormalLike".

(** A Scan body with one state variable and one scan input: parameters 0
    and 1 feed an addition (node 2), which is both the new state and the
    scan output. *)
Definition example_body : Subgraph :=
  mkSubgraph
    [ mkBodyNode (OpParameter f32 RankDynamic) [];
      mkBodyNode (OpParameter f32 RankDynamic) [];
      mkBodyNode (OpOther "Add") [mkSrc 0 0; mkSrc 1 0] ]
    [0%nat; 1%nat]
    [mkSrc 2 0; mkSrc 2 0].

Definition example_initial_state : Output :=
  v0_Parameter f32 (RankStatic [DimStatic 2]).
Definition example_sequence : Output :=
  v0_Parameter f32 (RankStatic [DimStatic 3; DimStatic 2]).
Definition example_batched_sequence : Output :=
  v0_Parameter f32 (RankStatic [DimStatic 1; DimStatic 3; DimStatic 2]).

Definition example_scan9_node : Node :=
  mkNode [example_initial_state; example_sequence]
    [("num_scan_inputs", AInt 1); ("scan_output_directions", AInts [1])]
    (<["body" := example_body]> ∅) "Scan-9".

Definition example_scan8_node : Node :=
  mkNode [NullNode; example_initial_state; example_batched_sequence]
    [("num_scan_inputs", AInt 1)]
    (<["body" := example_body]> ∅) "Scan-8".

Definition example_scan8_lens_node : Node :=
  mkNode [example_indices; example_initial_state; example_batched_sequence]
    [("num_scan_inputs", AInt 1)]
    (<["body" := example_body]> ∅) "Scan-8".

(** stft nodes: a signal of 8 samples and a frame step of 4, 0, or given
    by a constant of shape {1,1}; a dft_length input that is a parameter. *)
Definition example_signal : Output :=
  v0_Parameter f32 (RankStatic [DimStatic 1; DimStatic 8; DimStatic 1]).

Definition example_frame_step (step : Z) : Output :=
  v0_Constant i64 [] (IntData [step]).

Definition example_stft_node : Node :=
  mkNode [example_signal; example_frame_step 4] [] ∅ "STFT".

Definition example_stft_zero_step_node : Node :=
  mkNode [example_signal; example_frame_step 0] [] ∅ "STFT".

Definition example_dft_length_parameter : Output :=
  v0_Parameter i64 (RankStatic []).

Definition example_stft_dft_length_node : Node :=
  mkNode [example_signal; example_frame_step 4; NullNode;
          example_dft_length_parameter] [] ∅ "STFT".

(** The outputs and the node a call of scan leaves. *)
Definition example_scan9_result : OutputVector * Node :=
  match @set_9_scan.scan example_runtime example_scan9_node with
  | Ok translated => translated
  | Err _ => ([], example_scan9_node)
  end.

Definition example_scan8_result : OutputVector * Node :=
  match @set_1_scan.scan example_runtime example_scan8_node with
  | Ok translated => translated
  | Err _ => ([], example_scan8_node)
  end.

(** stft nodes at the edges: a signal of dynamic rank with a frame step
    of 0, a frame step constant without elements, a dft_length longer
    than the signal. *)
Definition example_dynamic_signal : Output := v0_Parameter f32 RankDynamic.

Definition example_stft_unchecked_node : Node :=
  mkNode [example_dynamic_signal; example_frame_step 0] [] ∅ "STFT".

Definition example_empty_constant : Output :=
  v0_Constant i64 [0%N] (IntData []).

Definition example_stft_empty_step_node : Node :=
  mkNode [example_signal; example_empty_constant] [] ∅ "STFT".

Definition example_dft_length (len : Z) : Output :=
  v0_Constant i64 [] (IntData [len]).

Definition example_stft_long_frame_node (len : Z) : Node :=
  mkNode [example_signal; example_frame_step 4; NullNode; example_dft_length len]
    [] ∅ "STFT".

Definition example_stft_extended_node : Node :=
  mkNode [example_signal; example_frame_step 4; NullNode; NullNode;
          example_indices]
    [("onesided", AInt 1); ("axis", AInt 2)]
    (<["body" := example_body]> ∅) "STFT with more".

Definition example_stft_plain_node : Node :=
  mkNode [example_signal; example_frame_step 4; NullNode; NullNode]
    [("onesided", AInt 1)] ∅ "STFT".

(** Nodes without the inputs or with attributes of another type. *)
Definition example_empty_node : Node :=
  mkNode [] [("reduction", AString "add"); ("dtype", AString "float")] ∅ "empty".

Definition example_scatter_typed_node : Node :=
  mkNode [example_input; example_indices; example_updates]
    [("reduction", AInt 0)] ∅ "ScatterND".

(** Scan nodes without a body, without num_scan_inputs, and with a
    negative num_scan_inputs. *)
Definition example_scan_no_body_node : Node :=
  mkNode [example_initial_state; example_sequence]
    [("num_scan_inputs", AInt 1)] ∅ "Scan-9".

Definition example_scan_no_count_node : Node :=
  mkNode [example_initial_state; example_sequence] []
    (<["body" := example_body]> ∅) "Scan-9".

Definition example_scan_negative_node : Node :=
  mkNode [example_initial_state; example_sequence]
    [("num_scan_inputs", AInt (-1))]
    (<["body" := example_body]> ∅) "Scan-9".

(** A scan node whose scan input is not consumed in the body: the body
    outputs the state variable twice. *)
Definition example_unconsumed_body : Subgraph :=
  mkSubgraph
    [ mkBodyNode (OpParameter f32 RankDynamic) [];
      mkBodyNode (OpParameter f32 RankDynamic) [];
      mkBodyNode (OpOther "Identity") [mkSrc 0 0] ]
    [0%nat; 1%nat]
    [mkSrc 2 0; mkSrc 2 0].

Definition example_scan9_unconsumed_node : Node :=
  mkNode [example_initial_state; example_sequence]
    [("num_scan_inputs", AInt 1)]
    (<["body" := example_unconsumed_body]> ∅) "Scan-9".

Definition example_scan9_unconsumed_result : OutputVector * Node :=
  match @set_9_scan.scan example_runtime example_scan9_unconsumed_node with
  | Ok translated => translated
  | Err _ => ([], example_scan9_unconsumed_node)
  end.

(** A runtime that gives a Reshape the rank of its pattern, and an stft
    node with a window of the frame length. *)
Fixpoint example_ranked_shape (o : Output) : PartialShape :=
  match o with
  | v0_Parameter _ pshape => pshape
  | v0_Constant _ shape _ =>
      RankStatic (map (fun d => DimStatic (Z.of_N d)) shape)
  | v8_Slice data _ _ _ _ =>
      match example_ranked_shape data with
      | RankStatic dims => RankStatic (map (fun _ => DimDynamic) dims)
      | RankDynamic => RankDynamic
      end
  | v1_Reshape _ (v0_Constant _ _ (IntData values)) _ =>
      RankStatic (map (fun _ => DimDynamic) values)
  | _ => RankDynamic
  end.

Definition example_ranked_runtime : Runtime := {|
  get_partial_shape := example_ranked_shape;
  get_element_type := example_type;
  float_to_int64 := fun _ => 0;
  get_ov_element_type := example_ov_element_type;
  make_random_normal := fun sizes et mean scale seed =>
    ([Operation "RandomNormal" [sizes; mean; scale]], []);
  make_dft := fun signal length axis inverse onesided =>
    Operation (if onesided then "RDFT" else "DFT") [signal; length];
  normalize_axis := example_normalize_axis;
  get_body_partial_shape := example_body_shape
|}.

Definition example_window : Output := v0_Parameter f32 (RankStatic [DimStatic 2]).

Definition example_stft_window_node : Node :=
  mkNode [example_signal; example_frame_step 4; example_window] [] ∅ "STFT".

(** ** Predicates of further properties *)

(** The messages of the validation errors of stft. *)
Definition stft_messages : list string :=
  [ "frame_step input must be a scalar or Shape{1} constant.";
    "Shape of signal input must be static with the rank equal to 3.";
    "frame_length input must be a scalar or Shape{1} constant.";
    "The rank of window input must be 1D.";
    "The length of window input must be equal to frame_length.";
    "If attribute onesided==1, signal input can NOT be complex." ].

(** The ways a call of stft ends when it does not return. *)
Definition stft_error (e : error) : Prop :=
  e = OutOfRange \/
  e = InvalidAttribute "onesided" \/
  undefined e \/
  exists msg, msg ∈ stft_messages /\ e = ValidationError msg.

(** The part of a node stft reads: its first four inputs and the
    attribute onesided. *)
Definition same_stft_arguments (n1 n2 : Node) : Prop :=
  take 4 (get_ng_inputs n1) = take 4 (get_ng_inputs n2) /\
  find_attribute (attributes n1) "onesided"
  = find_attribute (attributes n2) "onesided".

(** The batch element of an stft without frames. *)
Definition empty_batch_element : Output :=
  v0_Unsqueeze (v0_Concat [] 0) (v0_Constant i64 [] (IntData [0])).

(** *** scan: the body after the translation *)

(** A node object keeps its operation: as many arguments, and the same
    operation; a parameter stays a parameter, its element type and shape
    may differ. *)
Definition same_operation (n n' : BodyNode) : Prop :=
  length (node_args n') = length (node_args n) /\
  match node_op n with
  | OpParameter _ _ => exists et pshape, node_op n' = OpParameter et pshape
  | op => node_op n' = op
  end.

(** A node the alignment adds: a constant of shape {1} holding an axis, a
    Squeeze or an Unsqueeze. *)
Definition alignment_node (n : BodyNode) : Prop :=
  (exists axis, node_op n = OpConstant i64 [1%N] [axis]) \/
  node_op n = OpSqueeze \/ node_op n = OpUnsqueeze.

(** The body [st] extends [body]: every node object of [body] is in [st]
    at its place with its operation, and the others are alignment nodes. *)
Definition body_extended (body st : BodyStore) : Prop :=
  (forall k n, body !! k = Some n ->
     exists n', st !! k = Some n' /\ same_operation n n') /\
  (forall k n', (length body <= k)%nat -> st !! k = Some n' ->
     alignment_node n').

(** Some input of a node object of [body] consumes parameter [p]. *)
Definition is_consumed (body : BodyStore) (p : nat) : bool :=
  existsb (fun n => bool_decide (mkSrc p 0 ∈ node_args n)) body.

(** The number of scan inputs whose parameter has a consumer in [body];
    the parameters of the scan inputs follow the [num_initial_values]
    parameters of the state variables. *)
Definition consumed_scan_inputs (body : BodyStore) (body_inputs : list nat)
  (num_initial_values : Z) : nat :=
  length (filter (fun p => is_consumed body p = true)
            (drop (Z.to_nat num_initial_values) body_inputs)).

Section ScanParameters.
Context {rt : Runtime}.

Variable node_inputs : OutputVector.
Variable body_inputs : list nat.
Variable in_offset : Z.
Variable num_initial_values : Z.

(** In the body [st], the parameter of state variable [i] has the element
    type and the partial shape of the node input that initializes it. *)
Definition state_parameter_aligned (st : BodyStore) (i : Z) : Prop :=
  exists (p : nat) (x : Output),
    body_inputs !! Z.to_nat i = Some p /\
    node_inputs !! Z.to_nat (size_wrap (i + in_offset)) = Some x /\
    node_op <$> st !! p
    = Some (OpParameter (get_element_type x) (get_partial_shape x)).

(** In the body [st], the parameter of scan input [i] has the element
    type it has in [body]; its shape has a dynamic rank when the node
    input has. *)
Definition scan_parameter_kept (body st : BodyStore) (i : Z) : Prop :=
  exists (p : nat) (x : Output) (et : ElementType)
         (pshape0 pshape : PartialShape),
    body_inputs !! Z.to_nat (num_initial_values + i) = Some p /\
    node_inputs !! Z.to_nat (size_wrap (num_initial_values + i + in_offset))
      = Some x /\
    node_op <$> body !! p = Some (OpParameter et pshape0) /\
    node_op <$> st !! p = Some (OpParameter et pshape) /\
    (get_partial_shape x = RankDynamic -> pshape = RankDynamic).

(** Input description [i] of the iterator is the slicing of scan input
    [i]; input description [num_scan_inputs + i] is the back edge of
    state variable [i]. *)
Definition sliced_at (ti : TensorIterator) (i : Z) : Prop :=
  exists (p : nat) (x : Output) (direction axis : Z),
    body_inputs !! Z.to_nat (num_initial_values + i) = Some p /\
    node_inputs !! Z.to_nat (size_wrap (num_initial_values + i + in_offset))
      = Some x /\
    ti_input_descriptions ti !! Z.to_nat i
    = Some (if direction =? 0 then SliceInput p x 0 1 1 (-1) axis
            else SliceInput p x (-1) (-1) 1 0 axis).

Definition merged_at (num_scan_inputs : Z) (ti : TensorIterator) (i : Z)
  : Prop :=
  exists (p : nat) (x : Output) (out : Src),
    body_inputs !! Z.to_nat i = Some p /\
    node_inputs !! Z.to_nat (size_wrap (i + in_offset)) = Some x /\
    ti_input_descriptions ti !! Z.to_nat (num_scan_inputs + i)
    = Some (MergedInput p x out).

End ScanParameters.

(** * Properties *)

(** ** Generic facts about the result monad and loops *)

Lemma bind_Ok_inv {A B : Type} (r : result A) (k : A -> result B) (b : B) :
  bind r k = Ok b -> exists a, r = Ok a /\ k a = Ok b.
Proof. destruct r as [a|e]; simpl; [eauto | discriminate]. Qed.

Lemma at_Some {A : Type} (v : list A) (i : nat) (a : A) :
  v !! i = Some a -> at_ v i = Ok a.
Proof. unfold at_. intros ->. reflexivity. Qed.

(** ** sqrt and mul *)

(** C8: the sqrt translation returns exactly one output, [Sqrt] of input
    0; the opset-7 mul translation returns exactly one output, [Multiply]
    of inputs 0 and 1; nodes that agree on these inputs are translated
    alike, whatever their other inputs are. *)
Theorem sqrt_mul_translation (sqrt_node mul_node : Node) (x a b : Output)
  (Hx : get_ng_inputs sqrt_node !! 0%nat = Some x)
  (Ha : get_ng_inputs mul_node !! 0%nat = Some a)
  (Hb : get_ng_inputs mul_node !! 1%nat = Some b) :
  set_1_sqrt.sqrt sqrt_node = Ok [v0_Sqrt x] /\
  set_7_mul.mul mul_node = Ok [v1_Multiply a b] /\
  (forall node' : Node,
      get_ng_inputs node' !! 0%nat = Some x ->
      set_1_sqrt.sqrt node' = set_1_sqrt.sqrt sqrt_node) /\
  (forall node' : Node,
      get_ng_inputs node' !! 0%nat = Some a ->
      get_ng_inputs node' !! 1%nat = Some b ->
      set_7_mul.mul node' = set_7_mul.mul mul_node).
Proof.
  unfold set_1_sqrt.sqrt, set_7_mul.mul.
  rewrite (at_Some _ _ _ Hx), (at_Some _ _ _ Ha), (at_Some _ _ _ Hb).
  repeat split; try reflexivity.
  - intros node' Hx'. rewrite (at_Some _ _ _ Hx'). reflexivity.
  - intros node' Ha' Hb'.
    rewrite (at_Some _ _ _ Ha'), (at_Some _ _ _ Hb'). reflexivity.
Qed.

Lemma sqrt_mul_translation_witness :
  set_1_sqrt.sqrt example_unary_node = Ok [v0_Sqrt example_input] /\
  set_7_mul.mul example_binary_node
    = Ok [v1_Multiply example_input example_updates].
Proof.
  destruct (sqrt_mul_translation example_unary_node example_binary_node
              example_input example_input example_updates
              eq_refl eq_refl eq_refl) as (Hs & Hm & _).
  split; [exact Hs | exact Hm].
Defined.

(** ** scatter_nd *)

(** C4: a scatter_nd node (three inputs) fails to translate exactly when
    it carries a "reduction" attribute different from "none"; in every
    other case the translation returns exactly one output, the
    [ScatterNDUpdate] of inputs 0, 1 and 2 in that order. *)
Theorem scatter_nd_outcome (node : Node) (data indices updates : Output)
  (Hdata : get_ng_inputs node !! 0%nat = Some data)
  (Hindices : get_ng_inputs node !! 1%nat = Some indices)
  (Hupdates : get_ng_inputs node !! 2%nat = Some updates) :
  ((exists e, set_1_scatter_nd.scatter_nd node = Err e)
     <-> reduction_unsupported node) /\
  (~ reduction_unsupported node ->
     set_1_scatter_nd.scatter_nd node
       = Ok [v3_ScatterNDUpdate data indices updates]).
Proof.
  unfold set_1_scatter_nd.scatter_nd, reduction_unsupported,
    has_attribute, get_attribute_value_string_or.
  rewrite (at_Some _ _ _ Hdata), (at_Some _ _ _ Hindices),
    (at_Some _ _ _ Hupdates). simpl.
  destruct (find_attribute (attributes node) "reduction") as [v|] eqn:Hf.
  - destruct v as [i|f|s|l]; simpl.
    1,2,4: split;
      [ split; [intros _; eexists; split; [reflexivity | discriminate]
               | intros _; eexists; reflexivity]
      | intros Hn; exfalso; apply Hn; eexists; split;
        [reflexivity | discriminate] ].
    destruct (String.eqb s "none") eqn:Hs; simpl.
    + apply String.eqb_eq in Hs. subst s. split.
      * split.
        -- intros [e He]. discriminate.
        -- intros (v & Hv & Hne). congruence.
      * reflexivity.
    + apply String.eqb_neq in Hs. split.
      * split.
        -- intros _. eexists. split; [reflexivity | congruence].
        -- intros _. eexists. reflexivity.
      * intros Hn. exfalso. apply Hn. eexists. split; [reflexivity | congruence].
  - simpl. split.
    + split.
      * intros [e He]. discriminate.
      * intros (v & Hv & _). discriminate.
    + reflexivity.
Qed.

Lemma scatter_nd_outcome_witness :
  set_1_scatter_nd.scatter_nd example_scatter_node
    = Ok [v3_ScatterNDUpdate example_input example_indices example_updates] /\
  exists e, set_1_scatter_nd.scatter_nd example_scatter_add_node = Err e.
Proof.
  split.
  - apply (scatter_nd_outcome example_scatter_node
             example_input example_indices example_updates
             eq_refl eq_refl eq_refl).
    intros (v & Hv & Hne). vm_compute in Hv. congruence.
  - apply (scatter_nd_outcome example_scatter_add_node
             example_input example_indices example_updates
             eq_refl eq_refl eq_refl).
    exists (AString "add"). split; [reflexivity | discriminate].
Defined.

(** ** random_normal_like *)

Lemma float_attribute_get (node : Node) (name : string)
  (default value : spec_float) :
  float_attribute node name default value ->
  get_attribute_value_float_or node name default = Ok value.
Proof.
  unfold float_attribute, get_attribute_value_float_or.
  intros [-> | [-> ->]]; reflexivity.
Qed.

Section RandomNormalLikeProperties.
Context {rt : Runtime}.

(** C5: the random-normal constructor is called with the sizes
    [ShapeOf(input 0)], with the element type mapped from the "dtype"
    attribute when present and the element type of input 0 otherwise,
    with the attributes "mean" and "scale" (defaults 0.0 and 1.0) wrapped
    as constants of shape {1} of that type, and with the attribute "seed"
    (default 0.0); the translation returns the outputs it builds. *)
Theorem random_normal_like_arguments (node : Node) (input : Output)
  (target_type : ElementType) (seed mean scale : spec_float)
  (Hinput : get_ng_inputs node !! 0%nat = Some input)
  (Htype :
     (exists dtype, find_attribute (attributes node) "dtype" = Some (AInt dtype)
                    /\ get_ov_element_type dtype = Ok target_type) \/
     (find_attribute (attributes node) "dtype" = None
      /\ target_type = get_element_type input))
  (Hseed : float_attribute node "seed" float_zero seed)
  (Hmean : float_attribute node "mean" float_zero mean)
  (Hscale : float_attribute node "scale" float_one scale) :
  set_1_random_normal_like.random_normal_like node
  = Ok (make_random_normal (v0_ShapeOf input) target_type
          (v0_Constant target_type [1%N] (FloatData [mean]))
          (v0_Constant target_type [1%N] (FloatData [scale]))
          seed).1.
Proof.
  unfold set_1_random_normal_like.random_normal_like.
  rewrite (at_Some _ _ _ Hinput). simpl.
  assert (Ht : (if has_attribute node "dtype"
                then let* dtype := get_attribute_value_int node "dtype" in
                     get_ov_element_type dtype
                else Ok (get_element_type input)) = Ok target_type).
  { unfold has_attribute, get_attribute_value_int.
    destruct Htype as [(dtype & -> & Hd) | [-> ->]]; simpl; auto. }
  rewrite Ht. simpl.
  rewrite (float_attribute_get _ _ _ _ Hseed),
    (float_attribute_get _ _ _ _ Hmean),
    (float_attribute_get _ _ _ _ Hscale).
  reflexivity.
Qed.

End RandomNormalLikeProperties.

Lemma random_normal_like_arguments_witness :
  @set_1_random_normal_like.random_normal_like example_runtime example_random_node
  = Ok (@make_random_normal example_runtime (v0_ShapeOf example_input) f64
          (v0_Constant f64 [1%N] (FloatData [float_one]))
          (v0_Constant f64 [1%N] (FloatData [float_one]))
          float_zero).1.
Proof.
  apply (@random_normal_like_arguments example_runtime example_random_node
           example_input f64 float_zero float_one float_one).
  - reflexivity.
  - left. exists 11. split; reflexivity.
  - right. split; reflexivity.
  - left. reflexivity.
  - right. split; reflexivity.
Defined.

(** ** The two entry points of scan *)

Section ScanEntryProperties.
Context {rt : Runtime}.

(** C6: the opset-1 translation fails with an assertion when input 0
    (sequence_lens) is not null, and otherwise imports the node with
    default axis 1, input offset 1 and the directions read from
    "directions"; the opset-9 translation imports every node, without
    that check, with default axis 0, input offset 0 and the directions
    read from "scan_input_directions". *)
Theorem scan_entry_points (node : Node) (sequence_lens : Output)
  (Hlens : get_ng_inputs node !! 0%nat = Some sequence_lens) :
  (is_null sequence_lens = false ->
     exists msg, set_1_scan.scan node = Err (AssertionFailure msg)) /\
  (is_null sequence_lens = true ->
     set_1_scan.scan node = scan_detail.import_onnx_scan node 1 1 "directions") /\
  set_9_scan.scan node
  = scan_detail.import_onnx_scan node 0 0 "scan_input_directions".
Proof.
  unfold set_1_scan.scan, set_9_scan.scan.
  rewrite (at_Some _ _ _ Hlens). simpl.
  repeat split.
  - intros ->. simpl. eexists. reflexivity.
  - intros ->. reflexivity.
Qed.

End ScanEntryProperties.

Lemma scan_entry_points_witness :
  (exists msg,
      @set_1_scan.scan example_runtime example_scan8_lens_node
      = Err (AssertionFailure msg)) /\
  @set_1_scan.scan example_runtime example_scan8_node
  = @scan_detail.import_onnx_scan example_runtime example_scan8_node 1 1 "directions".
Proof.
  split.
  - apply (@scan_entry_points example_runtime example_scan8_lens_node
             example_indices eq_refl). reflexivity.
  - apply (@scan_entry_points example_runtime example_scan8_node
             NullNode eq_refl). reflexivity.
Defined.

(** ** Machine arithmetic and loops *)

Lemma in_int64_iff (z : Z) :
  in_int64 z = true <-> - 2 ^ 63 <= z <= 2 ^ 63 - 1.
Proof.
  unfold in_int64, int64_min, int64_max.
  rewrite andb_true_iff, !Z.leb_le. reflexivity.
Qed.

Lemma checked_Ok_inv (z v : Z) : checked z = Ok v -> v = z.
Proof. unfold checked. destruct (in_int64 z); congruence. Qed.

Lemma checked_Ok (z : Z) : - 2 ^ 63 <= z <= 2 ^ 63 - 1 -> checked z = Ok z.
Proof. intros H. unfold checked. apply in_int64_iff in H. rewrite H. reflexivity. Qed.

Lemma checked_Err (z : Z) (e : error) :
  checked z = Err e -> exists what, e = UndefinedBehaviour what.
Proof. unfold checked. destruct (in_int64 z); intros [= <-]; eauto. Qed.

Lemma div64_Ok_inv (a b v : Z) : div64 a b = Ok v -> b <> 0 /\ v = Z.quot a b.
Proof.
  unfold div64. destruct (Z.eqb_spec b 0) as [->|Hb]; [discriminate |].
  intros H. apply checked_Ok_inv in H. auto.
Qed.

Lemma div64_Err (a b : Z) (e : error) :
  div64 a b = Err e -> exists what, e = UndefinedBehaviour what.
Proof.
  unfold div64. destruct (b =? 0).
  - intros [= <-]. eauto.
  - apply checked_Err.
Qed.

Lemma quot_abs_le (a b : Z) : b <> 0 -> Z.abs (Z.quot a b) <= Z.abs a.
Proof.
  intros Hb. rewrite <- Z.quot_abs by assumption.
  assert (Hpos : 0 < Z.abs b) by lia.
  assert (Ha : 0 <= Z.abs a) by lia.
  assert (Hnz : Z.abs b <> 0) by lia.
  pose proof (Z.mul_quot_le (Z.abs a) (Z.abs b) Ha Hnz) as Hm.
  pose proof (Z.quot_pos (Z.abs a) (Z.abs b) Ha Hpos) as Hq.
  nia.
Qed.

Lemma quot_mul_abs_le (a b : Z) : b <> 0 -> Z.abs (Z.quot a b * b) <= Z.abs a.
Proof.
  intros Hb. rewrite Z.abs_mul, <- Z.quot_abs by assumption.
  assert (Hpos : 0 < Z.abs b) by lia.
  assert (Ha : 0 <= Z.abs a) by lia.
  assert (Hnz : Z.abs b <> 0) by lia.
  pose proof (Z.mul_quot_le (Z.abs a) (Z.abs b) Ha Hnz) as Hm.
  pose proof (Z.quot_pos (Z.abs a) (Z.abs b) Ha Hpos) as Hq.
  lia.
Qed.

Lemma div64_Ok (a b : Z) :
  b <> 0 -> - 2 ^ 63 < a <= 2 ^ 63 - 1 -> div64 a b = Ok (Z.quot a b).
Proof.
  intros Hb Ha. unfold div64.
  destruct (Z.eqb_spec b 0) as [?|_]; [contradiction |].
  apply checked_Ok. pose proof (quot_abs_le a b Hb). lia.
Qed.

Lemma elem_of_range (n i : Z) : i ∈ range n <-> 0 <= i < n.
Proof.
  unfold range. rewrite list_elem_of_fmap. split.
  - intros (k & -> & Hk). apply list_elem_of_In, in_seq in Hk. lia.
  - intros Hi. exists (Z.to_nat i). split; [lia |].
    apply list_elem_of_In, in_seq. lia.
Qed.

(** A loop whose body appends one element, a function of the counter. *)
Lemma foldM_append_inv {A B : Type} (body : A -> list B -> result (list B))
  (h : A -> B) (l : list A) :
  (forall a acc acc', a ∈ l -> body a acc = Ok acc' -> acc' = acc ++ [h a]) ->
  forall acc r, foldM body l acc = Ok r -> r = acc ++ map h l.
Proof.
  induction l as [|a l IH]; intros Hbody acc r; simpl.
  - intros [= <-]. rewrite app_nil_r. reflexivity.
  - intros H. apply bind_Ok_inv in H as (acc' & Ha & Hrest).
    apply Hbody in Ha; [| left]. subst acc'.
    apply IH in Hrest.
    + rewrite Hrest, <- app_assoc. reflexivity.
    + intros a' s s' Hin. apply Hbody. right. exact Hin.
Qed.

Lemma foldM_append_Ok {A B : Type} (body : A -> list B -> result (list B))
  (h : A -> B) (l : list A) :
  (forall a acc, a ∈ l -> body a acc = Ok (acc ++ [h a])) ->
  forall acc, foldM body l acc = Ok (acc ++ map h l).
Proof.
  induction l as [|a l IH]; intros Hbody acc; simpl.
  - rewrite app_nil_r. reflexivity.
  - rewrite Hbody by left. simpl. rewrite IH.
    + rewrite <- app_assoc. reflexivity.
    + intros a' s Hin. apply Hbody. right. exact Hin.
Qed.

(** The errors of a loop are errors of its body. *)
Lemma foldM_Err {A S : Type} (body : A -> S -> result S) (P : error -> Prop)
  (l : list A) :
  (forall a s e, body a s = Err e -> P e) ->
  forall s e, foldM body l s = Err e -> P e.
Proof.
  intros Hbody. induction l as [|a l IH]; intros s e; simpl.
  - discriminate.
  - destruct (body a s) as [s'|e'] eqn:Hb; simpl.
    + apply IH.
    + intros [= <-]. eapply Hbody, Hb.
Qed.

(** ** stft: the frames *)

Section StftProperties.
Context {rt : Runtime}.

Import set_17_stft.

Lemma is_complex_Ok_inv (o : Output) (b : bool) :
  is_complex o = Ok b -> b = innermost_is_2 o.
Proof.
  unfold is_complex, innermost_is_2.
  destruct (get_partial_shape o) as [|dims]; [congruence |].
  destruct (last dims) as [[len|]|]; congruence.
Qed.

Lemma is_complex_Ok (o : Output) :
  get_partial_shape o <> RankStatic [] ->
  is_complex o = Ok (innermost_is_2 o).
Proof.
  unfold is_complex, innermost_is_2. intros Hne.
  destruct (get_partial_shape o) as [|dims]; [reflexivity |].
  destruct (last dims) as [[len|]|] eqn:Hlast; try reflexivity.
  apply last_None in Hlast. subst dims. contradiction.
Qed.

Lemma is_complex_Err (o : Output) (e : error) :
  is_complex o = Err e -> undefined e.
Proof.
  unfold is_complex, undefined.
  destruct (get_partial_shape o) as [|dims]; [discriminate |].
  destruct (last dims) as [[len|]|]; try discriminate.
  intros [= <-]. eauto.
Qed.

Lemma is_static_rank3_inv (shape : PartialShape) :
  is_static_rank3 shape = true ->
  exists B L D, shape = RankStatic [DimStatic B; DimStatic L; DimStatic D].
Proof.
  unfold is_static_rank3. destruct shape as [|dims]; simpl.
  - discriminate.
  - rewrite andb_true_iff. intros [Hs Hl].
    apply Nat.eqb_eq in Hl.
    destruct dims as [|[B|] [|[L|] [|[D|] [|? ?]]]]; simpl in *; try discriminate.
    eauto.
Qed.

(** What one iteration of the inner loop appends. *)
Lemma stft_frame_Ok_inv (signal : Output) (window dft_length : option Output)
  (onesided frame_step frame_length batch sig_idx : Z) (acc acc' : OutputVector) :
  stft_frame signal window dft_length onesided frame_step frame_length
    batch sig_idx acc = Ok acc' ->
  acc' = acc ++
    [v0_Unsqueeze
       (frame_transform signal window dft_length onesided frame_step
          frame_length batch sig_idx)
       (v0_Constant i64 [] (IntData [0]))].
Proof.
  unfold stft_frame, add64, mul64. intros H.
  apply bind_Ok_inv in H as (start_pos & Hstart & H).
  apply checked_Ok_inv in Hstart. subst start_pos.
  apply bind_Ok_inv in H as (batch_stop & Hbs & H).
  apply checked_Ok_inv in Hbs. subst batch_stop.
  apply bind_Ok_inv in H as (stop_pos & Hsp & H).
  apply checked_Ok_inv in Hsp. subst stop_pos.
  apply bind_Ok_inv in H as (slice_complex & Hsc & H).
  apply is_complex_Ok_inv in Hsc. subst slice_complex.
  unfold frame_transform, frame_windowed, frame_flattened, frame_slice,
    Constant_create, step_const, zero_const in *.
  destruct (onesided =? 0); cbn [negb] in H;
    (destruct window as [w|];
     [ apply bind_Ok_inv in H as (dft_input & Hdi & H);
       apply bind_Ok_inv in Hdi as (flatten_complex & Hfc & Hdi);
       apply is_complex_Ok_inv in Hfc; subst flatten_complex;
       injection Hdi as <-; injection H as <-; reflexivity
     | simpl in H; injection H as <-; reflexivity ]).
Qed.

Lemma stft_frame_Err (signal : Output) (window dft_length : option Output)
  (onesided frame_step frame_length batch sig_idx : Z) (acc : OutputVector)
  (e : error) :
  stft_frame signal window dft_length onesided frame_step frame_length
    batch sig_idx acc = Err e ->
  undefined e.
Proof.
  unfold stft_frame, add64, mul64. intros H.
  destruct (checked (sig_idx * frame_step)) as [start_pos|e1] eqn:H1; simpl in H;
    [| injection H as <-; eapply checked_Err, H1].
  destruct (checked (batch + 1)) as [batch_stop|e2] eqn:H2; simpl in H;
    [| injection H as <-; eapply checked_Err, H2].
  destruct (checked (start_pos + frame_length)) as [stop_pos|e3] eqn:H3; simpl in H;
    [| injection H as <-; eapply checked_Err, H3].
  match type of H with
  | bind (is_complex ?s) _ = _ =>
      destruct (is_complex s) as [sc|e4] eqn:H4; simpl in H;
        [| injection H as <-; eapply is_complex_Err, H4]
  end.
  destruct window as [w|]; simpl in H; [| discriminate].
  match type of H with
  | bind (bind (is_complex ?s) _) _ = _ =>
      destruct (is_complex s) as [fc|e5] eqn:H5; simpl in H;
        [discriminate | injection H as <-; eapply is_complex_Err, H5]
  end.
Qed.

Lemma stft_batch_Ok_inv (signal : Output) (window dft_length : option Output)
  (onesided frame_step frame_length nstfts batch : Z) (acc acc' : OutputVector) :
  stft_batch signal window dft_length onesided frame_step frame_length nstfts
    batch acc = Ok acc' ->
  acc' = acc ++
    [v0_Unsqueeze
       (v0_Concat
          (map (fun sig_idx =>
                  v0_Unsqueeze
                    (frame_transform signal window dft_length onesided
                       frame_step frame_length batch sig_idx)
                    (v0_Constant i64 [] (IntData [0])))
             (range nstfts))
          0)
       (v0_Constant i64 [] (IntData [0]))].
Proof.
  unfold stft_batch, for_loop. intros H.
  apply bind_Ok_inv in H as (frames & Hframes & H). injection H as <-.
  apply (foldM_append_inv _
           (fun sig_idx =>
              v0_Unsqueeze
                (frame_transform signal window dft_length onesided
                   frame_step frame_length batch sig_idx)
                (v0_Constant i64 [] (IntData [0])))) in Hframes.
  - simpl in Hframes. subst frames. reflexivity.
  - intros sig_idx s s' _ Hs. apply stft_frame_Ok_inv in Hs. exact Hs.
Qed.

Lemma stft_batch_Err (signal : Output) (window dft_length : option Output)
  (onesided frame_step frame_length nstfts batch : Z) (acc : OutputVector)
  (e : error) :
  stft_batch signal window dft_length onesided frame_step frame_length nstfts
    batch acc = Err e ->
  undefined e.
Proof.
  unfold stft_batch, for_loop. intros H.
  match type of H with
  | bind ?loop _ = _ => destruct loop as [frames|e1] eqn:Hl; simpl in H
  end; [discriminate |].
  injection H as <-.
  eapply (foldM_Err _ undefined) in Hl; [exact Hl |].
  intros a s e0. apply stft_frame_Err.
Qed.

End StftProperties.

Lemma at_Ok_inv {A : Type} (v : list A) (i : nat) (a : A) :
  at_ v i = Ok a -> v !! i = Some a.
Proof. unfold at_. destruct (v !! i); congruence. Qed.

Lemma CHECK_VALID_NODE_Ok_inv (cond : bool) (msg : string) (u : unit) :
  CHECK_VALID_NODE cond msg = Ok u -> cond = true.
Proof. unfold CHECK_VALID_NODE. destruct cond; congruence. Qed.

Section StftFrames.
Context {rt : Runtime}.

Import set_17_stft.

Lemma dim_length_rank3 (B L D : Z) :
  dim_length (RankStatic [DimStatic B; DimStatic L; DimStatic D]) 0 = Ok B /\
  dim_length (RankStatic [DimStatic B; DimStatic L; DimStatic D]) 1 = Ok L.
Proof. split; reflexivity. Qed.

(** The loop over the batch elements builds the operands of the outer
    concatenation. *)
Lemma stft_batches_Ok_inv (signal : Output) (window dft_length : option Output)
  (onesided frame_step frame_length nstfts batch_size : Z)
  (all_signals : OutputVector) :
  for_loop batch_size
    (stft_batch signal window dft_length onesided frame_step frame_length nstfts)
    [] = Ok all_signals ->
  [v0_Concat all_signals 0]
  = [stft_graph signal window dft_length onesided frame_step frame_length
       batch_size nstfts].
Proof.
  unfold for_loop. intros H.
  apply (foldM_append_inv _
           (fun b =>
              v0_Unsqueeze
                (v0_Concat
                   (map (fun sig_idx =>
                           v0_Unsqueeze
                             (frame_transform signal window dft_length onesided
                                frame_step frame_length b sig_idx)
                             (v0_Constant i64 [] (IntData [0])))
                      (range nstfts))
                   0)
                (v0_Constant i64 [] (IntData [0])))) in H.
  - simpl in H. subst all_signals. reflexivity.
  - intros b s s' _ Hs. apply stft_batch_Ok_inv in Hs. exact Hs.
Qed.

(** C1: a node that passes validation is translated to a single output,
    the concatenation over the batch elements [b] of the concatenation
    over the frames [sig_idx = 0 .. nstfts - 1] of the transforms of the
    frames, where the frame length is the value of the constant
    dft_length input when provided and the length of axis 1 of the signal
    divided by the frame step otherwise, where
    [nstfts = (length of axis 1 - frame_length) / frame_step + 1], and
    where frame [sig_idx] of batch element [b] is the slice of the signal
    from [(b, sig_idx * frame_step)] to
    [(b + 1, sig_idx * frame_step + frame_length)] on the axes 0 and 1,
    flattened, multiplied by the window when one is provided, and passed
    to the DFT constructor. *)
Theorem stft_frames (node : Node) (outs : OutputVector)
  (Hpass : stft node = Ok outs) :
  exists (signal frame_step_node : Output) (frame_step B L D onesided frame_length : Z),
    get_ng_inputs node !! 0%nat = Some signal /\
    get_ng_inputs node !! 1%nat = Some frame_step_node /\
    constant_value0 frame_step_node = Ok frame_step /\
    get_partial_shape signal
      = RankStatic [DimStatic B; DimStatic L; DimStatic D] /\
    get_attribute_value_int_or node "onesided" 1 = Ok onesided /\
    match provided (get_ng_inputs node) 3 with
    | Some l => constant_value0 l = Ok frame_length
    | None => frame_length = Z.quot L frame_step
    end /\
    outs = [stft_graph signal
              (provided (get_ng_inputs node) 2)
              (provided (get_ng_inputs node) 3)
              onesided frame_step frame_length B
              (Z.quot (L - frame_length) frame_step + 1)].
Proof.
  unfold stft in Hpass.
  apply bind_Ok_inv in Hpass as (signal & Hsignal & H).
  apply at_Ok_inv in Hsignal.
  apply bind_Ok_inv in H as (onesided & Honesided & H).
  apply bind_Ok_inv in H as (frame_step_node & Hstep & H).
  apply at_Ok_inv in Hstep.
  apply bind_Ok_inv in H as (u1 & _ & H).
  apply bind_Ok_inv in H as (frame_step & Hfs & H).
  apply bind_Ok_inv in H as (u2 & Hrank3 & H).
  apply CHECK_VALID_NODE_Ok_inv, is_static_rank3_inv in Hrank3
    as (B & L & D & Hshape).
  rewrite Hshape in H.
  destruct (dim_length_rank3 B L D) as [HB HL]. rewrite HL in H.
  apply bind_Ok_inv in H as (signal_length & [= <-] & H).
  apply bind_Ok_inv in H as (default_frame_length & Hdefault & H).
  apply div64_Ok_inv in Hdefault as [_ ->].
  apply bind_Ok_inv in H as (frame_length & Hfl & H).
  unfold stft_construct in H. rewrite Hshape, HL, HB in H.
  apply bind_Ok_inv in H as (u3 & _ & H).
  apply bind_Ok_inv in H as (u4 & _ & H).
  apply bind_Ok_inv in H as (batch_size & [= <-] & H).
  apply bind_Ok_inv in H as (signal_length' & [= <-] & H).
  apply bind_Ok_inv in H as (remaining & Hrem & H).
  apply checked_Ok_inv in Hrem. subst remaining.
  apply bind_Ok_inv in H as (quotient & Hq & H).
  apply div64_Ok_inv in Hq as [_ ->].
  apply bind_Ok_inv in H as (nstfts & Hn & H).
  apply checked_Ok_inv in Hn. subst nstfts.
  apply bind_Ok_inv in H as (all_signals & Hall & H).
  injection H as <-.
  exists signal, frame_step_node, frame_step, B, L, D, onesided, frame_length.
  repeat split; try assumption.
  - destruct (provided (get_ng_inputs node) 3) as [l|].
    + apply bind_Ok_inv in Hfl as (u & _ & Hfl). exact Hfl.
    + injection Hfl as <-. reflexivity.
  - apply stft_batches_Ok_inv. exact Hall.
Qed.

End StftFrames.

Lemma stft_frames_witness :
  exists (signal frame_step_node : Output) (frame_step B L D onesided frame_length : Z),
    get_ng_inputs example_stft_node !! 0%nat = Some signal /\
    get_ng_inputs example_stft_node !! 1%nat = Some frame_step_node /\
    @set_17_stft.constant_value0 example_runtime frame_step_node = Ok frame_step /\
    @get_partial_shape example_runtime signal
      = RankStatic [DimStatic B; DimStatic L; DimStatic D] /\
    get_attribute_value_int_or example_stft_node "onesided" 1 = Ok onesided /\
    match set_17_stft.provided (get_ng_inputs example_stft_node) 3 with
    | Some l => @set_17_stft.constant_value0 example_runtime l = Ok frame_length
    | None => frame_length = Z.quot L frame_step
    end /\
    [@stft_graph example_runtime example_signal None None 1 4 2 1 2]
    = [@stft_graph example_runtime signal
         (set_17_stft.provided (get_ng_inputs example_stft_node) 2)
         (set_17_stft.provided (get_ng_inputs example_stft_node) 3)
         onesided frame_step frame_length B
         (Z.quot (L - frame_length) frame_step + 1)].
Proof.
  apply (@stft_frames example_runtime example_stft_node
           [@stft_graph example_runtime example_signal None None 1 4 2 1 2]).
  vm_compute. reflexivity.
Defined.

(** ** stft: validation *)

Section StftValidation.
Context {rt : Runtime}.

Import set_17_stft.

(** C10, the code at a frame step of 0: the node passes the check of the
    frame_step input, and the division that computes the default frame
    length divides by zero. *)
Theorem stft_zero_frame_step (node : Node) (signal frame_step_node : Output)
  (onesided : Z)
  (Hsignal : get_ng_inputs node !! 0%nat = Some signal)
  (Hstep : get_ng_inputs node !! 1%nat = Some frame_step_node)
  (Honesided : get_attribute_value_int_or node "onesided" 1 = Ok onesided)
  (Hcheck : is_scalar_constant frame_step_node = true)
  (Hzero : constant_value0 frame_step_node = Ok 0)
  (Hshape : is_static_rank3 (get_partial_shape signal) = true) :
  CHECK_VALID_NODE (is_scalar_constant frame_step_node)
    "frame_step input must be a scalar or Shape{1} constant." = Ok tt /\
  stft node = Err (UndefinedBehaviour "division by zero").
Proof.
  split; [rewrite Hcheck; reflexivity |].
  unfold stft.
  rewrite (at_Some _ _ _ Hsignal), (at_Some _ _ _ Hstep). simpl.
  rewrite Honesided, Hcheck. simpl. rewrite Hzero, Hshape. simpl.
  apply is_static_rank3_inv in Hshape as (B & L & D & ->).
  reflexivity.
Qed.

Lemma check_window_outcome (window : option Output) (frame_length : Z) :
  (check_window window frame_length = Ok tt /\
   ~ window_rank_mismatch window /\
   ~ window_length_mismatch window frame_length) \/
  (exists msg, check_window window frame_length = Err (ValidationError msg)) /\
  (window_rank_mismatch window \/ window_length_mismatch window frame_length).
Proof.
  unfold check_window, window_rank_mismatch, window_length_mismatch.
  destruct window as [w|].
  2:{ left. repeat split; [intros (? & ? & ? & _) | intros (? & ? & ? & ? & _)];
      discriminate. }
  destruct (get_partial_shape w) as [|dims] eqn:Hw.
  { left. repeat split;
      [intros (? & ? & [= <-] & ? & _) | intros (? & ? & ? & [= <-] & ? & _)];
      congruence. }
  destruct (Nat.eqb_spec (length dims) 1) as [Hlen|Hlen]; simpl.
  - destruct (dims !! 0%nat) as [[len|]|] eqn:Hd.
    + destruct (Z.eqb_spec len frame_length) as [Heq|Hne]; simpl.
      * left. repeat split.
        -- intros (w' & dims' & [= <-] & Hw' & Hl). congruence.
        -- intros (w' & dims' & len' & [= <-] & Hw' & Hd' & Hne). congruence.
      * right. split; [eexists; reflexivity |].
        right. exists w, dims, len. auto.
    + left. repeat split.
      * intros (w' & dims' & [= <-] & Hw' & Hl). congruence.
      * intros (w' & dims' & len' & [= <-] & Hw' & Hd' & Hne). congruence.
    + left. repeat split.
      * intros (w' & dims' & [= <-] & Hw' & Hl). congruence.
      * intros (w' & dims' & len' & [= <-] & Hw' & Hd' & Hne). congruence.
  - right. split; [eexists; reflexivity |].
    left. exists w, dims. auto.
Qed.

(** A frame and a batch element are built without overflow when the
    positions of the frames stay in range. *)
Lemma stft_frame_Ok (signal : Output) (window dft_length : option Output)
  (onesided frame_step frame_length batch sig_idx : Z) (acc : OutputVector) :
  - 2 ^ 63 <= sig_idx * frame_step <= 2 ^ 63 - 1 ->
  - 2 ^ 63 <= batch + 1 <= 2 ^ 63 - 1 ->
  - 2 ^ 63 <= sig_idx * frame_step + frame_length <= 2 ^ 63 - 1 ->
  slices_have_dimensions signal ->
  reshapes_have_dimensions signal ->
  stft_frame signal window dft_length onesided frame_step frame_length
    batch sig_idx acc
  = Ok (acc ++
        [v0_Unsqueeze
           (frame_transform signal window dft_length onesided frame_step
              frame_length batch sig_idx)
           (v0_Constant i64 [] (IntData [0]))]).
Proof.
  intros H1 H2 H3 Hslice Hreshape.
  destruct (stft_frame signal window dft_length onesided frame_step
              frame_length batch sig_idx acc) as [acc'|e] eqn:Hf.
  - apply stft_frame_Ok_inv in Hf. subst acc'. reflexivity.
  - exfalso. revert Hf. unfold stft_frame, add64, mul64.
    rewrite (checked_Ok _ H1). simpl.
    rewrite (checked_Ok _ H2). simpl.
    rewrite (checked_Ok _ H3). simpl.
    rewrite is_complex_Ok by apply Hslice.
    simpl. destruct window as [w|]; simpl; [| discriminate].
    rewrite is_complex_Ok.
    2:{ apply Hreshape. unfold stft_patterns.
        repeat match goal with
               | |- context [if ?b then _ else _] => destruct b
               end;
          repeat first [ apply list_elem_of_here | apply list_elem_of_further ]. }
    simpl. discriminate.
Qed.

End StftValidation.

Lemma frame_position_bound (a step i : Z) :
  step <> 0 -> 0 <= i < Z.quot a step + 1 -> Z.abs (i * step) <= Z.abs a.
Proof.
  intros Hstep Hi. pose proof (quot_mul_abs_le a step Hstep) as Hq.
  set (q := Z.quot a step) in *.
  rewrite Z.abs_mul in *.
  assert (Hiq : Z.abs i * Z.abs step <= Z.abs q * Z.abs step).
  { apply Z.mul_le_mono_nonneg_r; lia. }
  lia.
Qed.

Section StftOutcome.
Context {rt : Runtime}.

Import set_17_stft.

Lemma stft_batches_Err (signal : Output) (window dft_length : option Output)
  (onesided frame_step frame_length nstfts batch_size : Z) (e : error) :
  for_loop batch_size
    (stft_batch signal window dft_length onesided frame_step frame_length nstfts)
    [] = Err e ->
  undefined e.
Proof.
  unfold for_loop. apply (foldM_Err _ undefined).
  intros b s e0. apply stft_batch_Err.
Qed.

Lemma stft_batches_Ok (signal : Output) (window dft_length : option Output)
  (onesided frame_step frame_length batch_size L : Z) :
  frame_step <> 0 ->
  0 <= batch_size < 2 ^ 61 ->
  0 <= L < 2 ^ 61 ->
  Z.abs frame_length < 2 ^ 61 ->
  slices_have_dimensions signal ->
  reshapes_have_dimensions signal ->
  exists all_signals,
    for_loop batch_size
      (stft_batch signal window dft_length onesided frame_step frame_length
         (Z.quot (L - frame_length) frame_step + 1))
      [] = Ok all_signals.
Proof.
  intros Hstep HB HL Hfl Hslice Hreshape. unfold for_loop.
  eexists. apply foldM_append_Ok with
    (h := fun b =>
            v0_Unsqueeze
              (v0_Concat
                 (map (fun sig_idx =>
                         v0_Unsqueeze
                           (frame_transform signal window dft_length onesided
                              frame_step frame_length b sig_idx)
                           (v0_Constant i64 [] (IntData [0])))
                    (range (Z.quot (L - frame_length) frame_step + 1)))
                 0)
              (v0_Constant i64 [] (IntData [0]))).
  intros b acc Hb. apply elem_of_range in Hb.
  unfold stft_batch, for_loop.
  rewrite foldM_append_Ok with
    (h := fun sig_idx =>
            v0_Unsqueeze
              (frame_transform signal window dft_length onesided
                 frame_step frame_length b sig_idx)
              (v0_Constant i64 [] (IntData [0]))).
  - reflexivity.
  - intros sig_idx s Hi. apply elem_of_range in Hi.
    pose proof (frame_position_bound (L - frame_length) frame_step sig_idx
                  Hstep Hi) as Hpos.
    apply stft_frame_Ok.
    + lia.
    + lia.
    + lia.
    + exact Hslice.
    + exact Hreshape.
Qed.

Lemma innermost_rank3 (signal : Output) (B L D : Z) :
  get_partial_shape signal = RankStatic [DimStatic B; DimStatic L; DimStatic D] ->
  is_complex signal = Ok (innermost_is_2 signal).
Proof. intros H. apply is_complex_Ok. rewrite H. discriminate. Qed.

(** The outcome of the checks and of the construction that follow the
    computation of the frame length. *)
Lemma stft_construct_outcome (ng_inputs : OutputVector) (signal : Output)
  (dft_length : option Output) (onesided frame_step frame_length B L D : Z) :
  get_partial_shape signal = RankStatic [DimStatic B; DimStatic L; DimStatic D] ->
  frame_step <> 0 ->
  0 <= B < 2 ^ 61 ->
  0 <= L < 2 ^ 61 ->
  let window := provided ng_inputs 2 in
  let late_rejection :=
    window_rank_mismatch window \/
    window_length_mismatch window frame_length \/
    onesided_complex signal onesided in
  ((exists msg,
       stft_construct ng_inputs signal dft_length onesided frame_step frame_length
       = Err (ValidationError msg)) <-> late_rejection) /\
  (~ late_rejection ->
   Z.abs frame_length < 2 ^ 61 ->
   slices_have_dimensions signal ->
   reshapes_have_dimensions signal ->
   exists out,
     stft_construct ng_inputs signal dft_length onesided frame_step frame_length
     = Ok [out]).
Proof.
  intros Hshape Hstep HB HL window late_rejection.
  unfold stft_construct. fold window.
  destruct (check_window_outcome window frame_length)
    as [(Hw & Hn1 & Hn2) | ((msg & Hw) & Hor)]; rewrite Hw; simpl.
  2:{ split; [split; [intros _ | intros _; eauto] |]; unfold late_rejection.
      - tauto.
      - intros Hn. exfalso. apply Hn. tauto. }
  assert (Honesided :
    ((if onesided =? 1
      then let* signal_complex := is_complex signal in
           CHECK_VALID_NODE (negb signal_complex)
             "If attribute onesided==1, signal input can NOT be complex."
      else Ok tt) = Ok tt /\ ~ onesided_complex signal onesided) \/
    ((exists msg,
        (if onesided =? 1
         then let* signal_complex := is_complex signal in
              CHECK_VALID_NODE (negb signal_complex)
                "If attribute onesided==1, signal input can NOT be complex."
         else Ok tt) = Err (ValidationError msg)) /\
     onesided_complex signal onesided)).
  { unfold onesided_complex.
    destruct (Z.eqb_spec onesided 1) as [->|Hne].
    - rewrite (innermost_rank3 _ _ _ _ Hshape). simpl.
      destruct (innermost_is_2 signal); simpl.
      + right. split; [eexists; reflexivity | auto].
      + left. split; [reflexivity | intros [_ ?]; discriminate].
    - left. split; [reflexivity | intros [? _]; contradiction]. }
  destruct Honesided as [[Ho Hn3] | [(msg & Ho) Hc]]; rewrite Ho; simpl.
  2:{ split; [split; [intros _ | intros _; eauto] |]; unfold late_rejection.
      - tauto.
      - intros Hn. exfalso. apply Hn. tauto. }
  rewrite Hshape. simpl.
  assert (Hnone : ~ late_rejection) by (unfold late_rejection; tauto).
  split.
  - split; [| intros Hl; contradiction].
    intros [msg Hv]. exfalso. revert Hv. unfold sub64, add64.
    destruct (checked (L - frame_length)) as [remaining|e] eqn:H1; simpl.
    2:{ intros [= ->]. apply checked_Err in H1 as [? ?]. discriminate. }
    destruct (div64 remaining frame_step) as [quotient|e] eqn:H2; simpl.
    2:{ intros [= ->]. apply div64_Err in H2 as [? ?]. discriminate. }
    destruct (checked (quotient + 1)) as [nstfts|e] eqn:H3; simpl.
    2:{ intros [= ->]. apply checked_Err in H3 as [? ?]. discriminate. }
    match goal with
    | |- bind ?loop _ = _ -> _ => destruct loop as [all|e] eqn:H4; simpl
    end; [discriminate |].
    intros [= ->]. apply stft_batches_Err in H4 as [? ?]. discriminate.
  - intros _ Hfl Hslice Hreshape. unfold sub64, add64.
    rewrite checked_Ok by lia. simpl.
    rewrite div64_Ok by (try assumption; lia). simpl.
    pose proof (quot_abs_le (L - frame_length) frame_step Hstep) as Hq.
    rewrite checked_Ok by lia. simpl.
    destruct (stft_batches_Ok signal window dft_length onesided frame_step
                frame_length B L Hstep HB HL Hfl Hslice Hreshape)
      as [all Hall].
    rewrite Hall. simpl. eauto.
Qed.

(** C3, as the code has it: for a node with a signal and a frame_step
    input, whose onesided attribute is absent or an integer, whose
    frame_step and dft_length constants hold a value, the frame step not
    being 0, and whose signal has static dimensions below 2^61, the
    translation fails with a validation error exactly when the frame_step
    input is not a constant of at most one element, or the shape of the
    signal is not static of rank 3, or a provided dft_length input is not
    a constant of at most one element, or a provided window has a static
    rank other than 1 or a static length other than the frame length, or
    onesided is 1 and the signal is complex; in every other case, when the
    frame length is below 2^61 in absolute value and the shapes the
    runtime infers for the slices of the signal and for their reshapes by
    the three patterns of stft have at least one dimension, it produces
    one output. *)
Theorem stft_validation_outcome (node : Node) (signal frame_step_node : Output)
  (onesided : Z)
  (Hsignal : get_ng_inputs node !! 0%nat = Some signal)
  (Hstep : get_ng_inputs node !! 1%nat = Some frame_step_node)
  (Honesided : get_attribute_value_int_or node "onesided" 1 = Ok onesided)
  (Hstep_value :
     is_scalar_constant frame_step_node = true ->
     exists v, constant_value0 frame_step_node = Ok v /\ v <> 0)
  (Hlength_value :
     forall l, provided (get_ng_inputs node) 3 = Some l ->
               is_scalar_constant l = true ->
               exists v, constant_value0 l = Ok v)
  (Hdims : static_dims_below (2 ^ 61) (get_partial_shape signal)) :
  let window := provided (get_ng_inputs node) 2 in
  let dft_length := provided (get_ng_inputs node) 3 in
  let frame_length := stft_frame_length signal frame_step_node dft_length in
  ((exists msg, stft node = Err (ValidationError msg))
   <-> stft_rejected signal frame_step_node window dft_length onesided
         frame_length) /\
  (~ stft_rejected signal frame_step_node window dft_length onesided
       frame_length ->
   Z.abs frame_length < 2 ^ 61 ->
   slices_have_dimensions signal ->
   reshapes_have_dimensions signal ->
   exists out, stft node = Ok [out]).
Proof.
  intros window dft_length frame_length.
  unfold stft_rejected, stft.
  rewrite (at_Some _ _ _ Hsignal), (at_Some _ _ _ Hstep). simpl.
  rewrite Honesided. simpl.
  destruct (is_scalar_constant frame_step_node) eqn:Hc1; simpl.
  2:{ split; [split; [intros _; auto | intros _; eauto] |].
      intros Hn. exfalso. apply Hn. auto. }
  destruct (Hstep_value eq_refl) as (step & Hv & Hnz). rewrite Hv. simpl.
  destruct (is_static_rank3 (get_partial_shape signal)) eqn:Hc2; simpl.
  2:{ split; [split; [intros _; auto | intros _; eauto] |].
      intros Hn. exfalso. apply Hn. auto. }
  apply is_static_rank3_inv in Hc2 as (B & L & D & Hshape).
  rewrite Hshape in Hdims. simpl in Hdims.
  apply Forall_cons in Hdims as [HB Hdims].
  apply Forall_cons in Hdims as [HL _].
  rewrite Hshape. simpl.
  rewrite div64_Ok by (try assumption; lia). simpl.
  subst window dft_length frame_length.
  unfold stft_frame_length, int64_value0, axis_length.
  rewrite Hv, Hshape. simpl.
  destruct (provided (get_ng_inputs node) 3) as [l|] eqn:Hd.
  - destruct (is_scalar_constant l) eqn:Hc3; simpl.
    2:{ split; [split; [intros _ | intros _; eauto] |].
        - right. right. left. eauto.
        - intros Hn. exfalso. apply Hn. right. right. left. eauto. }
    destruct (Hlength_value l eq_refl Hc3) as (v & Hlv). rewrite Hlv.
    destruct (stft_construct_outcome (get_ng_inputs node) signal (Some l)
                onesided step v B L D Hshape Hnz HB HL) as [Hiff Hok].
    split.
    + rewrite Hiff. split; [tauto |].
      intros [? | [? | [(l' & [= <-] & ?) | ?]]]; try congruence; try assumption.
    + intros Hn. apply Hok. tauto.
  - destruct (stft_construct_outcome (get_ng_inputs node) signal None
                onesided step (Z.quot L step) B L D Hshape Hnz HB HL)
      as [Hiff Hok].
    split.
    + rewrite Hiff. split; [tauto |].
      intros [? | [? | [(l' & ? & ?) | ?]]]; try congruence; try assumption.
    + intros Hn. apply Hok. tauto.
Qed.

End StftOutcome.

Lemma stft_zero_frame_step_witness :
  CHECK_VALID_NODE
    (@set_17_stft.is_scalar_constant (example_frame_step 0))
    "frame_step input must be a scalar or Shape{1} constant." = Ok tt /\
  @set_17_stft.stft example_runtime example_stft_zero_step_node
  = Err (UndefinedBehaviour "division by zero").
Proof.
  apply (@stft_zero_frame_step example_runtime example_stft_zero_step_node
           example_signal (example_frame_step 0) 1);
    reflexivity.
Defined.

(** C3 as stated fails: a node whose dft_length input is not a constant
    is rejected with a validation error, and none of the five listed
    conditions holds of it. *)
Lemma stft_listed_failures_incomplete :
  (exists msg,
      @set_17_stft.stft example_runtime example_stft_dft_length_node
      = Err (ValidationError msg)) /\
  forall frame_length,
    ~ @listed_stft_failure example_runtime example_signal (example_frame_step 4)
        (set_17_stft.provided (get_ng_inputs example_stft_dft_length_node) 2)
        1 frame_length.
Proof.
  split.
  - eexists. vm_compute. reflexivity.
  - intros frame_length [Ha | [Hb | [Hc | [Hd | He]]]].
    + apply Ha. exists i64, [], (IntData [4]). split; [reflexivity | left; reflexivity].
    + vm_compute in Hb. discriminate.
    + destruct Hc as (w & dims & Hw & _). vm_compute in Hw. discriminate.
    + destruct Hd as (w & dims & len & Hw & _). vm_compute in Hw. discriminate.
    + destruct He as [_ He]. vm_compute in He. discriminate.
Qed.

Lemma stft_validation_outcome_witness :
  exists out,
    @set_17_stft.stft example_ranked_runtime example_stft_window_node = Ok [out].
Proof.
  assert (Hvalue :
    @set_17_stft.is_scalar_constant (example_frame_step 4) = true ->
    exists v, @set_17_stft.constant_value0 example_ranked_runtime
                (example_frame_step 4) = Ok v /\ v <> 0).
  { intros _. exists 4. split; [reflexivity | discriminate]. }
  assert (Hlength :
    forall l,
      set_17_stft.provided (get_ng_inputs example_stft_window_node) 3 = Some l ->
      set_17_stft.is_scalar_constant l = true ->
      exists v, @set_17_stft.constant_value0 example_ranked_runtime l = Ok v).
  { intros l Hl. vm_compute in Hl. discriminate. }
  assert (Hdims :
    static_dims_below (2 ^ 61)
      (@get_partial_shape example_ranked_runtime example_signal)).
  { simpl. repeat constructor; lia. }
  destruct (@stft_validation_outcome example_ranked_runtime
              example_stft_window_node example_signal (example_frame_step 4) 1
              eq_refl eq_refl eq_refl Hvalue Hlength Hdims) as [_ Hok].
  apply Hok.
  - intros [Ha | [Hb | [Hc | [Hd | [He | Hf]]]]].
    + vm_compute in Ha. discriminate.
    + vm_compute in Hb. discriminate.
    + destruct Hc as (l & Hl & _). vm_compute in Hl. discriminate.
    + destruct Hd as (w & dims & Hw & Hshape & Hrank).
      vm_compute in Hw. injection Hw as <-.
      simpl in Hshape. injection Hshape as <-. apply Hrank. reflexivity.
    + destruct He as (w & dims & len & Hw & Hshape & Hlen & Hne).
      vm_compute in Hw. injection Hw as <-.
      simpl in Hshape. injection Hshape as <-.
      simpl in Hlen. injection Hlen as <-. apply Hne. reflexivity.
    + destruct Hf as [_ Hf]. vm_compute in Hf. discriminate.
  - vm_compute. reflexivity.
  - intros start stop step axes. simpl. discriminate.
  - intros start stop step axes pattern Hpattern.
    unfold stft_patterns in Hpattern.
    repeat (apply elem_of_cons in Hpattern as [-> | Hpattern];
            [simpl; discriminate |]).
    inversion Hpattern.
Defined.

(** ** Loops with an invariant, vectors *)

Lemma foldM_seq_invariant {St : Type} (P : Z -> St -> Prop)
  (body : Z -> St -> result St) (m a : nat) (s0 s : St) :
  P (Z.of_nat a) s0 ->
  (forall i s1 s2,
      Z.of_nat a <= i < Z.of_nat (a + m) ->
      P i s1 -> body i s1 = Ok s2 -> P (i + 1) s2) ->
  foldM body (map Z.of_nat (seq a m)) s0 = Ok s ->
  P (Z.of_nat (a + m)) s.
Proof.
  revert a s0. induction m as [|m IH]; intros a s0 H0 Hstep Hrun; simpl in Hrun.
  - injection Hrun as <-. rewrite Nat.add_0_r. exact H0.
  - apply bind_Ok_inv in Hrun as (s1 & Hbody & Hrest).
    replace (a + S m)%nat with (S a + m)%nat by lia.
    apply (IH (S a) s1).
    + replace (Z.of_nat (S a)) with (Z.of_nat a + 1) by lia.
      apply (Hstep _ s0); [lia | assumption | assumption].
    + intros i s2 s3 Hi. apply Hstep. lia.
    + exact Hrest.
Qed.

(** The rule of a counting loop: an invariant that holds at the start and
    is kept by every iteration that ends normally holds at the end. *)
Lemma for_loop_invariant {St : Type} (P : Z -> St -> Prop) (n : Z)
  (body : Z -> St -> result St) (s0 s : St) :
  P 0 s0 ->
  (forall i s1 s2, 0 <= i < n -> P i s1 -> body i s1 = Ok s2 -> P (i + 1) s2) ->
  for_loop n body s0 = Ok s ->
  P (Z.max 0 n) s.
Proof.
  intros H0 Hstep Hrun. unfold for_loop, range in Hrun.
  replace (Z.max 0 n) with (Z.of_nat (0 + Z.to_nat n)) by lia.
  apply (foldM_seq_invariant P body (Z.to_nat n) 0 s0 s).
  - exact H0.
  - intros i s1 s2 Hi. apply Hstep. lia.
  - exact Hrun.
Qed.

(** Every iteration of a loop that ends normally ends normally. *)
Lemma for_loop_iteration {St : Type} (n : Z) (body : Z -> St -> result St)
  (s0 s : St) (i : Z) :
  for_loop n body s0 = Ok s -> 0 <= i < n ->
  exists s1 s2, body i s1 = Ok s2.
Proof.
  intros Hrun Hi.
  pose proof (for_loop_invariant
                (fun k _ => i < k -> exists s1 s2, body i s1 = Ok s2)
                n body s0 s) as Hinv.
  simpl in Hinv. apply Hinv; [lia | | assumption | lia].
  intros k s1 s2 Hk IHk Hbody Hlt.
  destruct (Z.eq_dec i k) as [->|Hne]; [eauto | apply IHk; lia].
Qed.

Lemma index_Ok_inv {A : Type} (v : list A) (i : Z) (a : A) :
  index v i = Ok a -> 0 <= i /\ v !! Z.to_nat i = Some a.
Proof.
  unfold index. destruct (Z.ltb_spec i 0); [discriminate |].
  destruct (v !! Z.to_nat i) eqn:Hl; [| discriminate].
  intros [= <-]. split; [lia | reflexivity].
Qed.

Lemma index_Ok_lt {A : Type} (v : list A) (i : Z) (a : A) :
  index v i = Ok a -> 0 <= i < Z.of_nat (length v).
Proof.
  intros H. apply index_Ok_inv in H as [H0 Hl].
  apply lookup_lt_Some in Hl. lia.
Qed.

Lemma size_wrap_small (z : Z) : 0 <= z < 2 ^ 64 -> size_wrap z = z.
Proof. intros H. unfold size_wrap. apply Z.mod_small. exact H. Qed.

(** ** Rewiring the consumers of an output *)

Lemma insert_middle {A : Type} (l1 l2 : list A) (x y : A) :
  <[length l1 := y]> (l1 ++ x :: l2) = l1 ++ y :: l2.
Proof.
  rewrite insert_app_r_alt by lia. rewrite Nat.sub_diag. reflexivity.
Qed.

Lemma replace_positions (o new_source : Src) (op : BodyOp)
  (pre tail : BodyStore) (args done : list Src) :
  fold_left (fun s input => replace_source_output s input new_source)
    (map (fun k => (length pre, k)) (arg_positions o args (length done)))
    (pre ++ mkBodyNode op (done ++ args) :: tail)
  = pre ++ mkBodyNode op
             (done ++ map (fun a => if decide (a = o) then new_source else a) args)
           :: tail.
Proof.
  revert done. induction args as [|a args IH]; intros done; simpl.
  - reflexivity.
  - destruct (decide (a = o)) as [->|Hne]; simpl.
    + assert (Hr :
        replace_source_output
          (pre ++ mkBodyNode op (done ++ o :: args) :: tail)
          (length pre, length done) new_source
        = pre ++ mkBodyNode op (done ++ new_source :: args) :: tail).
      { unfold replace_source_output. cbn [fst snd].
        rewrite list_lookup_middle by reflexivity.
        cbn [node_op node_args].
        rewrite !insert_middle. reflexivity. }
      rewrite Hr. clear Hr.
      specialize (IH (done ++ [new_source])).
      rewrite length_app in IH. simpl in IH.
      rewrite Nat.add_1_r in IH.
      rewrite <- !app_assoc in IH. simpl in IH. exact IH.
    + specialize (IH (done ++ [a])).
      rewrite length_app in IH. simpl in IH.
      rewrite Nat.add_1_r in IH.
      rewrite <- !app_assoc in IH. simpl in IH. exact IH.
Qed.

Lemma replace_target_inputs (o new_source : Src) (nodes pre post : BodyStore) :
  fold_left (fun s input => replace_source_output s input new_source)
    (target_inputs_from o nodes (length pre))
    (pre ++ nodes ++ post)
  = pre ++ map (rewire o new_source) nodes ++ post.
Proof.
  revert pre. induction nodes as [|[op args] nodes IH]; intros pre; simpl.
  - reflexivity.
  - rewrite fold_left_app.
    pose proof (replace_positions o new_source op pre (nodes ++ post) args [])
      as Hn.
    simpl in Hn. rewrite Hn. clear Hn.
    specialize (IH (pre ++ [rewire o new_source (mkBodyNode op args)])).
    rewrite length_app in IH. simpl in IH. rewrite Nat.add_1_r in IH.
    rewrite <- !app_assoc in IH. simpl in IH. exact IH.
Qed.

(** Replacing the source of every consumer of [o], the consumers taken
    before [extra] was added to the body, rewires the nodes that were
    there and leaves [extra] as it is. *)
Lemma replace_consumers (o new_source : Src) (st extra : BodyStore) :
  fold_left (fun s input => replace_source_output s input new_source)
    (get_target_inputs st o) (st ++ extra)
  = map (rewire o new_source) st ++ extra.
Proof.
  exact (replace_target_inputs o new_source st [] extra).
Qed.

(** The inputs [get_target_inputs] returns are the inputs that consume
    the output. *)
Lemma elem_of_arg_positions (o : Src) (args : list Src) (k0 j : nat) :
  j ∈ arg_positions o args k0 <->
  exists i, j = (k0 + i)%nat /\ args !! i = Some o.
Proof.
  revert k0. induction args as [|a rest IH]; intros k0; simpl.
  - split; [intros H; inversion H | intros (i & _ & H); discriminate].
  - assert (Hrest : j ∈ arg_positions o rest (S k0) <->
                    exists i, j = (k0 + S i)%nat /\ rest !! i = Some o).
    { rewrite IH. split; intros (i & -> & Hi); exists i; split;
        [lia | exact Hi | lia | exact Hi]. }
    destruct (decide (a = o)) as [->|Hne].
    + rewrite elem_of_cons, Hrest. split.
      * intros [-> | (i & -> & Hi)].
        -- exists 0%nat. split; [lia | reflexivity].
        -- exists (S i). split; [reflexivity | exact Hi].
      * intros ([|i] & -> & Hi).
        -- left. lia.
        -- right. exists i. split; [reflexivity | exact Hi].
    + rewrite Hrest. split.
      * intros (i & -> & Hi). exists (S i). split; [reflexivity | exact Hi].
      * intros ([|i] & -> & Hi).
        -- simpl in Hi. congruence.
        -- exists i. split; [reflexivity | exact Hi].
Qed.

Lemma elem_of_target_inputs_from (o : Src) (nodes : list BodyNode)
  (c k j : nat) :
  (k, j) ∈ target_inputs_from o nodes c <->
  exists (i : nat) (n : BodyNode),
    k = (c + i)%nat /\ nodes !! i = Some n /\ node_args n !! j = Some o.
Proof.
  revert c. induction nodes as [|n rest IH]; intros c; simpl.
  - split; [intros H; inversion H | intros (i & n & _ & H & _); discriminate].
  - rewrite elem_of_app, list_elem_of_fmap, IH. split.
    + intros [(j' & [= -> ->] & Hj) | (i & n' & -> & Hi & Hj)].
      * apply elem_of_arg_positions in Hj as (i & -> & Hi).
        exists 0%nat, n. split; [lia |]. split; [reflexivity | exact Hi].
      * exists (S i), n'. split; [lia |]. split; [exact Hi | exact Hj].
    + intros ([|i] & n' & -> & Hi & Hj).
      * simpl in Hi. injection Hi as <-. left. exists j.
        split; [f_equal; lia |].
        apply elem_of_arg_positions. exists j. split; [reflexivity | exact Hj].
      * right. exists i, n'. split; [lia |]. split; [exact Hi | exact Hj].
Qed.

Lemma elem_of_get_target_inputs (st : BodyStore) (o : Src) (k j : nat) :
  (k, j) ∈ get_target_inputs st o <->
  exists n, st !! k = Some n /\ node_args n !! j = Some o.
Proof.
  unfold get_target_inputs. rewrite elem_of_target_inputs_from. split.
  - intros (i & n & -> & Hi & Hj). exists n. split; assumption.
  - intros (n & Hk & Hj). exists k, n. split; [reflexivity |]. split; assumption.
Qed.

Lemma get_target_inputs_nil (st : BodyStore) (o : Src) :
  get_target_inputs st o = [] <-> ~ consumed st o.
Proof.
  split.
  - intros Hnil (k & n & j & Hk & Hj).
    assert (Hin : (k, j) ∈ get_target_inputs st o)
      by (apply elem_of_get_target_inputs; eauto).
    rewrite Hnil in Hin. inversion Hin.
  - intros Hnone. destruct (get_target_inputs st o) as [|[k j] rest] eqn:Hl;
      [reflexivity |].
    exfalso. apply Hnone.
    assert (Hin : (k, j) ∈ get_target_inputs st o)
      by (rewrite Hl; apply elem_of_cons; left; reflexivity).
    apply elem_of_get_target_inputs in Hin as (n & Hk & Hj).
    exists k, n, j. split; assumption.
Qed.

(** ** scan: the rewriting of the body *)

Lemma set_partial_shape_Ok_inv (st st' : BodyStore) (p : nat)
  (pshape : PartialShape) :
  set_partial_shape st p pshape = Ok st' ->
  exists et pshape0 args,
    st !! p = Some (mkBodyNode (OpParameter et pshape0) args) /\
    st' = <[p := mkBodyNode (OpParameter et pshape) args]> st.
Proof.
  unfold set_partial_shape.
  destruct (st !! p) as [[[et pshape0| | | |] args]|] eqn:Hp; try discriminate.
  intros [= <-]. eauto.
Qed.

Lemma set_element_type_Ok_inv (st st' : BodyStore) (p : nat) (et : ElementType) :
  set_element_type st p et = Ok st' ->
  exists et0 pshape args,
    st !! p = Some (mkBodyNode (OpParameter et0 pshape) args) /\
    st' = <[p := mkBodyNode (OpParameter et pshape) args]> st.
Proof.
  unfold set_element_type.
  destruct (st !! p) as [[[et0 pshape| | | |] args]|] eqn:Hp; try discriminate.
  intros [= <-]. eauto.
Qed.

Lemma set_dimension_Ok_inv (shape shape' : PartialShape) (axis : Z)
  (value : Dimension) :
  set_dimension shape axis value = Ok shape' ->
  exists dims,
    shape = RankStatic dims /\ 0 <= axis < Z.of_nat (length dims) /\
    shape' = RankStatic (<[Z.to_nat axis := value]> dims).
Proof.
  unfold set_dimension. destruct shape as [|dims]; [discriminate |].
  destruct (Z.leb_spec 0 axis); destruct (Z.ltb_spec axis (Z.of_nat (length dims)));
    simpl; try discriminate.
  intros [= <-]. exists dims. repeat split; lia.
Qed.

Section ScanBody.
Context {rt : Runtime}.

Variable node_inputs : OutputVector.
Variable body_inputs : list nat.
Variable num_scan_inputs : Z.
Variable scan_input_axes scan_input_directions : list Z.
Variable scan_output_axes scan_output_directions : list Z.
Variable in_offset : Z.
Variable node_description : string.

Local Abbreviation align_state_input :=
  (scan_detail.align_state_input node_inputs body_inputs in_offset).
Local Abbreviation align_scan_input :=
  (scan_detail.align_scan_input node_inputs body_inputs scan_input_axes
     in_offset node_description).
Local Abbreviation align_scan_output :=
  (scan_detail.align_scan_output scan_output_axes).

(** Giving a parameter another shape changes no input. *)
Lemma consumed_shaped (st : BodyStore) (p : nat) (et et' : ElementType)
  (pshape0 pshape : PartialShape) (pargs : list Src) (extra : BodyNode)
  (o : Src) :
  st !! p = Some (mkBodyNode (OpParameter et pshape0) pargs) ->
  node_args extra = [] ->
  consumed (<[p := mkBodyNode (OpParameter et' pshape) pargs]> (st ++ [extra])) o
  <-> consumed st o.
Proof.
  intros Hp Hextra. apply lookup_lt_Some in Hp as Hlt. split.
  - intros (k & n & j & Hk & Hj).
    destruct (decide (k = p)) as [->|Hne].
    + rewrite list_lookup_insert_eq in Hk
        by (rewrite length_app; simpl; lia).
      injection Hk as <-.
      exists p, (mkBodyNode (OpParameter et pshape0) pargs), j.
      split; [exact Hp | exact Hj].
    + rewrite list_lookup_insert_ne in Hk by congruence.
      destruct (decide (k < length st)%nat) as [Hk'|Hk'].
      * rewrite lookup_app_l in Hk by exact Hk'. exists k, n, j. split; assumption.
      * rewrite lookup_app_r in Hk by lia.
        destruct (k - length st)%nat; simpl in Hk; [| discriminate].
        injection Hk as <-. rewrite Hextra in Hj. discriminate.
  - intros (k & n & j & Hk & Hj).
    destruct (decide (k = p)) as [->|Hne].
    + rewrite Hp in Hk. injection Hk as <-.
      exists p, (mkBodyNode (OpParameter et' pshape) pargs), j.
      split; [| exact Hj].
      apply list_lookup_insert_eq. rewrite length_app. simpl. lia.
    + exists k, n, j. split; [| exact Hj].
      rewrite list_lookup_insert_ne by congruence.
      apply lookup_app_l_Some. exact Hk.
Qed.

(** One iteration of the loop over the scan inputs: the parameter gets
    its shape; when an input consumes it, the constant and the Squeeze are
    added and its consumers moved to the Squeeze, and otherwise nothing is
    added. *)
Lemma align_scan_input_Ok_inv (niv i : Z) (st st' : BodyStore) :
  align_scan_input niv i st = Ok st' ->
  exists (a : Z) (x : Output) (p : nat) (et : ElementType)
         (pshape0 pshape : PartialShape) (pargs : list Src),
    index scan_input_axes i = Ok a /\
    index node_inputs (size_wrap (size_wrap (niv + i) + in_offset)) = Ok x /\
    index body_inputs (size_wrap (niv + i)) = Ok p /\
    st !! p = Some (mkBodyNode (OpParameter et pshape0) pargs) /\
    (forall dims, get_partial_shape x = RankStatic dims ->
       exists ax,
         normalize_axis node_description a (DimStatic (Z.of_nat (length dims)))
         = Ok ax /\
         0 <= ax < Z.of_nat (length dims) /\
         pshape = RankStatic (<[Z.to_nat ax := DimStatic 1]> dims)) /\
    (get_partial_shape x = RankDynamic -> pshape = RankDynamic) /\
    ((~ consumed st (mkSrc p 0) /\
      st' = <[p := mkBodyNode (OpParameter et pshape) pargs]> st) \/
     (consumed st (mkSrc p 0) /\
      st' = aligned_body st p et pshape pargs a)).
Proof.
  unfold scan_detail.align_scan_input, alloc. intros H.
  apply bind_Ok_inv in H as (a & Ha & H).
  apply bind_Ok_inv in H as (x & Hx & H).
  apply bind_Ok_inv in H as (pshape & Hshape & H).
  apply bind_Ok_inv in H as (p & Hp & H).
  apply bind_Ok_inv in H as (st2 & Hst2 & H).
  injection H as <-.
  apply set_partial_shape_Ok_inv in Hst2 as (et & pshape0 & pargs & Hlook & ->).
  assert (Hplt : (p < length st)%nat).
  { apply lookup_lt_Some in Hlook as Hlt. rewrite length_app in Hlt. simpl in Hlt.
    destruct (decide (p = length st)) as [->|Hne]; [| lia].
    rewrite list_lookup_middle in Hlook by reflexivity. discriminate. }
  rewrite lookup_app_l in Hlook by assumption.
  exists a, x, p, et, pshape0, pshape, pargs.
  split; [assumption |]. split; [assumption |]. split; [assumption |].
  split; [assumption |]. split; [| split].
  - intros dims Hdims. rewrite Hdims in Hshape. cbn [rank] in Hshape.
    apply bind_Ok_inv in Hshape as (ax & Hax & Hset).
    apply set_dimension_Ok_inv in Hset as (dims' & [= <-] & Hrange & ->).
    exists ax. auto.
  - intros Hdyn. rewrite Hdyn in Hshape. cbn [rank] in Hshape.
    injection Hshape as <-. reflexivity.
  - pose proof (consumed_shaped st p et et pshape0 pshape pargs
                  (mkBodyNode (OpConstant i64 [1%N] [a]) []) (mkSrc p 0)
                  Hlook eq_refl) as Hsame.
    match goal with
    | |- context [get_target_inputs ?s ?o] =>
        destruct (get_target_inputs s o) as [|input rest] eqn:Hinputs
    end.
    + left. split.
      * rewrite <- Hsame. apply get_target_inputs_nil. exact Hinputs.
      * simpl. unfold release.
        rewrite insert_app_l by assumption.
        rewrite <- app_assoc.
        rewrite <- (length_insert st p
                      (mkBodyNode (OpParameter et pshape) pargs)) at 1.
        apply take_app_length.
    + right. split.
      * rewrite <- Hsame. destruct input as [k j].
        assert (Hin : (k, j) ∈ (k, j) :: rest)
          by (apply elem_of_cons; left; reflexivity).
        rewrite <- Hinputs in Hin.
        apply elem_of_get_target_inputs in Hin as (n & Hk & Hj).
        exists k, n, j. split; assumption.
      * rewrite <- Hinputs. rewrite replace_consumers.
        rewrite length_insert, length_app. simpl. rewrite Nat.add_1_r.
        unfold aligned_body.
        rewrite insert_app_l by assumption. reflexivity.
Qed.

End ScanBody.

Lemma rewire_args (o new_source : Src) (n : BodyNode) (j : nat) :
  node_args (rewire o new_source n) !! j
  = (fun a => if decide (a = o) then new_source else a) <$> node_args n !! j.
Proof. unfold rewire. simpl. apply list_lookup_fmap. Qed.

Lemma rewire_other (o new_source a : Src) (n : BodyNode) (j : nat) :
  a <> o -> node_args n !! j = Some a ->
  node_args (rewire o new_source n) !! j = Some a.
Proof.
  intros Hne Hj. rewrite rewire_args, Hj. simpl.
  destruct (decide (a = o)); [contradiction | reflexivity].
Qed.

Lemma rewire_consumer (o new_source : Src) (n : BodyNode) (j : nat) :
  node_args n !! j = Some o ->
  node_args (rewire o new_source n) !! j = Some new_source.
Proof.
  intros Hj. rewrite rewire_args, Hj. simpl.
  destruct (decide (o = o)); [reflexivity | contradiction].
Qed.

Section AlignedBody.

Variables (st : BodyStore) (p : nat) (et : ElementType)
          (pshape0 pshape : PartialShape) (pargs : list Src) (axis : Z).
Hypothesis Hparam : st !! p = Some (mkBodyNode (OpParameter et pshape0) pargs).

Lemma aligned_body_old (k : nat) (n0 : BodyNode) :
  st !! k = Some n0 ->
  aligned_body st p et pshape pargs axis !! k
  = Some (rewire (mkSrc p 0) (mkSrc (S (length st)) 0)
            (if decide (k = p) then mkBodyNode (OpParameter et pshape) pargs
             else n0)).
Proof.
  intros Hk. apply lookup_lt_Some in Hk as Hlt. unfold aligned_body.
  rewrite lookup_app_l
    by (rewrite length_map, length_app, length_insert; lia).
  rewrite list_lookup_fmap.
  rewrite lookup_app_l by (rewrite length_insert; lia).
  destruct (decide (k = p)) as [->|Hne].
  - rewrite list_lookup_insert_eq by assumption. reflexivity.
  - rewrite list_lookup_insert_ne by congruence. rewrite Hk. reflexivity.
Qed.

Lemma aligned_body_constant :
  aligned_body st p et pshape pargs axis !! length st
  = Some (mkBodyNode (OpConstant i64 [1%N] [axis]) []).
Proof.
  unfold aligned_body.
  rewrite lookup_app_l
    by (rewrite length_map, length_app, length_insert; simpl; lia).
  rewrite list_lookup_fmap.
  rewrite lookup_app_r by (rewrite length_insert; lia).
  rewrite length_insert, Nat.sub_diag. reflexivity.
Qed.

Lemma aligned_body_squeeze :
  aligned_body st p et pshape pargs axis !! S (length st)
  = Some (mkBodyNode OpSqueeze [mkSrc p 0; mkSrc (length st) 0]).
Proof.
  unfold aligned_body.
  rewrite lookup_app_r
    by (rewrite length_map, length_app, length_insert; simpl; lia).
  rewrite length_map, length_app, length_insert. simpl.
  replace (S (length st) - (length st + 1))%nat with 0%nat by lia.
  reflexivity.
Qed.

(** The iteration squeezes the consumers of [p]. *)
Lemma aligned_body_squeezes (body : BodyStore) :
  (forall k n j, body !! k = Some n -> node_args n !! j = Some (mkSrc p 0) ->
     exists n', st !! k = Some n' /\ node_args n' !! j = Some (mkSrc p 0)) ->
  squeezed_consumers body (aligned_body st p et pshape pargs axis) p axis.
Proof.
  intros Hpending _. exists (S (length st)), (length st).
  split; [apply aligned_body_squeeze |].
  split; [apply aligned_body_constant |].
  intros k n j Hk Hj.
  destruct (Hpending k n j Hk Hj) as (n' & Hk' & Hj').
  eexists. split; [apply aligned_body_old; exact Hk' |].
  apply rewire_consumer.
  destruct (decide (k = p)) as [->|Hne]; [| exact Hj'].
  rewrite Hparam in Hk'. injection Hk' as <-. exact Hj'.
Qed.

(** The iteration leaves what earlier iterations did to another
    parameter [p'] as it is. *)
Lemma aligned_body_keeps_squeezed (body : BodyStore) (p' : nat) (axis' : Z) :
  p' <> p ->
  squeezed_consumers body st p' axis' ->
  squeezed_consumers body (aligned_body st p et pshape pargs axis) p' axis'.
Proof.
  intros Hne Hsqueezed Hconsumed.
  destruct (Hsqueezed Hconsumed) as (sq & c & Hsq & Hc & Hcons).
  assert (Hsqp : sq <> p) by (intros ->; rewrite Hparam in Hsq; discriminate).
  assert (Hcp : c <> p) by (intros ->; rewrite Hparam in Hc; discriminate).
  exists sq, c. split; [| split].
  - rewrite (aligned_body_old sq _ Hsq).
    destruct (decide (sq = p)); [contradiction |].
    unfold rewire. simpl.
    destruct (decide (mkSrc p' 0 = mkSrc p 0)) as [[= ?]|_]; [contradiction |].
    destruct (decide (mkSrc c 0 = mkSrc p 0)) as [[= ?]|_]; [contradiction |].
    reflexivity.
  - rewrite (aligned_body_old c _ Hc).
    destruct (decide (c = p)); [contradiction |]. reflexivity.
  - intros k n j Hk Hj.
    destruct (Hcons k n j Hk Hj) as (n' & Hk' & Hj').
    eexists. split; [apply aligned_body_old; exact Hk' |].
    apply rewire_other; [intros [= ?]; contradiction |].
    destruct (decide (k = p)) as [->|Hkp]; [| exact Hj'].
    rewrite Hparam in Hk'. injection Hk' as <-. exact Hj'.
Qed.

Lemma aligned_body_keeps_pending (body : BodyStore) (p' : nat) :
  p' <> p ->
  (forall k n j, body !! k = Some n -> node_args n !! j = Some (mkSrc p' 0) ->
     exists n', st !! k = Some n' /\ node_args n' !! j = Some (mkSrc p' 0)) ->
  forall k n j, body !! k = Some n -> node_args n !! j = Some (mkSrc p' 0) ->
    exists n', aligned_body st p et pshape pargs axis !! k = Some n' /\
               node_args n' !! j = Some (mkSrc p' 0).
Proof.
  intros Hne Hpending k n j Hk Hj.
  destruct (Hpending k n j Hk Hj) as (n' & Hk' & Hj').
  eexists. split; [apply aligned_body_old; exact Hk' |].
  apply rewire_other; [intros [= ?]; contradiction |].
  destruct (decide (k = p)) as [->|Hkp]; [| exact Hj'].
  rewrite Hparam in Hk'. injection Hk' as <-. exact Hj'.
Qed.

Lemma aligned_body_op (k : nat) (op : BodyOp) :
  k <> p ->
  node_op <$> st !! k = Some op ->
  node_op <$> aligned_body st p et pshape pargs axis !! k = Some op.
Proof.
  intros Hne Hk. destruct (st !! k) as [n0|] eqn:Hk0; [| discriminate].
  rewrite (aligned_body_old k _ Hk0).
  destruct (decide (k = p)); [contradiction |]. exact Hk.
Qed.

Lemma aligned_body_parameter :
  node_op <$> aligned_body st p et pshape pargs axis !! p
  = Some (OpParameter et pshape).
Proof.
  rewrite (aligned_body_old p _ Hparam).
  destruct (decide (p = p)); [reflexivity | contradiction].
Qed.

Lemma aligned_body_keeps_extent (p' : nat) (dims : list Dimension) (ax : Z) :
  p' <> p ->
  unit_extent st p' dims ax ->
  unit_extent (aligned_body st p et pshape pargs axis) p' dims ax.
Proof.
  intros Hne (Hrange & et' & pdims & Hop & Heq & Hone).
  split; [assumption |]. exists et', pdims.
  split; [apply aligned_body_op; assumption | auto].
Qed.

(** The iteration over a parameter without consumers gives the
    parameter its shape and leaves the other node objects as they are. *)
Lemma shaped_body_lookup (k : nat) (n0 : BodyNode) :
  st !! k = Some n0 ->
  <[p := mkBodyNode (OpParameter et pshape) pargs]> st !! k
  = Some (if decide (k = p) then mkBodyNode (OpParameter et pshape) pargs
          else n0).
Proof.
  intros Hk. apply lookup_lt_Some in Hk as Hlt.
  destruct (decide (k = p)) as [->|Hne].
  - apply list_lookup_insert_eq. exact Hlt.
  - rewrite list_lookup_insert_ne by congruence. exact Hk.
Qed.

Lemma shaped_body_unconsumed (body : BodyStore) :
  (forall k n j, body !! k = Some n -> node_args n !! j = Some (mkSrc p 0) ->
     exists n', st !! k = Some n' /\ node_args n' !! j = Some (mkSrc p 0)) ->
  ~ consumed st (mkSrc p 0) ->
  squeezed_consumers body
    (<[p := mkBodyNode (OpParameter et pshape) pargs]> st) p axis.
Proof.
  intros Hpending Hnone (k & n & j & Hk & Hj). exfalso. apply Hnone.
  destruct (Hpending k n j Hk Hj) as (n' & Hk' & Hj').
  exists k, n', j. split; assumption.
Qed.

Lemma shaped_body_keeps_squeezed (body : BodyStore) (p' : nat) (axis' : Z) :
  squeezed_consumers body st p' axis' ->
  squeezed_consumers body
    (<[p := mkBodyNode (OpParameter et pshape) pargs]> st) p' axis'.
Proof.
  intros Hsqueezed Hconsumed.
  destruct (Hsqueezed Hconsumed) as (sq & c & Hsq & Hc & Hcons).
  assert (Hsqp : sq <> p) by (intros ->; rewrite Hparam in Hsq; discriminate).
  assert (Hcp : c <> p) by (intros ->; rewrite Hparam in Hc; discriminate).
  exists sq, c. split; [| split].
  - rewrite list_lookup_insert_ne by congruence. exact Hsq.
  - rewrite list_lookup_insert_ne by congruence. exact Hc.
  - intros k n j Hk Hj.
    destruct (Hcons k n j Hk Hj) as (n' & Hk' & Hj').
    eexists. split; [apply shaped_body_lookup; exact Hk' |].
    destruct (decide (k = p)) as [->|Hkp]; [| exact Hj'].
    rewrite Hparam in Hk'. injection Hk' as <-. exact Hj'.
Qed.

Lemma shaped_body_keeps_pending (body : BodyStore) (p' : nat) :
  (forall k n j, body !! k = Some n -> node_args n !! j = Some (mkSrc p' 0) ->
     exists n', st !! k = Some n' /\ node_args n' !! j = Some (mkSrc p' 0)) ->
  forall k n j, body !! k = Some n -> node_args n !! j = Some (mkSrc p' 0) ->
    exists n', <[p := mkBodyNode (OpParameter et pshape) pargs]> st !! k
               = Some n' /\
               node_args n' !! j = Some (mkSrc p' 0).
Proof.
  intros Hpending k n j Hk Hj.
  destruct (Hpending k n j Hk Hj) as (n' & Hk' & Hj').
  eexists. split; [apply shaped_body_lookup; exact Hk' |].
  destruct (decide (k = p)) as [->|Hkp]; [| exact Hj'].
  rewrite Hparam in Hk'. injection Hk' as <-. exact Hj'.
Qed.

Lemma shaped_body_op (k : nat) (op : BodyOp) :
  k <> p ->
  node_op <$> st !! k = Some op ->
  node_op <$> <[p := mkBodyNode (OpParameter et pshape) pargs]> st !! k
  = Some op.
Proof.
  intros Hne Hk. rewrite list_lookup_insert_ne by congruence. exact Hk.
Qed.

Lemma shaped_body_parameter :
  node_op <$> <[p := mkBodyNode (OpParameter et pshape) pargs]> st !! p
  = Some (OpParameter et pshape).
Proof.
  rewrite list_lookup_insert_eq by (apply lookup_lt_Some in Hparam; exact Hparam).
  reflexivity.
Qed.

Lemma shaped_body_keeps_extent (p' : nat) (dims : list Dimension) (ax : Z) :
  p' <> p ->
  unit_extent st p' dims ax ->
  unit_extent (<[p := mkBodyNode (OpParameter et pshape) pargs]> st)
    p' dims ax.
Proof.
  intros Hne (Hrange & et' & pdims & Hop & Heq & Hone).
  split; [assumption |]. exists et', pdims.
  split; [apply shaped_body_op; assumption | auto].
Qed.

End AlignedBody.

(** Nodes added to a body change nothing of what holds of the nodes that
    are there. *)
Lemma squeezed_consumers_app (body st extra : BodyStore) (p : nat) (axis : Z) :
  squeezed_consumers body st p axis ->
  squeezed_consumers body (st ++ extra) p axis.
Proof.
  intros Hsqueezed Hconsumed.
  destruct (Hsqueezed Hconsumed) as (sq & c & Hsq & Hc & Hcons). exists sq, c.
  split; [apply lookup_app_l_Some; assumption |].
  split; [apply lookup_app_l_Some; assumption |].
  intros k n j Hk Hj. destruct (Hcons k n j Hk Hj) as (n' & Hk' & Hj').
  exists n'. split; [apply lookup_app_l_Some; assumption | assumption].
Qed.

Lemma unit_extent_app (st extra : BodyStore) (p : nat) (dims : list Dimension)
  (ax : Z) :
  unit_extent st p dims ax -> unit_extent (st ++ extra) p dims ax.
Proof.
  intros (Hrange & et & pdims & Hop & Heq & Hone).
  split; [assumption |]. exists et, pdims. split; [| auto].
  destruct (st !! p) as [n|] eqn:Hp; [| discriminate].
  rewrite (lookup_app_l_Some _ _ _ _ Hp). exact Hop.
Qed.

Lemma for_loop_first {St : Type} (n : Z) (body : Z -> St -> result St)
  (s0 s : St) :
  0 < n -> for_loop n body s0 = Ok s -> exists s1, body 0 s0 = Ok s1.
Proof.
  intros Hn. unfold for_loop, range.
  destruct (Z.to_nat n) as [|m] eqn:Hm; [lia |]. simpl.
  intros H. apply bind_Ok_inv in H as (s1 & H1 & _). eauto.
Qed.

Lemma insert_keeps_args (st : BodyStore) (p k : nat) (op op' : BodyOp)
  (args : list Src) :
  st !! p = Some (mkBodyNode op args) ->
  node_args <$> (<[p := mkBodyNode op' args]> st) !! k = node_args <$> st !! k.
Proof.
  intros Hp. destruct (decide (p = k)) as [<-|Hne].
  - rewrite list_lookup_insert_eq by (eapply lookup_lt_Some; eassumption).
    rewrite Hp. reflexivity.
  - rewrite list_lookup_insert_ne by assumption. reflexivity.
Qed.

Section ScanLoops.
Context {rt : Runtime}.

Variable node_inputs : OutputVector.
Variable body_inputs : list nat.
Variable num_scan_inputs : Z.
Variable scan_input_axes scan_input_directions : list Z.
Variable scan_output_axes scan_output_directions : list Z.
Variable in_offset : Z.
Variable node_description : string.

Local Abbreviation align_state_input :=
  (scan_detail.align_state_input node_inputs body_inputs in_offset).
Local Abbreviation align_scan_input :=
  (scan_detail.align_scan_input node_inputs body_inputs scan_input_axes
     in_offset node_description).
Local Abbreviation align_scan_output :=
  (scan_detail.align_scan_output scan_output_axes).
Local Abbreviation input_aligned :=
  (scan_input_aligned node_inputs body_inputs scan_input_axes in_offset
     node_description).

(** The loop over the state variables changes the type and shape of
    parameters and nothing else. *)
Lemma align_state_inputs_args (n : Z) (body st : BodyStore) :
  for_loop n align_state_input body = Ok st ->
  forall k, node_args <$> st !! k = node_args <$> body !! k.
Proof.
  intros Hrun.
  apply (for_loop_invariant
           (fun _ s => forall k, node_args <$> s !! k = node_args <$> body !! k)
           n align_state_input body st); [reflexivity | | exact Hrun].
  intros i s1 s2 _ IH Hbody k.
  unfold scan_detail.align_state_input in Hbody.
  apply bind_Ok_inv in Hbody as (p & _ & Hbody).
  apply bind_Ok_inv in Hbody as (x & _ & Hbody).
  apply bind_Ok_inv in Hbody as (s' & Het & Hshape).
  apply set_element_type_Ok_inv in Het as (et0 & ps0 & args & Hp & ->).
  apply set_partial_shape_Ok_inv in Hshape as (et1 & ps1 & args1 & Hp1 & ->).
  rewrite (insert_keeps_args _ _ _ _ _ _ Hp1).
  rewrite (insert_keeps_args _ _ _ _ _ _ Hp).
  apply IH.
Qed.

Lemma pending_after_states (body st : BodyStore) (p : nat) :
  (forall k, node_args <$> st !! k = node_args <$> body !! k) ->
  pending_consumers body st p.
Proof.
  intros Hargs k n j Hk Hj. specialize (Hargs k). rewrite Hk in Hargs.
  destruct (st !! k) as [n'|]; [| discriminate].
  injection Hargs as Hargs. exists n'. split; [reflexivity |].
  rewrite Hargs. exact Hj.
Qed.

(** The loop over the scan inputs aligns every scan input. *)
Lemma align_scan_inputs (body st1 st2 : BodyStore) :
  let niv := Z.of_nat (length body_inputs) - num_scan_inputs in
  0 <= num_scan_inputs <= Z.of_nat (length body_inputs) ->
  Z.of_nat (length body_inputs) < 2 ^ 63 ->
  NoDup body_inputs ->
  (forall p, pending_consumers body st1 p) ->
  for_loop num_scan_inputs (align_scan_input niv) st1 = Ok st2 ->
  forall i, 0 <= i < num_scan_inputs -> input_aligned niv body st2 i.
Proof.
  intros niv Hnsi Hlen Hnodup Hpending Hrun.
  pose proof (for_loop_invariant
    (fun i st =>
       (forall i'' p'', i <= i'' < num_scan_inputs ->
          body_inputs !! Z.to_nat (niv + i'') = Some p'' ->
          pending_consumers body st p'') /\
       (forall i', 0 <= i' < i -> input_aligned niv body st i'))
    num_scan_inputs (align_scan_input niv) st1 st2) as Hinv.
  simpl in Hinv.
  destruct Hinv as [_ Hall]; [| | exact Hrun |].
  - split; [intros; apply Hpending | intros; lia].
  - intros i s1 s2 Hi [IHpending IHaligned] Hbody.
    apply align_scan_input_Ok_inv in Hbody
      as (a & x & p & et & pshape0 & pshape & pargs
          & Ha & Hx & Hp & Hparam & Hshape & _ & Hcases).
    assert (Hwrap : size_wrap (niv + i) = niv + i).
    { apply size_wrap_small. unfold niv. lia. }
    rewrite Hwrap in Hx, Hp.
    apply index_Ok_inv in Ha as [_ Ha].
    apply index_Ok_inv in Hx as [_ Hx].
    apply index_Ok_inv in Hp as [_ Hp].
    assert (Hdistinct : forall i' p', 0 <= i' < num_scan_inputs -> i' <> i ->
              body_inputs !! Z.to_nat (niv + i') = Some p' -> p' <> p).
    { intros i' p' Hi' Hne Hp' ->.
      pose proof (NoDup_lookup _ _ _ _ Hnodup Hp Hp'). unfold niv in *. lia. }
    destruct Hcases as [[Hnone ->] | [Hsome ->]].
    + (* no input consumes the parameter *)
      split.
      * intros i'' p'' Hi'' Hp''. unfold pending_consumers.
        apply (shaped_body_keeps_pending _ _ _ pshape0); try assumption.
        apply (IHpending i''); [lia | assumption].
      * intros i' Hi'. destruct (Z.eq_dec i' i) as [->|Hne].
        -- exists p, x, a.
           split; [assumption |]. split; [assumption |].
           split; [assumption |]. split.
           ++ apply shaped_body_unconsumed; [| assumption].
              apply (IHpending i); [lia | assumption].
           ++ intros dims Hdims.
              destruct (Hshape dims Hdims) as (ax & Hax & Hrange & ->).
              exists ax. split; [assumption |]. split; [assumption |].
              exists et, (<[Z.to_nat ax := DimStatic 1]> dims).
              split; [apply (shaped_body_parameter _ _ _ pshape0); assumption |].
              split; [reflexivity |].
              apply list_lookup_insert_eq. lia.
        -- destruct (IHaligned i') as (p' & x' & a' & Hp' & Hx' & Ha' & Hsq & Hext);
             [lia |].
           assert (Hpp : p' <> p)
             by (apply (Hdistinct i'); [lia | assumption | assumption]).
           exists p', x', a'.
           split; [assumption |]. split; [assumption |].
           split; [assumption |]. split.
           ++ apply (shaped_body_keeps_squeezed _ _ _ pshape0); assumption.
           ++ intros dims Hdims.
              destruct (Hext dims Hdims) as (ax & Hax & Hunit).
              exists ax. split; [assumption |].
              apply shaped_body_keeps_extent; assumption.
    + (* the consumers of the parameter are moved to the Squeeze *)
      split.
      * intros i'' p'' Hi'' Hp''. unfold pending_consumers.
        apply (aligned_body_keeps_pending _ _ _ pshape0); try assumption.
        -- apply (Hdistinct i''); [lia | lia | assumption].
        -- apply (IHpending i''); [lia | assumption].
      * intros i' Hi'. destruct (Z.eq_dec i' i) as [->|Hne].
        -- exists p, x, a.
           split; [assumption |]. split; [assumption |].
           split; [assumption |]. split.
           ++ apply (aligned_body_squeezes _ _ _ pshape0); [assumption |].
              apply (IHpending i); [lia | assumption].
           ++ intros dims Hdims.
              destruct (Hshape dims Hdims) as (ax & Hax & Hrange & ->).
              exists ax. split; [assumption |]. split; [assumption |].
              exists et, (<[Z.to_nat ax := DimStatic 1]> dims).
              split; [apply (aligned_body_parameter _ _ _ pshape0); assumption |].
              split; [reflexivity |].
              apply list_lookup_insert_eq. lia.
        -- destruct (IHaligned i') as (p' & x' & a' & Hp' & Hx' & Ha' & Hsq & Hext);
             [lia |].
           assert (Hpp : p' <> p)
             by (apply (Hdistinct i'); [lia | assumption | assumption]).
           exists p', x', a'.
           split; [assumption |]. split; [assumption |].
           split; [assumption |]. split.
           ++ apply (aligned_body_keeps_squeezed _ _ _ pshape0); assumption.
           ++ intros dims Hdims.
              destruct (Hext dims Hdims) as (ax & Hax & Hunit).
              exists ax. split; [assumption |].
              apply aligned_body_keeps_extent; assumption.
  - intros i Hi. apply Hall. lia.
Qed.

End ScanLoops.

(** ** scan: the outputs of the body and the iterator *)

Section ScanIterator.
Context {rt : Runtime}.

Variable node_inputs : OutputVector.
Variable body_inputs : list nat.
Variable num_scan_inputs : Z.
Variable scan_input_axes scan_input_directions : list Z.
Variable scan_output_axes scan_output_directions : list Z.
Variable in_offset : Z.
Variable node_description : string.

Local Abbreviation align_scan_output :=
  (scan_detail.align_scan_output scan_output_axes).
Local Abbreviation slice_scan_input :=
  (scan_detail.slice_scan_input node_inputs body_inputs scan_input_axes
     scan_input_directions in_offset node_description).
Local Abbreviation state_output :=
  (scan_detail.state_output node_inputs body_inputs in_offset).
Local Abbreviation scan_output :=
  (scan_detail.scan_output scan_output_axes scan_output_directions
     node_description).
Local Abbreviation output_aligned := (scan_output_aligned scan_output_axes).

Lemma align_scan_output_Ok_inv (niv j : Z) (st st' : BodyStore)
  (bo bo' : list Src) :
  align_scan_output niv j (st, bo) = Ok (st', bo') ->
  exists (a : Z) (out : Src),
    index scan_output_axes j = Ok a /\
    index bo (size_wrap (niv + j)) = Ok out /\
    st' = st ++ [mkBodyNode (OpConstant i64 [1%N] [a]) [];
                 mkBodyNode OpUnsqueeze [out; mkSrc (length st) 0]] /\
    bo' = <[Z.to_nat (size_wrap (niv + j)) := mkSrc (S (length st)) 0]> bo.
Proof.
  unfold scan_detail.align_scan_output, alloc. intros H.
  apply bind_Ok_inv in H as (a & Ha & H).
  apply bind_Ok_inv in H as (out & Hout & H).
  injection H as <- <-. exists a, out.
  repeat split; try assumption.
  - rewrite <- app_assoc. reflexivity.
  - rewrite length_app. simpl. rewrite Nat.add_1_r. reflexivity.
Qed.

(** The loop over the scan outputs adds an Unsqueeze for each of them. *)
Lemma align_scan_outputs (niv : Z) (st2 st3 : BodyStore) (bo bo' : list Src) :
  0 <= niv < 2 ^ 63 ->
  Z.of_nat (length bo) < 2 ^ 63 ->
  for_loop (size_wrap (Z.of_nat (length bo) - niv)) (align_scan_output niv)
    (st2, bo) = Ok (st3, bo') ->
  niv <= Z.of_nat (length bo) /\
  (exists extra, st3 = st2 ++ extra) /\
  length bo' = length bo /\
  (forall k : nat, Z.of_nat k < niv -> bo' !! k = bo !! k) /\
  forall j, 0 <= j < Z.of_nat (length bo) - niv -> output_aligned niv st3 bo bo' j.
Proof.
  intros Hniv Hlen Hrun.
  assert (Hle : niv <= Z.of_nat (length bo)).
  { destruct (Z.le_gt_cases niv (Z.of_nat (length bo))) as [|Hgt]; [assumption |].
    exfalso.
    assert (Hpos : 0 < size_wrap (Z.of_nat (length bo) - niv)).
    { unfold size_wrap.
      replace (Z.of_nat (length bo) - niv)
        with (2 ^ 64 + Z.of_nat (length bo) - niv + (-1) * 2 ^ 64) by lia.
      rewrite Z.mod_add by lia. rewrite Z.mod_small; lia. }
    destruct (for_loop_first _ _ _ _ Hpos Hrun) as ([s b] & Hfirst).
    apply align_scan_output_Ok_inv in Hfirst as (a & out & _ & Hout & _).
    apply index_Ok_lt in Hout.
    rewrite Z.add_0_r, size_wrap_small in Hout; lia. }
  split; [exact Hle |].
  rewrite size_wrap_small in Hrun by lia.
  pose proof (for_loop_invariant
    (fun j (s : BodyStore * list Src) =>
       (exists extra, s.1 = st2 ++ extra) /\
       length s.2 = length bo /\
       (forall k : nat, Z.of_nat k < niv \/ niv + j <= Z.of_nat k ->
                        s.2 !! k = bo !! k) /\
       (forall j', 0 <= j' < j -> output_aligned niv s.1 bo s.2 j'))
    (Z.of_nat (length bo) - niv) (align_scan_output niv) (st2, bo) (st3, bo'))
    as Hinv.
  simpl in Hinv.
  destruct Hinv as (Hext & Hlen' & Hkeep & Hall); [| | exact Hrun |].
  - split; [exists []; rewrite app_nil_r; reflexivity |].
    split; [reflexivity |]. split; [reflexivity |]. intros; lia.
  - intros j [s1 b1] [s2 b2] Hj ([extra Hextra] & Hl & Hk & IH) Hbody.
    simpl in Hextra, Hl, Hk, IH.
    apply align_scan_output_Ok_inv in Hbody as (a & out & Ha & Hout & -> & ->).
    rewrite size_wrap_small in * by lia.
    apply index_Ok_inv in Ha as [_ Ha].
    apply index_Ok_inv in Hout as [_ Hout].
    simpl. split; [| split; [| split]].
    + exists (extra ++ [mkBodyNode (OpConstant i64 [1%N] [a]) [];
                         mkBodyNode OpUnsqueeze [out; mkSrc (length s1) 0]]).
      rewrite Hextra, <- app_assoc. reflexivity.
    + rewrite length_insert. exact Hl.
    + intros k Hcase. rewrite list_lookup_insert_ne by lia. apply Hk. lia.
    + intros j' Hj'. destruct (Z.eq_dec j' j) as [->|Hne].
      * exists out, a, (S (length s1)), (length s1).
        split; [rewrite <- Hk by lia; exact Hout |].
        split; [exact Ha |].
        split; [apply list_lookup_insert_eq; lia |].
        split.
        -- rewrite lookup_app_r by lia.
           replace (S (length s1) - length s1)%nat with 1%nat by lia.
           reflexivity.
        -- rewrite lookup_app_r by lia. rewrite Nat.sub_diag. reflexivity.
      * destruct (IH j') as (out' & a' & u & c & Ho & Ha' & Hb & Hu & Hc);
          [lia |].
        exists out', a', u, c. repeat split; try assumption.
        -- rewrite list_lookup_insert_ne by lia. exact Hb.
        -- apply lookup_app_l_Some. exact Hu.
        -- apply lookup_app_l_Some. exact Hc.
  - split; [exact Hext |]. split; [exact Hlen' |]. split.
    + intros k Hk. apply Hkeep. lia.
    + intros j Hj. apply Hall. lia.
Qed.

Lemma slice_scan_input_Ok_inv (niv i : Z) (ti ti' : TensorIterator) :
  slice_scan_input niv i ti = Ok ti' ->
  exists (a : Z) (x : Output) (axis direction : Z) (p : nat),
    index scan_input_axes i = Ok a /\
    index node_inputs (size_wrap (size_wrap (niv + i) + in_offset)) = Ok x /\
    normalize_axis node_description a (rank (get_partial_shape x)) = Ok axis /\
    index scan_input_directions i = Ok direction /\
    index body_inputs (size_wrap (niv + i)) = Ok p /\
    ti' = mkTensorIterator (ti_function ti)
            (ti_input_descriptions ti ++ [slice_description p x direction axis])
            (ti_output_descriptions ti).
Proof.
  unfold scan_detail.slice_scan_input. intros H.
  apply bind_Ok_inv in H as (a & Ha & H).
  apply bind_Ok_inv in H as (x & Hx & H).
  apply bind_Ok_inv in H as (axis & Haxis & H).
  apply bind_Ok_inv in H as (direction & Hdir & H).
  apply bind_Ok_inv in H as (p & Hp & H).
  exists a, x, axis, direction, p. repeat split; try assumption.
  unfold slice_description, set_sliced_input in *.
  destruct (direction =? 0); simpl in H; injection H as <-; reflexivity.
Qed.

Lemma state_output_Ok_inv (bo : list Src) (i : Z) (ti ti' : TensorIterator)
  (outs outs' : list nat) :
  state_output bo i (ti, outs) = Ok (ti', outs') ->
  exists (p : nat) (x : Output) (out : Src),
    index body_inputs i = Ok p /\
    index node_inputs (size_wrap (i + in_offset)) = Ok x /\
    index bo i = Ok out /\
    ti' = mkTensorIterator (ti_function ti)
            (ti_input_descriptions ti ++ [MergedInput p x out])
            (ti_output_descriptions ti ++ [BodyOutput out (-1)]) /\
    outs' = outs ++ [length (ti_output_descriptions ti)].
Proof.
  unfold scan_detail.state_output. intros H.
  apply bind_Ok_inv in H as (p & Hp & H).
  apply bind_Ok_inv in H as (x & Hx & H).
  apply bind_Ok_inv in H as (out & Hout & H).
  injection H as <- <-. exists p, x, out. repeat split; assumption.
Qed.

Lemma scan_output_Ok_inv (st : BodyStore) (bo : list Src) (niv j : Z)
  (ti ti' : TensorIterator) (outs outs' : list nat) :
  scan_output st bo niv j (ti, outs) = Ok (ti', outs') ->
  exists (a : Z) (out : Src) (axis direction : Z),
    index scan_output_axes j = Ok a /\
    index bo (size_wrap (niv + j)) = Ok out /\
    normalize_axis node_description a (rank (get_body_partial_shape st out))
      = Ok axis /\
    index scan_output_directions j = Ok direction /\
    ti' = mkTensorIterator (ti_function ti) (ti_input_descriptions ti)
            (ti_output_descriptions ti
               ++ [concat_description out direction axis]) /\
    outs' = outs ++ [length (ti_output_descriptions ti)].
Proof.
  unfold scan_detail.scan_output. intros H.
  apply bind_Ok_inv in H as (a & Ha & H).
  apply bind_Ok_inv in H as (out & Hout & H).
  apply bind_Ok_inv in H as (axis & Haxis & H).
  apply bind_Ok_inv in H as (direction & Hdir & H).
  exists a, out, axis, direction. repeat split; try assumption;
    unfold concat_description, get_concatenated_slices in *;
    destruct (direction =? 0); simpl in H; injection H as <- <-; reflexivity.
Qed.

(** The loop that sets the slicing of the scan inputs. *)
Lemma slice_scan_inputs (niv : Z) (model : Model) (ti : TensorIterator) :
  0 <= niv -> niv + num_scan_inputs < 2 ^ 64 ->
  for_loop num_scan_inputs (slice_scan_input niv) (mkTensorIterator model [] [])
  = Ok ti ->
  ti_function ti = model /\
  ti_output_descriptions ti = [] /\
  forall i, 0 <= i < num_scan_inputs ->
    scan_input_sliced node_inputs body_inputs scan_input_axes in_offset
      node_description niv scan_input_directions ti i.
Proof.
  intros Hniv Hsmall Hrun.
  pose proof (for_loop_invariant
    (fun i t =>
       ti_function t = model /\ ti_output_descriptions t = [] /\
       forall i', 0 <= i' < i ->
         scan_input_sliced node_inputs body_inputs scan_input_axes in_offset
           node_description niv scan_input_directions t i')
    num_scan_inputs (slice_scan_input niv) (mkTensorIterator model [] []) ti)
    as Hinv.
  simpl in Hinv.
  destruct Hinv as (Hfn & Hout & Hall); [| | exact Hrun |].
  - repeat split. intros; lia.
  - intros i t1 t2 Hi (Hfn & Hout & IH) Hbody.
    apply slice_scan_input_Ok_inv in Hbody
      as (a & x & axis & direction & p & Ha & Hx & Haxis & Hdir & Hp & ->).
    rewrite (size_wrap_small (niv + i)) in Hx, Hp by lia.
    apply index_Ok_inv in Ha as [_ Ha]. apply index_Ok_inv in Hx as [_ Hx].
    apply index_Ok_inv in Hdir as [_ Hdir]. apply index_Ok_inv in Hp as [_ Hp].
    simpl. repeat split; try assumption.
    intros i' Hi'. destruct (Z.eq_dec i' i) as [->|Hne].
    + exists p, x, a, direction, axis. repeat split; try assumption.
      simpl. apply elem_of_app. right. apply list_elem_of_singleton. reflexivity.
    + destruct (IH i') as (p' & x' & a' & d' & ax' & ? & ? & ? & ? & ? & Hin);
        [lia |].
      exists p', x', a', d', ax'. repeat split; try assumption.
      simpl. apply elem_of_app. left. exact Hin.
  - repeat split; try assumption. intros i Hi. apply Hall. lia.
Qed.

(** The loop over the state variables: back edges and final values. *)
Lemma state_outputs (niv : Z) (bo0 bo : list Src) (ti1 ti : TensorIterator)
  (outs : list nat) :
  0 <= niv ->
  (forall k : nat, Z.of_nat k < niv -> bo !! k = bo0 !! k) ->
  ti_output_descriptions ti1 = [] ->
  for_loop niv (state_output bo) (ti1, []) = Ok (ti, outs) ->
  ti_function ti = ti_function ti1 /\
  (forall d, d ∈ ti_input_descriptions ti1 -> d ∈ ti_input_descriptions ti) /\
  outs = seq 0 (Z.to_nat niv) /\
  length (ti_output_descriptions ti) = Z.to_nat niv /\
  forall i, 0 <= i < niv ->
    state_variable_output node_inputs body_inputs in_offset bo0 ti i.
Proof.
  intros Hniv Hsame Hempty Hrun.
  pose proof (for_loop_invariant
    (fun i (s : TensorIterator * list nat) =>
       ti_function s.1 = ti_function ti1 /\
       (forall d, d ∈ ti_input_descriptions ti1 -> d ∈ ti_input_descriptions s.1) /\
       s.2 = seq 0 (Z.to_nat i) /\
       length (ti_output_descriptions s.1) = Z.to_nat i /\
       forall i', 0 <= i' < i ->
         state_variable_output node_inputs body_inputs in_offset bo0 s.1 i')
    niv (state_output bo) (ti1, []) (ti, outs)) as Hinv.
  simpl in Hinv.
  destruct Hinv as (Hfn & Hin & Houts & Hlen & Hall); [| | exact Hrun |].
  - rewrite Hempty. repeat split; try reflexivity; [auto | intros; lia].
  - intros i [t1 o1] [t2 o2] Hi (Hfn & Hin & Ho & Hlen & IH) Hbody.
    simpl in Hfn, Hin, Ho, Hlen, IH.
    apply state_output_Ok_inv in Hbody as (p & x & out & Hp & Hx & Hout & -> & ->).
    apply index_Ok_inv in Hp as [_ Hp]. apply index_Ok_inv in Hx as [_ Hx].
    apply index_Ok_inv in Hout as [_ Hout].
    rewrite Hsame in Hout by lia.
    simpl. split; [assumption |]. split; [| split; [| split]].
    + intros d Hd. apply elem_of_app. left. auto.
    + rewrite Ho, Hlen. replace (Z.to_nat (i + 1)) with (S (Z.to_nat i)) by lia.
      rewrite seq_S. reflexivity.
    + rewrite length_app, Hlen. simpl. lia.
    + intros i' Hi'. destruct (Z.eq_dec i' i) as [->|Hne].
      * exists p, x, out. repeat split; try assumption.
        -- simpl. apply elem_of_app. right. apply list_elem_of_singleton.
           reflexivity.
        -- simpl. rewrite lookup_app_r by lia.
           rewrite Hlen, Nat.sub_diag. reflexivity.
      * destruct (IH i') as (p' & x' & out' & ? & ? & ? & Hm & Hd); [lia |].
        exists p', x', out'. repeat split; try assumption.
        -- simpl. apply elem_of_app. left. exact Hm.
        -- simpl. apply lookup_app_l_Some. exact Hd.
  - rewrite Z.max_r in * by lia. repeat split; assumption.
Qed.

End ScanIterator.

Section ScanCore.
Context {rt : Runtime}.

Variable node_inputs : OutputVector.
Variable body_inputs : list nat.
Variable num_scan_inputs : Z.
Variable scan_input_axes scan_input_directions : list Z.
Variable scan_output_axes scan_output_directions : list Z.
Variable in_offset : Z.
Variable node_description : string.

Local Abbreviation scan_output :=
  (scan_detail.scan_output scan_output_axes scan_output_directions
     node_description).
Local Abbreviation output_aligned := (scan_output_aligned scan_output_axes).
Local Abbreviation scan_to_tensor_iterator :=
  (scan_detail.scan_to_tensor_iterator node_inputs body_inputs num_scan_inputs
     scan_input_axes scan_input_directions scan_output_axes
     scan_output_directions in_offset node_description).

(** The loop over the scan outputs: concatenated slices. *)
Lemma concatenated_outputs (niv nso : Z) (st : BodyStore) (bo0 bo : list Src)
  (ti5 ti : TensorIterator) (outs : list nat) :
  0 <= niv -> 0 <= nso -> niv + nso < 2 ^ 64 ->
  (forall j, 0 <= j < nso -> output_aligned niv st bo0 bo j) ->
  length (ti_output_descriptions ti5) = Z.to_nat niv ->
  for_loop nso (scan_output st bo niv) (ti5, seq 0 (Z.to_nat niv)) = Ok (ti, outs) ->
  ti_function ti = ti_function ti5 /\
  ti_input_descriptions ti = ti_input_descriptions ti5 /\
  outs = seq 0 (Z.to_nat (niv + nso)) /\
  (forall k d, ti_output_descriptions ti5 !! k = Some d ->
               ti_output_descriptions ti !! k = Some d) /\
  forall j, 0 <= j < nso ->
    scan_output_concatenated scan_output_axes node_description niv
      scan_output_directions bo0 st ti j.
Proof.
  intros Hniv Hnso Hsmall Haligned Hlen5 Hrun.
  pose proof (for_loop_invariant
    (fun j (s : TensorIterator * list nat) =>
       ti_function s.1 = ti_function ti5 /\
       ti_input_descriptions s.1 = ti_input_descriptions ti5 /\
       s.2 = seq 0 (Z.to_nat (niv + j)) /\
       length (ti_output_descriptions s.1) = Z.to_nat (niv + j) /\
       (forall k d, ti_output_descriptions ti5 !! k = Some d ->
                    ti_output_descriptions s.1 !! k = Some d) /\
       forall j', 0 <= j' < j ->
         scan_output_concatenated scan_output_axes node_description niv
           scan_output_directions bo0 st s.1 j')
    nso (scan_output st bo niv) (ti5, seq 0 (Z.to_nat niv)) (ti, outs)) as Hinv.
  simpl in Hinv.
  destruct Hinv as (Hfn & Hin & Houts & Hlen & Hkeep & Hall); [| | exact Hrun |].
  - rewrite Z.add_0_r. repeat split; try assumption; try reflexivity; [auto |].
    intros; lia.
  - intros j [t1 o1] [t2 o2] Hj (Hfn & Hin & Ho & Hlen & Hkeep & IH) Hbody.
    simpl in Hfn, Hin, Ho, Hlen, Hkeep, IH.
    apply scan_output_Ok_inv in Hbody
      as (a & out & axis & direction & Ha & Hout & Haxis & Hdir & -> & ->).
    rewrite size_wrap_small in Hout by lia.
    apply index_Ok_inv in Ha as [_ Ha]. apply index_Ok_inv in Hout as [_ Hout].
    apply index_Ok_inv in Hdir as [_ Hdir].
    simpl. split; [assumption |]. split; [assumption |].
    split; [| split; [| split]].
    + rewrite Ho, Hlen.
      replace (Z.to_nat (niv + (j + 1))) with (S (Z.to_nat (niv + j))) by lia.
      rewrite seq_S. reflexivity.
    + rewrite length_app, Hlen. simpl. lia.
    + intros k d Hd. apply lookup_app_l_Some. auto.
    + intros j' Hj'. destruct (Z.eq_dec j' j) as [->|Hne].
      * destruct (Haligned j Hj) as (out0 & a0 & u & c & Ho0 & Ha0 & Hb & Hu & Hc).
        rewrite Hb in Hout. injection Hout as <-.
        rewrite Ha0 in Ha. injection Ha as <-.
        exists out0, a0, u, c, direction, axis.
        repeat split; try assumption.
        simpl. rewrite lookup_app_r by lia.
        rewrite Hlen, Nat.sub_diag. reflexivity.
      * destruct (IH j')
          as (out' & a' & u & c & d' & ax' & ? & ? & ? & ? & ? & ? & Hd); [lia |].
        exists out', a', u, c, d', ax'. repeat split; try assumption.
        simpl. apply lookup_app_l_Some. exact Hd.
  - rewrite Z.max_r in * by lia. repeat split; assumption.
Qed.

(** The loops of [scan_to_tensor_iterator], one after the other. *)
Lemma scan_to_tensor_iterator_Ok_inv (body st' : BodyStore) (bo : list Src)
  (outs : OutputVector) :
  0 <= num_scan_inputs <= Z.of_nat (length body_inputs) ->
  Z.of_nat (length body_inputs) < 2 ^ 63 ->
  Z.of_nat (length bo) < 2 ^ 63 ->
  scan_to_tensor_iterator body bo = Ok (outs, st') ->
  let niv := Z.of_nat (length body_inputs) - num_scan_inputs in
  let nso := size_wrap (Z.of_nat (length bo) - niv) in
  exists (st1 st2 : BodyStore) (bo' : list Src) (ti1 ti5 ti6 : TensorIterator)
         (outs5 outs6 : list nat),
    for_loop niv
      (scan_detail.align_state_input node_inputs body_inputs in_offset) body
      = Ok st1 /\
    for_loop num_scan_inputs
      (scan_detail.align_scan_input node_inputs body_inputs scan_input_axes
         in_offset node_description niv) st1 = Ok st2 /\
    for_loop nso (scan_detail.align_scan_output scan_output_axes niv) (st2, bo)
      = Ok (st', bo') /\
    for_loop num_scan_inputs
      (scan_detail.slice_scan_input node_inputs body_inputs scan_input_axes
         scan_input_directions in_offset node_description niv)
      (mkTensorIterator (mkModel st' bo' body_inputs) [] []) = Ok ti1 /\
    for_loop niv
      (scan_detail.state_output node_inputs body_inputs in_offset bo') (ti1, [])
      = Ok (ti5, outs5) /\
    for_loop nso (scan_output st' bo' niv) (ti5, outs5) = Ok (ti6, outs6) /\
    outs = map (ti_output ti6) outs6.
Proof.
  intros Hnsi Hlen Hlenbo H niv nso.
  unfold scan_detail.scan_to_tensor_iterator in H.
  rewrite (size_wrap_small (Z.of_nat (length body_inputs) - num_scan_inputs))
    in H by lia.
  fold niv in H. fold nso in H.
  apply bind_Ok_inv in H as (st1 & H1 & H).
  apply bind_Ok_inv in H as (st2 & H2 & H).
  apply bind_Ok_inv in H as ([st3 bo'] & H3 & H).
  apply bind_Ok_inv in H as (ti1 & H4 & H).
  apply bind_Ok_inv in H as ([ti5 outs5] & H5 & H).
  apply bind_Ok_inv in H as ([ti6 outs6] & H6 & H).
  injection H as <- <-.
  exists st1, st2, bo', ti1, ti5, ti6, outs5, outs6.
  repeat split; assumption.
Qed.

(** The outputs of [scan_to_tensor_iterator]. *)
Lemma scan_to_tensor_iterator_outputs (body st' : BodyStore) (bo : list Src)
  (outs : OutputVector) :
  0 <= num_scan_inputs <= Z.of_nat (length body_inputs) ->
  Z.of_nat (length body_inputs) < 2 ^ 63 ->
  Z.of_nat (length bo) < 2 ^ 63 ->
  scan_to_tensor_iterator body bo = Ok (outs, st') ->
  let niv := Z.of_nat (length body_inputs) - num_scan_inputs in
  niv <= Z.of_nat (length bo) /\
  exists ti : TensorIterator,
    outs = map (ti_output ti) (seq 0 (length bo)) /\
    model_nodes (ti_function ti) = st' /\
    model_parameters (ti_function ti) = body_inputs /\
    (forall i, 0 <= i < niv ->
       state_variable_output node_inputs body_inputs in_offset bo ti i) /\
    (forall j, 0 <= j < Z.of_nat (length bo) - niv ->
       scan_output_concatenated scan_output_axes node_description niv
         scan_output_directions bo st' ti j) /\
    (forall i, 0 <= i < num_scan_inputs ->
       scan_input_sliced node_inputs body_inputs scan_input_axes in_offset
         node_description niv scan_input_directions ti i).
Proof.
  intros Hnsi Hlen Hlenbo H niv.
  destruct (scan_to_tensor_iterator_Ok_inv _ _ _ _ Hnsi Hlen Hlenbo H)
    as (st1 & st2 & bo' & ti1 & ti5 & ti6 & outs5 & outs6
        & H1 & H2 & H3 & H4 & H5 & H6 & ->).
  fold niv in H1, H2, H3, H4, H5, H6.
  assert (Hniv : 0 <= niv < 2 ^ 63) by (unfold niv; lia).
  apply align_scan_outputs in H3 as (Hle & _ & Hlen' & Hsame & Haligned);
    [| assumption | assumption].
  rewrite size_wrap_small in H6 by lia.
  apply slice_scan_inputs in H4 as (Hfn1 & Hout1 & Hsliced); [| lia | unfold niv; lia].
  apply (state_outputs _ _ _ _ bo) in H5
    as (Hfn5 & Hin5 & -> & Hlen5 & Hstates); [| lia | assumption | assumption].
  apply (concatenated_outputs _ _ _ bo) in H6
    as (Hfn6 & Hin6 & -> & Hkeep & Hconcat); [| lia | lia | lia | assumption | assumption].
  split; [assumption |].
  exists ti6. split; [| split; [| split; [| split; [| split]]]].
  - replace (Z.to_nat (niv + (Z.of_nat (length bo) - niv))) with (length bo) by lia.
    reflexivity.
  - rewrite Hfn6, Hfn5, Hfn1. reflexivity.
  - rewrite Hfn6, Hfn5, Hfn1. reflexivity.
  - intros i Hi. destruct (Hstates i Hi) as (p & x & out & ? & ? & ? & Hm & Hd).
    exists p, x, out. repeat split; try assumption.
    + rewrite Hin6. exact Hm.
    + apply Hkeep. exact Hd.
  - exact Hconcat.
  - intros i Hi.
    destruct (Hsliced i Hi) as (p & x & a & d & ax & ? & ? & ? & ? & ? & Hs).
    exists p, x, a, d, ax. repeat split; try assumption.
    rewrite Hin6. apply Hin5. exact Hs.
Qed.

(** The body [scan_to_tensor_iterator] leaves behind. *)
Lemma scan_to_tensor_iterator_body (body st' : BodyStore) (bo : list Src)
  (outs : OutputVector) :
  0 <= num_scan_inputs <= Z.of_nat (length body_inputs) ->
  Z.of_nat (length body_inputs) < 2 ^ 63 ->
  Z.of_nat (length bo) < 2 ^ 63 ->
  NoDup body_inputs ->
  scan_to_tensor_iterator body bo = Ok (outs, st') ->
  let niv := Z.of_nat (length body_inputs) - num_scan_inputs in
  forall i, 0 <= i < num_scan_inputs ->
    scan_input_aligned node_inputs body_inputs scan_input_axes in_offset
      node_description niv body st' i.
Proof.
  intros Hnsi Hlen Hlenbo Hnodup H niv i Hi.
  destruct (scan_to_tensor_iterator_Ok_inv _ _ _ _ Hnsi Hlen Hlenbo H)
    as (st1 & st2 & bo' & ti1 & ti5 & ti6 & outs5 & outs6
        & H1 & H2 & H3 & _).
  fold niv in H1, H2, H3.
  assert (Hniv : 0 <= niv < 2 ^ 63) by (unfold niv; lia).
  apply align_scan_outputs in H3 as (_ & [extra ->] & _);
    [| assumption | assumption].
  pose proof (align_state_inputs_args _ _ _ _ _ _ H1) as Hargs.
  pose proof (align_scan_inputs node_inputs body_inputs num_scan_inputs
                scan_input_axes in_offset node_description body st1 st2
                Hnsi Hlen Hnodup
                (fun p => pending_after_states body st1 p Hargs) H2 i Hi)
    as (p & x & a & Hp & Hx & Ha & Hsq & Hext).
  exists p, x, a. repeat split; try assumption.
  - apply squeezed_consumers_app. exact Hsq.
  - intros dims Hdims. destruct (Hext dims Hdims) as (ax & Hax & Hunit).
    exists ax. split; [assumption | apply unit_extent_app; assumption].
Qed.

End ScanCore.

(** ** scan: the translation of a node *)

Lemma vector_fill_Ok_inv (count value : Z) (l : list Z) :
  vector_fill count value = Ok l ->
  l = replicate (Z.to_nat (size_wrap count)) value.
Proof.
  unfold vector_fill. destruct (vector_max_size <? size_wrap count); congruence.
Qed.

Section ScanNode.
Context {rt : Runtime}.

Lemma scan_translated_import (node node' : Node) (outs : OutputVector)
  (default_axis in_offset : Z) (directions_name : string) :
  scan_translated node node' outs default_axis in_offset directions_name ->
  scan_detail.import_onnx_scan node default_axis in_offset directions_name
  = Ok (outs, node').
Proof.
  intros [(H & -> & -> & ->) | (H & -> & -> & ->)].
  - unfold set_1_scan.scan in H.
    apply bind_Ok_inv in H as (lens & _ & H).
    apply bind_Ok_inv in H as (u & _ & H). exact H.
  - exact H.
Qed.

(** A translation that ends normally has read a number of scan inputs
    between 0 and the number of parameters of the body. *)
Lemma import_onnx_scan_range (node node' : Node) (outs : OutputVector)
  (default_axis in_offset : Z) (directions_name : string)
  (g : Subgraph) (nsi : Z) :
  get_subgraphs node !! "body" = Some g ->
  get_attribute_value_int node "num_scan_inputs" = Ok nsi ->
  - 2 ^ 63 <= nsi <= 2 ^ 63 - 1 ->
  Z.of_nat (length (sg_parameters g)) < 2 ^ 63 ->
  scan_detail.import_onnx_scan node default_axis in_offset directions_name
  = Ok (outs, node') ->
  0 <= nsi <= Z.of_nat (length (sg_parameters g)).
Proof.
  intros Hbody Hnsi Hint Hlen H.
  unfold scan_detail.import_onnx_scan in H.
  rewrite Hbody, Hnsi in H. simpl in H.
  apply bind_Ok_inv in H as (d1 & Hd1 & H).
  assert (H0 : 0 <= nsi).
  { destruct (Z.le_gt_cases 0 nsi) as [|Hneg]; [assumption |]. exfalso.
    unfold vector_fill, vector_max_size in Hd1.
    assert (Hw : size_wrap nsi = nsi + 2 ^ 64).
    { unfold size_wrap. replace nsi with (nsi + 2 ^ 64 + (-1) * 2 ^ 64) at 1 by lia.
      rewrite Z.mod_add by lia. apply Z.mod_small. lia. }
    rewrite Hw in Hd1.
    destruct (Z.ltb_spec ((2 ^ 63 - 1) / 8) (nsi + 2 ^ 64)) as [_|Hge];
      [discriminate |].
    assert ((2 ^ 63 - 1) / 8 < 2 ^ 63) by (apply Z.div_lt_upper_bound; lia).
    lia. }
  split; [exact H0 |].
  destruct (Z.le_gt_cases nsi (Z.of_nat (length (sg_parameters g))))
    as [|Hgt]; [assumption |]. exfalso.
  do 7 (apply bind_Ok_inv in H as (? & _ & H)).
  apply bind_Ok_inv in H as ([outs0 st'] & Hcore & _).
  unfold scan_detail.scan_to_tensor_iterator in Hcore.
  apply bind_Ok_inv in Hcore as (st1 & Hloop & _).
  assert (Hw : size_wrap (Z.of_nat (length (sg_parameters g)) - nsi)
               = Z.of_nat (length (sg_parameters g)) - nsi + 2 ^ 64).
  { unfold size_wrap.
    replace (Z.of_nat (length (sg_parameters g)) - nsi)
      with (Z.of_nat (length (sg_parameters g)) - nsi + 2 ^ 64 + (-1) * 2 ^ 64)
      at 1 by lia.
    rewrite Z.mod_add by lia. apply Z.mod_small. lia. }
  rewrite Hw in Hloop.
  destruct (for_loop_iteration _ _ _ _ (Z.of_nat (length (sg_parameters g)))
              Hloop) as (s1 & s2 & Hiter); [lia |].
  unfold scan_detail.align_state_input in Hiter.
  apply bind_Ok_inv in Hiter as (p & Hp & _).
  apply index_Ok_lt in Hp. lia.
Qed.

Lemma import_onnx_scan_Ok_inv (node node' : Node) (outs : OutputVector)
  (default_axis in_offset : Z) (directions_name : string)
  (g : Subgraph) (nsi : Z) :
  get_subgraphs node !! "body" = Some g ->
  get_attribute_value_int node "num_scan_inputs" = Ok nsi ->
  0 <= nsi <= Z.of_nat (length (sg_parameters g)) ->
  Z.of_nat (length (sg_parameters g)) < 2 ^ 63 ->
  scan_detail.import_onnx_scan node default_axis in_offset directions_name
  = Ok (outs, node') ->
  let niv := Z.of_nat (length (sg_parameters g)) - nsi in
  let nso := size_wrap (Z.of_nat (length (sg_outputs g)) - niv) in
  exists (axes_in dirs_in axes_out dirs_out : list Z) (st' : BodyStore),
    get_attribute_value_ints_or node "scan_input_axes"
      (replicate (Z.to_nat nsi) default_axis) = Ok axes_in /\
    get_attribute_value_ints_or node directions_name
      (replicate (Z.to_nat nsi) 0) = Ok dirs_in /\
    get_attribute_value_ints_or node "scan_output_axes"
      (replicate (Z.to_nat nso) default_axis) = Ok axes_out /\
    get_attribute_value_ints_or node "scan_output_directions"
      (replicate (Z.to_nat nso) 0) = Ok dirs_out /\
    scan_detail.scan_to_tensor_iterator (get_ng_inputs node) (sg_parameters g)
      nsi axes_in dirs_in axes_out dirs_out in_offset (get_description node)
      (sg_nodes g) (sg_outputs g) = Ok (outs, st') /\
    node' = scan_detail.with_body node g st'.
Proof.
  intros Hbody Hnsi Hrange Hlen H niv nso.
  unfold scan_detail.import_onnx_scan in H.
  rewrite Hbody, Hnsi in H. simpl in H.
  rewrite (size_wrap_small (Z.of_nat (length (sg_parameters g)) - nsi))
    in H by lia.
  fold niv in H. fold nso in H.
  apply bind_Ok_inv in H as (d1 & Hd1 & H).
  apply vector_fill_Ok_inv in Hd1. rewrite size_wrap_small in Hd1 by lia.
  apply bind_Ok_inv in H as (axes_in & Hai & H).
  apply bind_Ok_inv in H as (d2 & Hd2 & H).
  apply vector_fill_Ok_inv in Hd2. rewrite size_wrap_small in Hd2 by lia.
  apply bind_Ok_inv in H as (dirs_in & Hdi & H).
  apply bind_Ok_inv in H as (d3 & Hd3 & H).
  apply vector_fill_Ok_inv in Hd3.
  apply bind_Ok_inv in H as (axes_out & Hao & H).
  apply bind_Ok_inv in H as (d4 & Hd4 & H).
  apply vector_fill_Ok_inv in Hd4.
  apply bind_Ok_inv in H as (dirs_out & Hdo & H).
  apply bind_Ok_inv in H as ([outs0 st'] & Hcore & H).
  injection H as <- <-. subst d1 d2 d3 d4.
  assert (Hnso : size_wrap nso = nso).
  { unfold nso, size_wrap. apply Z.mod_mod. lia. }
  rewrite Hnso in Hao, Hdo.
  exists axes_in, dirs_in, axes_out, dirs_out, st'.
  repeat split; assumption.
Qed.

(** C2: the translation of a scan node, of opset 1 or 9, returns as many
    outputs as the body has, all of them outputs of one TensorIterator in
    the order of their index: first, for each of the
    [num_initial_values] state variables (the number of parameters of the
    body minus num_scan_inputs), the value at the last iteration of a body
    output merged with the state variable by a back edge; then, for each
    scan output, the concatenated slices of the (unsqueezed) body output
    along its scan axis.  Scan inputs are sliced and scan outputs
    concatenated in reverse (start -1, stride -1) when their direction is
    1, forward (start 0, stride 1) when it is 0. *)
Theorem scan_outputs (node node' : Node) (outs : OutputVector)
  (default_axis in_offset : Z) (directions_name : string)
  (g : Subgraph) (nsi : Z)
  (Hscan :
     scan_translated node node' outs default_axis in_offset directions_name)
  (Hbody : get_subgraphs node !! "body" = Some g)
  (Hnsi : get_attribute_value_int node "num_scan_inputs" = Ok nsi)
  (Hint64 : - 2 ^ 63 <= nsi <= 2 ^ 63 - 1)
  (Hparameters : Z.of_nat (length (sg_parameters g)) < 2 ^ 63)
  (Houtputs : Z.of_nat (length (sg_outputs g)) < 2 ^ 63) :
  let niv := Z.of_nat (length (sg_parameters g)) - nsi in
  let nso := Z.of_nat (length (sg_outputs g)) - niv in
  length outs = length (sg_outputs g) /\
  0 <= nsi /\ 0 <= niv /\ 0 <= nso /\
  exists (ti : TensorIterator) (axes_in dirs_in axes_out dirs_out : list Z),
    get_attribute_value_ints_or node "scan_input_axes"
      (replicate (Z.to_nat nsi) default_axis) = Ok axes_in /\
    get_attribute_value_ints_or node directions_name
      (replicate (Z.to_nat nsi) 0) = Ok dirs_in /\
    get_attribute_value_ints_or node "scan_output_axes"
      (replicate (Z.to_nat nso) default_axis) = Ok axes_out /\
    get_attribute_value_ints_or node "scan_output_directions"
      (replicate (Z.to_nat nso) 0) = Ok dirs_out /\
    outs = map (ti_output ti) (seq 0 (length (sg_outputs g))) /\
    (forall i, 0 <= i < niv ->
       state_variable_output (get_ng_inputs node) (sg_parameters g) in_offset
         (sg_outputs g) ti i) /\
    (forall j, 0 <= j < nso ->
       scan_output_concatenated axes_out (get_description node) niv dirs_out
         (sg_outputs g) (model_nodes (ti_function ti)) ti j) /\
    (forall i, 0 <= i < nsi ->
       scan_input_sliced (get_ng_inputs node) (sg_parameters g) axes_in
         in_offset (get_description node) niv dirs_in ti i) /\
    (forall p x axis,
       slice_description p x 1 axis = SliceInput p x (-1) (-1) 1 0 axis /\
       slice_description p x 0 axis = SliceInput p x 0 1 1 (-1) axis) /\
    (forall out axis,
       concat_description out 1 axis = ConcatOutput out (-1) (-1) 1 0 axis /\
       concat_description out 0 axis = ConcatOutput out 0 1 1 (-1) axis).
Proof.
  intros niv nso.
  apply scan_translated_import in Hscan.
  pose proof (import_onnx_scan_range _ _ _ _ _ _ _ _ Hbody Hnsi Hint64
                Hparameters Hscan) as Hrange.
  destruct (import_onnx_scan_Ok_inv _ _ _ _ _ _ _ _ Hbody Hnsi Hrange
              Hparameters Hscan)
    as (axes_in & dirs_in & axes_out & dirs_out & st'
        & Hai & Hdi & Hao & Hdo & Hcore & ->).
  fold niv in Hao, Hdo.
  destruct (scan_to_tensor_iterator_outputs _ _ _ _ _ _ _ _ _ _ _ _ _
              Hrange Hparameters Houtputs Hcore)
    as (Hle & ti & -> & Hnodes & Hparams & Hstates & Hconcat & Hsliced).
  fold niv in Hle, Hstates, Hconcat, Hsliced.
  rewrite (size_wrap_small (Z.of_nat (length (sg_outputs g)) - niv))
    in Hao, Hdo by lia.
  split; [rewrite length_map, length_seq; reflexivity |].
  split; [lia |]. split; [unfold niv; lia |]. split; [unfold nso; lia |].
  exists ti, axes_in, dirs_in, axes_out, dirs_out.
  rewrite Hnodes.
  repeat split; assumption.
Qed.

(** C9: the translation of a scan node, of opset 1 or 9, leaves the body
    of the node rewritten: for every scan input, the consumers its
    parameter had consume a Squeeze of the parameter along the scan axis
    (one Squeeze for all of them, its axes operand the constant
    scan_input_axes entry; for a parameter without consumers no Squeeze is
    left), and, when the rank of the scan input is static, the parameter
    has the shape of the input with extent 1 at the normalized scan
    axis. *)
Theorem scan_body_rewritten (node node' : Node) (outs : OutputVector)
  (default_axis in_offset : Z) (directions_name : string)
  (g : Subgraph) (nsi : Z)
  (Hscan :
     scan_translated node node' outs default_axis in_offset directions_name)
  (Hbody : get_subgraphs node !! "body" = Some g)
  (Hnsi : get_attribute_value_int node "num_scan_inputs" = Ok nsi)
  (Hint64 : - 2 ^ 63 <= nsi <= 2 ^ 63 - 1)
  (Hparameters : Z.of_nat (length (sg_parameters g)) < 2 ^ 63)
  (Houtputs : Z.of_nat (length (sg_outputs g)) < 2 ^ 63)
  (Hdistinct : NoDup (sg_parameters g)) :
  let niv := Z.of_nat (length (sg_parameters g)) - nsi in
  exists (st' : BodyStore) (axes_in : list Z),
    get_subgraphs node' !! "body"
      = Some (mkSubgraph st' (sg_parameters g) (sg_outputs g)) /\
    get_attribute_value_ints_or node "scan_input_axes"
      (replicate (Z.to_nat nsi) default_axis) = Ok axes_in /\
    forall i, 0 <= i < nsi ->
      scan_input_aligned (get_ng_inputs node) (sg_parameters g) axes_in
        in_offset (get_description node) niv (sg_nodes g) st' i.
Proof.
  intros niv.
  apply scan_translated_import in Hscan.
  pose proof (import_onnx_scan_range _ _ _ _ _ _ _ _ Hbody Hnsi Hint64
                Hparameters Hscan) as Hrange.
  destruct (import_onnx_scan_Ok_inv _ _ _ _ _ _ _ _ Hbody Hnsi Hrange
              Hparameters Hscan)
    as (axes_in & dirs_in & axes_out & dirs_out & st'
        & Hai & Hdi & Hao & Hdo & Hcore & ->).
  exists st', axes_in. split; [| split; [assumption |]].
  - unfold scan_detail.with_body. simpl. apply lookup_insert_eq.
  - apply (scan_to_tensor_iterator_body _ _ _ _ _ _ _ _ _ _ _ _ _
             Hrange Hparameters Houtputs Hdistinct Hcore).
Qed.

End ScanNode.

Lemma scan_outputs_witness :
  length example_scan9_result.1 = length (sg_outputs example_body) /\
  0 <= Z.of_nat (length (sg_outputs example_body))
       - (Z.of_nat (length (sg_parameters example_body)) - 1).
Proof.
  assert (Hscan :
    @scan_translated example_runtime example_scan9_node example_scan9_result.2
      example_scan9_result.1 0 0 "scan_input_directions").
  { right. split; [vm_compute; reflexivity | repeat split]. }
  destruct (@scan_outputs example_runtime example_scan9_node
              example_scan9_result.2 example_scan9_result.1
              0 0 "scan_input_directions" example_body 1 Hscan)
    as (Hlen & _ & _ & Hnso & _).
  - reflexivity.
  - reflexivity.
  - lia.
  - simpl. lia.
  - simpl. lia.
  - split; [exact Hlen | exact Hnso].
Defined.

Lemma scan_body_rewritten_witness :
  exists (st' : BodyStore) (axes_in : list Z),
    get_subgraphs example_scan8_result.2 !! "body"
      = Some (mkSubgraph st' (sg_parameters example_body)
                (sg_outputs example_body)) /\
    get_attribute_value_ints_or example_scan8_node "scan_input_axes"
      (replicate (Z.to_nat 1) 1) = Ok axes_in /\
    forall i, 0 <= i < 1 ->
      @scan_input_aligned example_runtime (get_ng_inputs example_scan8_node)
        (sg_parameters example_body) axes_in 1
        (get_description example_scan8_node)
        (Z.of_nat (length (sg_parameters example_body)) - 1)
        (sg_nodes example_body) st' i.
Proof.
  assert (Hscan :
    @scan_translated example_runtime example_scan8_node example_scan8_result.2
      example_scan8_result.1 1 1 "directions").
  { left. split; [vm_compute; reflexivity | repeat split]. }
  apply (@scan_body_rewritten example_runtime example_scan8_node
           example_scan8_result.2 example_scan8_result.1
           1 1 "directions" example_body 1 Hscan).
  - reflexivity.
  - reflexivity.
  - lia.
  - simpl. lia.
  - simpl. lia.
  - simpl. apply NoDup_cons. split; [| apply NoDup_singleton].
    rewrite list_elem_of_singleton. discriminate.
Defined.

(** * Further properties *)

(** ** stft: how a call ends *)

Section StftErrors.
Context {rt : Runtime}.

Import set_17_stft.

Lemma index_Err {A : Type} (v : list A) (i : Z) (e : error) :
  index v i = Err e -> undefined e.
Proof.
  unfold index, undefined. destruct (i <? 0); [intros [= <-]; eauto |].
  destruct (v !! Z.to_nat i); [discriminate | intros [= <-]; eauto].
Qed.

Lemma constant_value0_Err (o : Output) (e : error) :
  constant_value0 o = Err e -> undefined e.
Proof.
  unfold constant_value0, cast_vector_int64.
  destruct o as [| | et shape [values|values] | | | | | | | | | | | |];
    simpl; try (intros [= <-]; eexists; reflexivity);
    apply index_Err.
Qed.

Lemma at_Err {A : Type} (v : list A) (i : nat) (e : error) :
  at_ v i = Err e -> e = OutOfRange.
Proof. unfold at_. destruct (v !! i); congruence. Qed.

Lemma get_attribute_value_int_or_Err (node : Node) (name : string)
  (default : Z) (e : error) :
  get_attribute_value_int_or node name default = Err e ->
  e = InvalidAttribute name.
Proof.
  unfold get_attribute_value_int_or.
  destruct (find_attribute (attributes node) name) as [[| | |]|]; congruence.
Qed.

Lemma validation_message (msg : string) :
  msg ∈ stft_messages -> stft_error (ValidationError msg).
Proof. intros H. right. right. right. eauto. Qed.

Lemma undefined_stft_error (e : error) : undefined e -> stft_error e.
Proof. intros H. right. right. left. exact H. Qed.

Lemma check_window_Err (window : option Output) (frame_length : Z) (e : error) :
  check_window window frame_length = Err e -> stft_error e.
Proof.
  unfold check_window. destruct window as [w|]; [| discriminate].
  destruct (get_partial_shape w) as [|dims]; [discriminate |].
  destruct (length dims =? 1)%nat; simpl.
  - destruct (dims !! 0%nat) as [[len|]|]; try discriminate.
    destruct (len =? frame_length); simpl; [discriminate |].
    intros [= <-]. apply validation_message. unfold stft_messages. set_solver.
  - intros [= <-]. apply validation_message. unfold stft_messages. set_solver.
Qed.

Lemma stft_construct_Err (ng_inputs : OutputVector) (signal : Output)
  (dft_length : option Output) (onesided frame_step frame_length B L D : Z)
  (e : error) :
  get_partial_shape signal = RankStatic [DimStatic B; DimStatic L; DimStatic D] ->
  stft_construct ng_inputs signal dft_length onesided frame_step frame_length
  = Err e ->
  stft_error e.
Proof.
  intros Hshape. unfold stft_construct.
  destruct (check_window (provided ng_inputs 2) frame_length) as [u|e1] eqn:Hw;
    simpl.
  2:{ intros [= <-]. eapply check_window_Err, Hw. }
  assert (Hcheck :
    forall e1,
      (if onesided =? 1
       then let* signal_complex := is_complex signal in
            CHECK_VALID_NODE (negb signal_complex)
              "If attribute onesided==1, signal input can NOT be complex."
       else Ok tt) = Err e1 -> stft_error e1).
  { intros e1. destruct (onesided =? 1); [| discriminate].
    rewrite (innermost_rank3 _ _ _ _ Hshape). simpl.
    destruct (innermost_is_2 signal); simpl; [| discriminate].
    intros [= <-]. apply validation_message. unfold stft_messages. set_solver. }
  match goal with
  | |- bind ?check _ = _ -> _ => destruct check as [u1|e1] eqn:Hc; simpl
  end.
  2:{ intros [= <-]. apply Hcheck. reflexivity. }
  clear Hcheck. rewrite Hshape. simpl. unfold sub64, add64.
  destruct (checked (L - frame_length)) as [remaining|e1] eqn:H1; simpl.
  2:{ intros [= <-]. eapply undefined_stft_error, checked_Err, H1. }
  destruct (div64 remaining frame_step) as [quotient|e1] eqn:H2; simpl.
  2:{ intros [= <-]. eapply undefined_stft_error, div64_Err, H2. }
  destruct (checked (quotient + 1)) as [nstfts|e1] eqn:H3; simpl.
  2:{ intros [= <-]. eapply undefined_stft_error, checked_Err, H3. }
  match goal with
  | |- bind ?loop _ = _ -> _ => destruct loop as [all|e1] eqn:H4; simpl
  end; [discriminate |].
  intros [= <-]. eapply undefined_stft_error, stft_batches_Err, H4.
Qed.

(** X1: a call of stft that does not return ends with std::out_of_range
    (an input 0 or 1 is missing), with the error of an onesided attribute
    that is not an integer, with one of the six validation messages, or
    in undefined behaviour; it raises nothing else. *)
Theorem stft_ends (node : Node) (e : error)
  (Herr : stft node = Err e) :
  stft_error e.
Proof.
  revert Herr. unfold stft.
  destruct (at_ (get_ng_inputs node) 0) as [signal|e0] eqn:H0; simpl.
  2:{ intros [= <-]. apply at_Err in H0 as ->. left. reflexivity. }
  destruct (get_attribute_value_int_or node "onesided" 1) as [onesided|ea]
    eqn:Ha; simpl.
  2:{ intros [= <-]. apply get_attribute_value_int_or_Err in Ha as ->.
      right. left. reflexivity. }
  destruct (at_ (get_ng_inputs node) 1) as [fsn|e1] eqn:H1; simpl.
  2:{ intros [= <-]. apply at_Err in H1 as ->. left. reflexivity. }
  destruct (is_scalar_constant fsn); simpl.
  2:{ intros [= <-]. apply validation_message. unfold stft_messages. set_solver. }
  destruct (constant_value0 fsn) as [fs|e2] eqn:H2; simpl.
  2:{ intros [= <-]. eapply undefined_stft_error, constant_value0_Err, H2. }
  destruct (is_static_rank3 (get_partial_shape signal)) eqn:H3; simpl.
  2:{ intros [= <-]. apply validation_message. unfold stft_messages. set_solver. }
  apply is_static_rank3_inv in H3 as (B & L & D & Hshape).
  rewrite Hshape at 1. simpl.
  destruct (div64 L fs) as [dfl|e4] eqn:H4; simpl.
  2:{ intros [= <-]. eapply undefined_stft_error, div64_Err, H4. }
  destruct (provided (get_ng_inputs node) 3) as [l|].
  - destruct (is_scalar_constant l); simpl.
    2:{ intros [= <-]. apply validation_message. unfold stft_messages.
        set_solver. }
    destruct (constant_value0 l) as [fl|e5] eqn:H5; simpl.
    2:{ intros [= <-]. eapply undefined_stft_error, constant_value0_Err, H5. }
    apply (stft_construct_Err _ _ _ _ _ _ B L D). exact Hshape.
  - simpl. apply (stft_construct_Err _ _ _ _ _ _ B L D). exact Hshape.
Qed.

End StftErrors.

(** ** stft: the order of the checks, constants without elements *)

Section StftChecks.
Context {rt : Runtime}.

Import set_17_stft.

(** X2: the checks of stft are made in the order frame_step, signal,
    dft_length.  A frame_step input that is not a constant of at most one
    element is reported whatever the other inputs are; a signal that is
    not static of rank 3 is reported next, also when the frame step is 0;
    a dft_length input that is not a constant of at most one element is
    reported before the window and the onesided attribute are looked at. *)
Theorem stft_check_order (node : Node) (signal frame_step_node : Output)
  (onesided : Z)
  (Hsignal : get_ng_inputs node !! 0%nat = Some signal)
  (Hstep : get_ng_inputs node !! 1%nat = Some frame_step_node)
  (Honesided : get_attribute_value_int_or node "onesided" 1 = Ok onesided) :
  (is_scalar_constant frame_step_node = false ->
   stft node
   = Err (ValidationError
            "frame_step input must be a scalar or Shape{1} constant.")) /\
  (forall v,
     is_scalar_constant frame_step_node = true ->
     constant_value0 frame_step_node = Ok v ->
     is_static_rank3 (get_partial_shape signal) = false ->
     stft node
     = Err (ValidationError
              "Shape of signal input must be static with the rank equal to 3.")) /\
  (forall v l,
     is_scalar_constant frame_step_node = true ->
     constant_value0 frame_step_node = Ok v ->
     v <> 0 ->
     is_static_rank3 (get_partial_shape signal) = true ->
     static_dims_below (2 ^ 63) (get_partial_shape signal) ->
     provided (get_ng_inputs node) 3 = Some l ->
     is_scalar_constant l = false ->
     stft node
     = Err (ValidationError
              "frame_length input must be a scalar or Shape{1} constant.")).
Proof.
  unfold stft.
  rewrite (at_Some _ _ _ Hsignal), (at_Some _ _ _ Hstep). simpl.
  rewrite Honesided. simpl.
  split; [| split].
  - intros ->. reflexivity.
  - intros v -> -> ->. reflexivity.
  - intros v l -> -> Hv Hrank Hdims -> ->. simpl. rewrite Hrank. simpl.
    apply is_static_rank3_inv in Hrank as (B & L & D & Hshape).
    rewrite Hshape in *. simpl in Hdims.
    apply Forall_cons in Hdims as [_ Hdims].
    apply Forall_cons in Hdims as [HL _]. simpl.
    rewrite div64_Ok by (try assumption; lia). reflexivity.
Qed.

(** X3: a frame_step constant without elements passes the check of the
    frame_step input, since the number of its elements is at most 1, and
    reading its first element is then undefined. *)
Theorem stft_empty_frame_step (node : Node) (signal : Output)
  (et : ElementType) (shape : Shape) (data : ConstData) (onesided : Z)
  (Hsignal : get_ng_inputs node !! 0%nat = Some signal)
  (Hstep : get_ng_inputs node !! 1%nat = Some (v0_Constant et shape data))
  (Honesided : get_attribute_value_int_or node "onesided" 1 = Ok onesided)
  (Hsize : (shape_size shape <= 1)%N)
  (Hempty : data = IntData [] \/ data = FloatData []) :
  is_scalar_constant (v0_Constant et shape data) = true /\
  stft node = Err (UndefinedBehaviour "index out of range").
Proof.
  assert (Hcheck : is_scalar_constant (v0_Constant et shape data) = true).
  { unfold is_scalar_constant. simpl. apply N.leb_le. exact Hsize. }
  split; [exact Hcheck |].
  unfold stft.
  rewrite (at_Some _ _ _ Hsignal), (at_Some _ _ _ Hstep). simpl.
  rewrite Honesided. simpl. rewrite Hcheck. simpl.
  destruct Hempty as [-> | ->]; reflexivity.
Qed.

Lemma take_lookup {A : Type} (n i : nat) (l1 l2 : list A) :
  take n l1 = take n l2 -> (i < n)%nat -> l1 !! i = l2 !! i.
Proof.
  intros H Hi. rewrite <- (lookup_take_lt l1 n i), <- (lookup_take_lt l2 n i) by lia.
  rewrite H. reflexivity.
Qed.

(** X4: stft reads the first four inputs of its node and the attribute
    onesided, and nothing else: nodes that agree on these are translated
    alike, and fail alike. *)
Theorem stft_reads (n1 n2 : Node)
  (Hsame : same_stft_arguments n1 n2) :
  stft n1 = stft n2.
Proof.
  destruct Hsame as [Hin Hattr].
  assert (H0 := take_lookup 4 0 _ _ Hin ltac:(lia)).
  assert (H1 := take_lookup 4 1 _ _ Hin ltac:(lia)).
  assert (H2 := take_lookup 4 2 _ _ Hin ltac:(lia)).
  assert (H3 := take_lookup 4 3 _ _ Hin ltac:(lia)).
  unfold stft, stft_construct, provided, at_, get_attribute_value_int_or.
  rewrite H0, H1, H2, H3, Hattr. reflexivity.
Qed.

End StftChecks.

Lemma stft_check_order_witness :
  @set_17_stft.stft example_runtime example_stft_unchecked_node
  = Err (ValidationError
           "Shape of signal input must be static with the rank equal to 3.").
Proof.
  destruct (@stft_check_order example_runtime example_stft_unchecked_node
              example_dynamic_signal (example_frame_step 0) 1
              eq_refl eq_refl eq_refl) as (_ & Hsecond & _).
  apply (Hsecond 0); reflexivity.
Defined.

Lemma stft_empty_frame_step_witness :
  @set_17_stft.is_scalar_constant example_empty_constant = true /\
  @set_17_stft.stft example_runtime example_stft_empty_step_node
  = Err (UndefinedBehaviour "index out of range").
Proof.
  apply (@stft_empty_frame_step example_runtime example_stft_empty_step_node
           example_signal i64 [0%N] (IntData []) 1 eq_refl eq_refl eq_refl).
  - vm_compute. discriminate.
  - left. reflexivity.
Defined.

Lemma stft_reads_witness :
  @set_17_stft.stft example_runtime example_stft_extended_node
  = @set_17_stft.stft example_runtime example_stft_plain_node.
Proof.
  apply (@stft_reads example_runtime example_stft_extended_node
           example_stft_plain_node).
  split; reflexivity.
Defined.

Lemma stft_ends_witness :
  stft_error
    (ValidationError "frame_length input must be a scalar or Shape{1} constant.").
Proof.
  apply (@stft_ends example_runtime example_stft_dft_length_node).
  vm_compute. reflexivity.
Defined.

(** ** stft: where the frames lie *)

Lemma quot_floor (a step : Z) :
  0 < step -> 0 <= a ->
  step * Z.quot a step <= a < step * (Z.quot a step + 1).
Proof.
  intros Hstep Ha. pose proof (Z.quot_rem' a step) as Hqr.
  pose proof (Z.rem_bound_pos a step Ha Hstep). lia.
Qed.

Lemma quot_of_negative (a step : Z) :
  0 < step -> a < 0 ->
  (- step < a -> Z.quot a step = 0) /\ (a <= - step -> Z.quot a step <= -1).
Proof.
  intros Hstep Ha. pose proof (Z.quot_rem' a step) as Hqr.
  assert (Hle : a <= 0) by lia.
  pose proof (Z.rem_bound_pos_neg a step Hstep Hle).
  split; intros H'; nia.
Qed.

Lemma range_empty (n : Z) : n <= 0 -> range n = [].
Proof. intros H. unfold range. replace (Z.to_nat n) with 0%nat by lia. reflexivity. Qed.

Section StftFit.
Context {rt : Runtime}.

Import set_17_stft.

(** The output of a call that returns, by the values the call read. *)
Lemma stft_Ok_graph (node : Node) (outs : OutputVector)
  (signal frame_step_node : Output) (B L D : Z) :
  get_ng_inputs node !! 0%nat = Some signal ->
  get_ng_inputs node !! 1%nat = Some frame_step_node ->
  get_partial_shape signal = RankStatic [DimStatic B; DimStatic L; DimStatic D] ->
  stft node = Ok outs ->
  let window := provided (get_ng_inputs node) 2 in
  let dft_length := provided (get_ng_inputs node) 3 in
  let frame_step := int64_value0 frame_step_node in
  let frame_length := stft_frame_length signal frame_step_node dft_length in
  frame_step <> 0 /\
  exists onesided,
    get_attribute_value_int_or node "onesided" 1 = Ok onesided /\
    outs = [stft_graph signal window dft_length onesided frame_step frame_length
              B (Z.quot (L - frame_length) frame_step + 1)].
Proof.
  intros Hsignal Hstep Hshape H window dft_length frame_step frame_length.
  unfold stft in H.
  rewrite (at_Some _ _ _ Hsignal), (at_Some _ _ _ Hstep) in H. simpl in H.
  apply bind_Ok_inv in H as (onesided & Honesided & H).
  apply bind_Ok_inv in H as (u1 & _ & H).
  apply bind_Ok_inv in H as (fs & Hfs & H).
  apply bind_Ok_inv in H as (u2 & _ & H).
  rewrite Hshape in H at 1. simpl in H.
  apply bind_Ok_inv in H as (dfl & Hdfl & H).
  apply div64_Ok_inv in Hdfl as [Hnz ->].
  apply bind_Ok_inv in H as (fl & Hfl & H).
  assert (Hstep_value : frame_step = fs).
  { unfold frame_step, int64_value0. rewrite Hfs. reflexivity. }
  assert (Hlength_value : frame_length = fl).
  { unfold frame_length, stft_frame_length, dft_length.
    destruct (provided (get_ng_inputs node) 3) as [l|].
    - apply bind_Ok_inv in Hfl as (u & _ & Hfl).
      unfold int64_value0. rewrite Hfl. reflexivity.
    - injection Hfl as <-. unfold axis_length. rewrite Hshape. simpl.
      fold frame_step. rewrite Hstep_value. reflexivity. }
  unfold stft_construct in H. rewrite Hshape in H.
  apply bind_Ok_inv in H as (u3 & _ & H).
  apply bind_Ok_inv in H as (u4 & _ & H).
  simpl in H.
  apply bind_Ok_inv in H as (remaining & Hrem & H).
  apply checked_Ok_inv in Hrem. subst remaining.
  apply bind_Ok_inv in H as (quotient & Hq & H).
  apply div64_Ok_inv in Hq as [_ ->].
  apply bind_Ok_inv in H as (nstfts & Hn & H).
  apply checked_Ok_inv in Hn. subst nstfts.
  apply bind_Ok_inv in H as (all_signals & Hall & H).
  injection H as <-.
  rewrite Hstep_value, Hlength_value.
  split; [exact Hnz |]. exists onesided. split; [exact Honesided |].
  apply stft_batches_Ok_inv. exact Hall.
Qed.

(** X5: with a positive frame step and a frame length between 0 and the
    length L of axis 1 of the signal, a call that returns has built at
    least one frame per batch element, every frame lies within the signal
    (its slice starts at 0 or later and stops at L or before), and the
    frames are as many as fit: one frame more would stop after L. *)
Theorem stft_frames_fit (node : Node) (outs : OutputVector)
  (signal frame_step_node : Output) (B L D : Z)
  (Hsignal : get_ng_inputs node !! 0%nat = Some signal)
  (Hstep : get_ng_inputs node !! 1%nat = Some frame_step_node)
  (Hshape : get_partial_shape signal
            = RankStatic [DimStatic B; DimStatic L; DimStatic D])
  (Hok : stft node = Ok outs)
  (Hpositive : 0 < int64_value0 frame_step_node)
  (Hfit : 0 <= stft_frame_length signal frame_step_node
                 (provided (get_ng_inputs node) 3) <= L) :
  let window := provided (get_ng_inputs node) 2 in
  let dft_length := provided (get_ng_inputs node) 3 in
  let frame_step := int64_value0 frame_step_node in
  let frame_length := stft_frame_length signal frame_step_node dft_length in
  let nstfts := Z.quot (L - frame_length) frame_step + 1 in
  1 <= nstfts /\
  (exists onesided,
      outs = [stft_graph signal window dft_length onesided frame_step
                frame_length B nstfts]) /\
  (forall sig_idx, 0 <= sig_idx < nstfts ->
     0 <= sig_idx * frame_step /\ sig_idx * frame_step + frame_length <= L) /\
  L < nstfts * frame_step + frame_length.
Proof.
  intros window dft_length frame_step frame_length nstfts.
  destruct (stft_Ok_graph _ _ _ _ _ _ _ Hsignal Hstep Hshape Hok)
    as (_ & onesided & _ & Houts).
  fold window dft_length frame_step frame_length nstfts in Houts.
  fold dft_length frame_length in Hfit. fold frame_step in Hpositive.
  assert (Ha : 0 <= L - frame_length) by lia.
  pose proof (quot_floor (L - frame_length) frame_step Hpositive Ha) as Hq.
  fold nstfts in Hq.
  assert (Hn : 1 <= nstfts) by (unfold nstfts in *; nia).
  split; [exact Hn |]. split; [eauto |]. split.
  - intros sig_idx Hi. unfold nstfts in *. nia.
  - unfold nstfts in *. nia.
Qed.

(** X6: without frames.  With a positive frame step, a frame length that
    exceeds the length L of axis 1 by less than a frame step gives one
    frame, which reaches past the end of the signal; a frame length of
    L plus the frame step or more gives no frame, and every batch element
    is then a concatenation of nothing; a batch size of 0 gives a
    concatenation of nothing as output. *)
Theorem stft_without_frames (node : Node) (outs : OutputVector)
  (signal frame_step_node : Output) (B L D : Z)
  (Hsignal : get_ng_inputs node !! 0%nat = Some signal)
  (Hstep : get_ng_inputs node !! 1%nat = Some frame_step_node)
  (Hshape : get_partial_shape signal
            = RankStatic [DimStatic B; DimStatic L; DimStatic D])
  (Hok : stft node = Ok outs)
  (Hpositive : 0 < int64_value0 frame_step_node) :
  let window := provided (get_ng_inputs node) 2 in
  let dft_length := provided (get_ng_inputs node) 3 in
  let frame_step := int64_value0 frame_step_node in
  let frame_length := stft_frame_length signal frame_step_node dft_length in
  (L < frame_length < L + frame_step ->
   exists onesided,
     outs = [v0_Concat
               (map (fun b =>
                       v0_Unsqueeze
                         (v0_Concat
                            [v0_Unsqueeze
                               (frame_transform signal window dft_length
                                  onesided frame_step frame_length b 0)
                               (v0_Constant i64 [] (IntData [0]))]
                            0)
                         (v0_Constant i64 [] (IntData [0])))
                  (range B))
               0]) /\
  (L + frame_step <= frame_length ->
   outs = [v0_Concat (map (fun _ => empty_batch_element) (range B)) 0]) /\
  (B = 0 -> outs = [v0_Concat [] 0]).
Proof.
  intros window dft_length frame_step frame_length.
  destruct (stft_Ok_graph _ _ _ _ _ _ _ Hsignal Hstep Hshape Hok)
    as (_ & onesided & _ & Houts).
  fold window dft_length frame_step frame_length in Houts.
  fold frame_step in Hpositive.
  split; [| split].
  - intros Hlong.
    destruct (quot_of_negative (L - frame_length) frame_step Hpositive)
      as [Hzero _]; [lia |].
    rewrite Hzero in Houts by lia. exists onesided. exact Houts.
  - intros Hlong.
    destruct (quot_of_negative (L - frame_length) frame_step Hpositive)
      as [_ Hneg]; [lia |].
    rewrite Houts. unfold stft_graph.
    rewrite (range_empty (Z.quot (L - frame_length) frame_step + 1)) by lia.
    reflexivity.
  - intros ->. rewrite Houts. reflexivity.
Qed.

End StftFit.

Lemma stft_frames_fit_witness :
  1 <= Z.quot (8 - 2) 4 + 1 /\
  (forall sig_idx, 0 <= sig_idx < Z.quot (8 - 2) 4 + 1 ->
     0 <= sig_idx * 4 /\ sig_idx * 4 + 2 <= 8).
Proof.
  destruct (@stft_frames_fit example_runtime example_stft_node
              [@stft_graph example_runtime example_signal None None 1 4 2 1 2]
              example_signal (example_frame_step 4) 1 8 1
              eq_refl eq_refl eq_refl) as (Hn & _ & Hin & _).
  - vm_compute. reflexivity.
  - vm_compute. reflexivity.
  - vm_compute. split; discriminate.
  - split; [exact Hn | exact Hin].
Defined.

Lemma stft_without_frames_witness :
  match @set_17_stft.stft example_runtime (example_stft_long_frame_node 12) with
  | Ok outs => outs
  | Err _ => []
  end
  = [v0_Concat (map (fun _ => empty_batch_element) (range 1)) 0].
Proof.
  destruct (@stft_without_frames example_runtime
              (example_stft_long_frame_node 12)
              (match @set_17_stft.stft example_runtime
                       (example_stft_long_frame_node 12) with
               | Ok outs => outs
               | Err _ => []
               end)
              example_signal (example_frame_step 4) 1 8 1
              eq_refl eq_refl eq_refl) as (_ & Hnone & _).
  - vm_compute. reflexivity.
  - vm_compute. reflexivity.
  - apply Hnone. vm_compute. discriminate.
Defined.

(** ** sqrt, mul, scatter_nd, random_normal_like: the calls that are
    rejected *)

Lemma at_short {A : Type} (v : list A) (i : nat) :
  (length v <= i)%nat -> at_ v i = Err OutOfRange.
Proof. intros H. unfold at_. rewrite lookup_ge_None_2 by lia. reflexivity. Qed.

Lemma at_long {A : Type} (v : list A) (i : nat) :
  (i < length v)%nat -> exists a, v !! i = Some a /\ at_ v i = Ok a.
Proof.
  intros H. destruct (lookup_lt_is_Some_2 v i H) as [a Ha].
  exists a. split; [exact Ha | apply at_Some; exact Ha].
Qed.

Section SimpleTranslators.
Context {rt : Runtime}.

(** X7: a node that lacks an input the translator reads ends the call
    with std::out_of_range, whatever its attributes are: sqrt and
    random_normal_like need one input, mul of opset 7 two, scatter_nd
    three; for scatter_nd and random_normal_like this comes before any
    attribute is looked at. *)
Theorem missing_inputs (node : Node) :
  (length (get_ng_inputs node) < 1 ->
   set_1_sqrt.sqrt node = Err OutOfRange /\
   set_1_random_normal_like.random_normal_like node = Err OutOfRange)%nat /\
  (length (get_ng_inputs node) < 2 ->
   set_7_mul.mul node = Err OutOfRange)%nat /\
  (length (get_ng_inputs node) < 3 ->
   set_1_scatter_nd.scatter_nd node = Err OutOfRange)%nat.
Proof.
  split; [| split].
  - intros H. unfold set_1_sqrt.sqrt, set_1_random_normal_like.random_normal_like.
    rewrite at_short by lia. split; reflexivity.
  - intros H. unfold set_7_mul.mul.
    destruct (get_ng_inputs node) as [|a [|b rest]]; simpl in *;
      [reflexivity | reflexivity | lia].
  - intros H. unfold set_1_scatter_nd.scatter_nd.
    destruct (get_ng_inputs node) as [|a [|b [|c rest]]]; simpl in *;
      [reflexivity | reflexivity | reflexivity | lia].
Qed.

(** X8: the two ways scatter_nd rejects a node with its three inputs: a
    reduction attribute that is a string other than "none" is a validation
    error; a reduction attribute that is not a string is the error of an
    attribute of another type, not a validation error. *)
Theorem scatter_nd_rejections (node : Node) (v : AttrValue)
  (Hinputs : (3 <= length (get_ng_inputs node))%nat)
  (Hreduction : find_attribute (attributes node) "reduction" = Some v) :
  (forall s, v = AString s -> s <> "none" ->
     set_1_scatter_nd.scatter_nd node
     = Err (ValidationError
              "Unsupported value of attribute: `reduction`. Only `none` is supported, got:")) /\
  ((forall s, v <> AString s) ->
     set_1_scatter_nd.scatter_nd node = Err (InvalidAttribute "reduction")).
Proof.
  unfold set_1_scatter_nd.scatter_nd, has_attribute,
    get_attribute_value_string_or.
  destruct (at_long (get_ng_inputs node) 0) as (d & _ & ->); [lia |].
  destruct (at_long (get_ng_inputs node) 1) as (i & _ & ->); [lia |].
  destruct (at_long (get_ng_inputs node) 2) as (u & _ & ->); [lia |].
  simpl. rewrite Hreduction. split.
  - intros s -> Hs. simpl. apply String.eqb_neq in Hs. rewrite Hs. reflexivity.
  - intros Hv. destruct v as [n|f|s|l]; try reflexivity.
    exfalso. apply (Hv s). reflexivity.
Qed.

End SimpleTranslators.

Lemma missing_inputs_witness :
  set_1_scatter_nd.scatter_nd example_empty_node = Err OutOfRange /\
  @set_1_random_normal_like.random_normal_like example_runtime example_empty_node
  = Err OutOfRange.
Proof.
  destruct (@missing_inputs example_runtime example_empty_node)
    as (Hone & _ & Hthree).
  split.
  - apply Hthree. simpl. lia.
  - apply Hone. simpl. lia.
Defined.

Lemma scatter_nd_rejections_witness :
  set_1_scatter_nd.scatter_nd example_scatter_typed_node
  = Err (InvalidAttribute "reduction").
Proof.
  destruct (scatter_nd_rejections example_scatter_typed_node (AInt 0))
    as [_ Htyped].
  - simpl. lia.
  - reflexivity.
  - apply Htyped. intros s. discriminate.
Defined.

(** ** scan: the calls that end before the translation starts *)

Section ScanRejections.
Context {rt : Runtime}.

(** X10: how import_onnx_scan ends before any node is built.  A node
    without a subgraph "body" ends with std::out_of_range; with a body
    and no attribute num_scan_inputs, with the error of an unknown
    attribute; with a num_scan_inputs that is not an integer, with the
    error of an attribute of another type; and with a num_scan_inputs that
    is negative or above the largest vector size, with std::length_error,
    thrown for the default of scan_input_axes whether or not the attribute
    is given. *)
Theorem scan_rejections (node : Node) (default_axis in_offset : Z)
  (directions_name : string) :
  (get_subgraphs node !! "body" = None ->
   scan_detail.import_onnx_scan node default_axis in_offset directions_name
   = Err OutOfRange) /\
  (forall g, get_subgraphs node !! "body" = Some g ->
     (find_attribute (attributes node) "num_scan_inputs" = None ->
      scan_detail.import_onnx_scan node default_axis in_offset directions_name
      = Err (UnknownAttribute "num_scan_inputs")) /\
     (forall v, find_attribute (attributes node) "num_scan_inputs" = Some v ->
        (forall n, v <> AInt n) ->
        scan_detail.import_onnx_scan node default_axis in_offset directions_name
        = Err (InvalidAttribute "num_scan_inputs")) /\
     (forall nsi,
        find_attribute (attributes node) "num_scan_inputs" = Some (AInt nsi) ->
        - 2 ^ 63 <= nsi <= 2 ^ 63 - 1 ->
        nsi < 0 \/ vector_max_size < nsi ->
        scan_detail.import_onnx_scan node default_axis in_offset directions_name
        = Err LengthError)).
Proof.
  unfold scan_detail.import_onnx_scan. split.
  - intros ->. reflexivity.
  - intros g ->. cbn [bind]. unfold get_attribute_value_int.
    split; [| split].
    + intros ->. reflexivity.
    + intros v -> Hv. destruct v as [n|f|s|l]; try reflexivity.
      exfalso. apply (Hv n). reflexivity.
    + intros nsi -> Hint Hout. cbn [bind].
      assert (Hfill : vector_fill nsi default_axis = Err LengthError).
      { unfold vector_fill.
        assert (Hlt : (vector_max_size <? size_wrap nsi) = true).
        { apply Z.ltb_lt. unfold size_wrap.
          assert (Hmax : 0 <= vector_max_size < 2 ^ 63).
          { split; [vm_compute; discriminate | vm_compute; reflexivity]. }
          destruct Hout as [Hneg | Hbig].
          - assert (Hmod : nsi mod 2 ^ 64 = nsi + 2 ^ 64).
            { symmetry. apply (Z.mod_unique nsi (2 ^ 64) (-1)); lia. }
            rewrite Hmod. lia.
          - rewrite Z.mod_small by lia. exact Hbig. }
        rewrite Hlt. reflexivity. }
      rewrite Hfill. reflexivity.
Qed.

End ScanRejections.

Lemma scan_rejections_witness :
  @set_9_scan.scan example_runtime example_scan_no_body_node = Err OutOfRange /\
  @set_9_scan.scan example_runtime example_scan_no_count_node
  = Err (UnknownAttribute "num_scan_inputs") /\
  @set_9_scan.scan example_runtime example_scan_negative_node = Err LengthError.
Proof.
  split; [| split].
  - apply (@scan_rejections example_runtime example_scan_no_body_node 0 0
             "scan_input_directions").
    reflexivity.
  - apply (@scan_rejections example_runtime example_scan_no_count_node 0 0
             "scan_input_directions") with (g := example_body);
      reflexivity.
  - apply (@scan_rejections example_runtime example_scan_negative_node 0 0
             "scan_input_directions") with (g := example_body) (nsi := -1);
      [reflexivity | reflexivity | lia | lia].
Defined.

(** ** scan: what the translation adds to the body and what it keeps *)

Lemma same_operation_refl (n : BodyNode) : same_operation n n.
Proof.
  split; [reflexivity |]. destruct (node_op n); eauto.
Qed.

Lemma same_operation_trans (a b c : BodyNode) :
  same_operation a b -> same_operation b c -> same_operation a c.
Proof.
  intros [Hlen1 Hop1] [Hlen2 Hop2]. split; [congruence |].
  destruct (node_op a) eqn:Ha.
  - destruct Hop1 as (et' & sh' & Hb). rewrite Hb in Hop2. exact Hop2.
  - rewrite Hop1 in Hop2. exact Hop2.
  - rewrite Hop1 in Hop2. exact Hop2.
  - rewrite Hop1 in Hop2. exact Hop2.
  - rewrite Hop1 in Hop2. exact Hop2.
Qed.

Lemma same_operation_alignment (n n' : BodyNode) :
  alignment_node n -> same_operation n n' -> alignment_node n'.
Proof.
  intros Hn [_ Hop]. unfold alignment_node in *.
  destruct Hn as [[axis Hc] | [Hs | Hu]].
  - rewrite Hc in Hop. left. exists axis. exact Hop.
  - rewrite Hs in Hop. right. left. exact Hop.
  - rewrite Hu in Hop. right. right. exact Hop.
Qed.

Lemma same_operation_rewire (o new_source : Src) (n : BodyNode) :
  same_operation n (rewire o new_source n).
Proof.
  split; [simpl; apply length_map |].
  simpl. destruct (node_op n); eauto.
Qed.

Lemma body_extended_refl (body : BodyStore) : body_extended body body.
Proof.
  split.
  - intros k n Hk. exists n. split; [exact Hk | apply same_operation_refl].
  - intros k n' Hle Hk. apply lookup_lt_Some in Hk. lia.
Qed.

Lemma body_extended_length (a b : BodyStore) :
  body_extended a b -> (length a <= length b)%nat.
Proof.
  intros [Hold _].
  destruct (decide (length a <= length b)%nat) as [Hle|Hgt]; [exact Hle |].
  destruct (lookup_lt_is_Some_2 a (length b)) as [n Hn]; [lia |].
  destruct (Hold _ _ Hn) as (n' & Hn' & _).
  apply lookup_lt_Some in Hn'. lia.
Qed.

Lemma body_extended_trans (a b c : BodyStore) :
  body_extended a b -> body_extended b c -> body_extended a c.
Proof.
  intros Hab Hbc. pose proof (body_extended_length _ _ Hab) as Hlen.
  destruct Hab as [Hab1 Hab2], Hbc as [Hbc1 Hbc2]. split.
  - intros k n Hk. destruct (Hab1 k n Hk) as (m & Hm & Hnm).
    destruct (Hbc1 k m Hm) as (n' & Hn' & Hmn').
    exists n'. split; [exact Hn' |].
    apply (same_operation_trans _ _ _ Hnm Hmn').
  - intros k n' Hle Hk. destruct (b !! k) as [m|] eqn:Hm.
    + destruct (Hbc1 k m Hm) as (n'' & Hn'' & Hmn).
      rewrite Hk in Hn''. injection Hn'' as <-.
      apply (same_operation_alignment m); [| exact Hmn].
      apply (Hab2 k); assumption.
    + apply lookup_ge_None in Hm. apply (Hbc2 k); assumption.
Qed.

(** A parameter that is given another type and shape. *)
Lemma body_extended_parameter (st : BodyStore) (p : nat)
  (et0 et : ElementType) (sh0 sh : PartialShape) (args : list Src) :
  st !! p = Some (mkBodyNode (OpParameter et0 sh0) args) ->
  body_extended st (<[p := mkBodyNode (OpParameter et sh) args]> st).
Proof.
  intros Hp. split.
  - intros k n Hk. destruct (decide (k = p)) as [->|Hne].
    + rewrite Hp in Hk. injection Hk as <-.
      eexists. split.
      * apply list_lookup_insert_eq. apply lookup_lt_Some in Hp. exact Hp.
      * split; [reflexivity |]. simpl. eauto.
    + exists n. split; [| apply same_operation_refl].
      rewrite list_lookup_insert_ne by congruence. exact Hk.
  - intros k n' Hle Hk. apply lookup_lt_Some in Hk.
    rewrite length_insert in Hk. lia.
Qed.

Lemma aligned_body_length (st : BodyStore) (p : nat) (et : ElementType)
  (pshape : PartialShape) (pargs : list Src) (axis : Z) :
  length (aligned_body st p et pshape pargs axis) = (length st + 2)%nat.
Proof.
  unfold aligned_body.
  rewrite length_app, length_map, length_app, length_insert. simpl. lia.
Qed.

(** One iteration of the alignment of the scan inputs. *)
Lemma body_extended_aligned (st : BodyStore) (p : nat) (et : ElementType)
  (sh0 sh : PartialShape) (pargs : list Src) (axis : Z) :
  st !! p = Some (mkBodyNode (OpParameter et sh0) pargs) ->
  body_extended st (aligned_body st p et sh pargs axis).
Proof.
  intros Hp. split.
  - intros k n Hk. eexists. split; [apply aligned_body_old; exact Hk |].
    destruct (decide (k = p)) as [->|Hne].
    + rewrite Hp in Hk. injection Hk as <-.
      split; [simpl; apply length_map |]. simpl. eauto.
    + apply same_operation_rewire.
  - intros k n' Hle Hk. pose proof (lookup_lt_Some _ _ _ Hk) as Hlt.
    rewrite aligned_body_length in Hlt.
    destruct (decide (k = length st)) as [->|Hne].
    + rewrite aligned_body_constant in Hk. injection Hk as <-.
      left. exists axis. reflexivity.
    + assert (k = S (length st)) as -> by lia.
      rewrite aligned_body_squeeze in Hk. injection Hk as <-.
      right. left. reflexivity.
Qed.

(** One iteration of the alignment of the scan outputs. *)
Lemma body_extended_unsqueeze (st : BodyStore) (axis : Z) (out : Src) :
  body_extended st
    (st ++ [mkBodyNode (OpConstant i64 [1%N] [axis]) [];
            mkBodyNode OpUnsqueeze [out; mkSrc (length st) 0]]).
Proof.
  split.
  - intros k n Hk. exists n. split; [| apply same_operation_refl].
    apply lookup_app_l_Some. exact Hk.
  - intros k n' Hle Hk. rewrite lookup_app_r in Hk by exact Hle.
    destruct (k - length st)%nat as [|[|j]]; simpl in Hk.
    + injection Hk as <-. left. exists axis. reflexivity.
    + injection Hk as <-. right. right. reflexivity.
    + discriminate.
Qed.

Section ScanExtended.
Context {rt : Runtime}.

Variable node_inputs : OutputVector.
Variable body_inputs : list nat.
Variable num_scan_inputs : Z.
Variable scan_input_axes scan_input_directions : list Z.
Variable scan_output_axes scan_output_directions : list Z.
Variable in_offset : Z.
Variable node_description : string.

Local Abbreviation align_state_input :=
  (scan_detail.align_state_input node_inputs body_inputs in_offset).
Local Abbreviation align_scan_input :=
  (scan_detail.align_scan_input node_inputs body_inputs scan_input_axes
     in_offset node_description).
Local Abbreviation align_scan_output :=
  (scan_detail.align_scan_output scan_output_axes).
Local Abbreviation scan_to_tensor_iterator :=
  (scan_detail.scan_to_tensor_iterator node_inputs body_inputs num_scan_inputs
     scan_input_axes scan_input_directions scan_output_axes
     scan_output_directions in_offset node_description).

Lemma align_state_input_Ok_inv (i : Z) (st st' : BodyStore) :
  align_state_input i st = Ok st' ->
  exists (p : nat) (x : Output) (et0 : ElementType) (sh0 : PartialShape)
         (args : list Src),
    index body_inputs i = Ok p /\
    index node_inputs (size_wrap (i + in_offset)) = Ok x /\
    st !! p = Some (mkBodyNode (OpParameter et0 sh0) args) /\
    st' = <[p := mkBodyNode
                   (OpParameter (get_element_type x) (get_partial_shape x))
                   args]> st.
Proof.
  unfold scan_detail.align_state_input. intros H.
  apply bind_Ok_inv in H as (p & Hp & H).
  apply bind_Ok_inv in H as (x & Hx & H).
  apply bind_Ok_inv in H as (s' & Het & Hshape).
  apply set_element_type_Ok_inv in Het as (et0 & sh0 & args & Hlook & ->).
  apply set_partial_shape_Ok_inv in Hshape as (et1 & sh1 & args1 & Hlook1 & ->).
  rewrite list_lookup_insert_eq in Hlook1
    by (apply lookup_lt_Some in Hlook; exact Hlook).
  injection Hlook1 as <- <- <-.
  exists p, x, et0, sh0, args. repeat split; try assumption.
  apply list_insert_insert_eq.
Qed.

Lemma align_state_inputs_extended (n : Z) (body st : BodyStore) :
  for_loop n align_state_input body = Ok st ->
  body_extended body st /\ length st = length body.
Proof.
  intros Hrun.
  apply (for_loop_invariant
           (fun _ s => body_extended body s /\ length s = length body)
           n align_state_input body st);
    [split; [apply body_extended_refl | reflexivity] | | exact Hrun].
  intros i s1 s2 _ [IH IHlen] Hbody.
  apply align_state_input_Ok_inv in Hbody
    as (p & x & et0 & sh0 & args & _ & _ & Hlook & ->).
  split; [| rewrite length_insert; exact IHlen].
  apply (body_extended_trans _ _ _ IH).
  apply (body_extended_parameter _ _ et0 _ sh0). exact Hlook.
Qed.

Lemma align_scan_inputs_extended (niv : Z) (st1 st2 : BodyStore) :
  0 <= num_scan_inputs ->
  for_loop num_scan_inputs (align_scan_input niv) st1 = Ok st2 ->
  body_extended st1 st2 /\
  Z.of_nat (length st1) <= Z.of_nat (length st2)
  <= Z.of_nat (length st1) + 2 * num_scan_inputs.
Proof.
  intros Hnsi Hrun.
  pose proof (for_loop_invariant
    (fun i s => body_extended st1 s /\
                Z.of_nat (length st1) <= Z.of_nat (length s)
                <= Z.of_nat (length st1) + 2 * i)
    num_scan_inputs (align_scan_input niv) st1 st2) as Hinv.
  simpl in Hinv. rewrite Z.max_r in Hinv by lia.
  apply Hinv; [split; [apply body_extended_refl | lia] | | exact Hrun].
  intros i s1 s2 Hi [IH IHlen] Hbody.
  apply align_scan_input_Ok_inv in Hbody
    as (a & x & p & et & pshape0 & pshape & pargs
        & _ & _ & _ & Hparam & _ & _ & [[_ ->] | [_ ->]]).
  - split.
    + apply (body_extended_trans _ _ _ IH).
      apply (body_extended_parameter _ _ et _ pshape0). exact Hparam.
    + rewrite length_insert. lia.
  - split.
    + apply (body_extended_trans _ _ _ IH).
      apply (body_extended_aligned _ _ _ pshape0). exact Hparam.
    + rewrite aligned_body_length. lia.
Qed.

(** Whether a parameter is consumed depends on the arguments of the node
    objects only. *)
Lemma is_consumed_spec (body : BodyStore) (p : nat) :
  is_consumed body p = true <-> consumed body (mkSrc p 0).
Proof.
  unfold is_consumed, consumed. rewrite existsb_exists. split.
  - intros (n & Hn & Hin). apply bool_decide_eq_true in Hin.
    apply list_elem_of_In, list_elem_of_lookup in Hn as [k Hk].
    apply list_elem_of_lookup in Hin as [j Hj].
    exists k, n, j. split; assumption.
  - intros (k & n & j & Hk & Hj). exists n. split.
    + apply list_elem_of_In, list_elem_of_lookup. exists k. exact Hk.
    + apply bool_decide_eq_true, list_elem_of_lookup. exists j. exact Hj.
Qed.

Lemma consumed_args (st body : BodyStore) (o : Src) :
  (forall k, node_args <$> st !! k = node_args <$> body !! k) ->
  consumed st o -> consumed body o.
Proof.
  intros Hargs (k & n & j & Hk & Hj).
  specialize (Hargs k). rewrite Hk in Hargs. simpl in Hargs.
  destruct (body !! k) as [n'|] eqn:Hk'; [| discriminate].
  injection Hargs as Hargs. exists k, n', j.
  split; [exact Hk' | rewrite <- Hargs; exact Hj].
Qed.

Lemma is_consumed_args (st body : BodyStore) (p : nat) :
  (forall k, node_args <$> st !! k = node_args <$> body !! k) ->
  is_consumed st p = is_consumed body p.
Proof.
  intros Hargs.
  destruct (is_consumed st p) eqn:Hs, (is_consumed body p) eqn:Hb;
    try reflexivity; exfalso.
  - apply is_consumed_spec in Hs. apply (consumed_args _ body) in Hs; [| exact Hargs].
    apply is_consumed_spec in Hs. congruence.
  - apply is_consumed_spec in Hb.
    apply (consumed_args _ st) in Hb; [| intros k; symmetry; apply Hargs].
    apply is_consumed_spec in Hb. congruence.
Qed.

(** The Squeeze of [p] consumes [p] and its constant; the consumers of
    another output of the body are the ones it had. *)
Lemma consumed_aligned (st : BodyStore) (p q : nat) (et : ElementType)
  (pshape0 pshape : PartialShape) (pargs : list Src) (axis : Z) :
  st !! p = Some (mkBodyNode (OpParameter et pshape0) pargs) ->
  q <> p -> (q < length st)%nat ->
  consumed (aligned_body st p et pshape pargs axis) (mkSrc q 0)
  <-> consumed st (mkSrc q 0).
Proof.
  intros Hp Hqp Hq. split.
  - intros (k & n' & j & Hk & Hj).
    destruct (st !! k) as [n0|] eqn:Hk0.
    + rewrite (aligned_body_old _ _ _ _ _ _ _ _ Hk0) in Hk. injection Hk as <-.
      rewrite rewire_args in Hj.
      assert (Hsame : node_args (if decide (k = p)
                                 then mkBodyNode (OpParameter et pshape) pargs
                                 else n0) = node_args n0).
      { destruct (decide (k = p)) as [->|_]; [| reflexivity].
        rewrite Hp in Hk0. injection Hk0 as <-. reflexivity. }
      rewrite Hsame in Hj.
      destruct (node_args n0 !! j) as [a|] eqn:Ha; [| discriminate].
      simpl in Hj. destruct (decide (a = mkSrc p 0)) as [->|Hne].
      * injection Hj as Hj. lia.
      * injection Hj as ->. exists k, n0, j. split; assumption.
    + apply lookup_ge_None in Hk0.
      destruct (decide (k = length st)) as [->|Hk1].
      * rewrite aligned_body_constant in Hk. injection Hk as <-.
        simpl in Hj. discriminate.
      * destruct (decide (k = S (length st))) as [->|Hk2].
        -- rewrite aligned_body_squeeze in Hk. injection Hk as <-.
           destruct j as [|[|j]]; simpl in Hj; try discriminate;
             injection Hj as Hj; lia.
        -- apply lookup_lt_Some in Hk. rewrite aligned_body_length in Hk. lia.
  - intros (k & n & j & Hk & Hj).
    exists k. eexists. exists j. split; [apply aligned_body_old; exact Hk |].
    apply rewire_other; [intros [= ?]; contradiction |].
    destruct (decide (k = p)) as [->|_]; [| exact Hj].
    rewrite Hp in Hk. injection Hk as <-. exact Hj.
Qed.

Lemma consumed_shaped_body (st : BodyStore) (p : nat) (et : ElementType)
  (pshape0 pshape : PartialShape) (pargs : list Src) (o : Src) :
  st !! p = Some (mkBodyNode (OpParameter et pshape0) pargs) ->
  consumed (<[p := mkBodyNode (OpParameter et pshape) pargs]> st) o
  <-> consumed st o.
Proof.
  intros Hp. split; apply consumed_args; intros k.
  - apply (insert_keeps_args _ _ _ _ _ _ Hp).
  - symmetry. apply (insert_keeps_args _ _ _ _ _ _ Hp).
Qed.

(** The loop over the scan inputs adds a constant and a Squeeze for the
    scan inputs whose parameter is consumed, and for no other. *)
Lemma align_scan_inputs_count (st1 st2 : BodyStore) :
  let niv := Z.of_nat (length body_inputs) - num_scan_inputs in
  0 <= num_scan_inputs <= Z.of_nat (length body_inputs) ->
  Z.of_nat (length body_inputs) < 2 ^ 63 ->
  NoDup body_inputs ->
  for_loop num_scan_inputs (align_scan_input niv) st1 = Ok st2 ->
  length st2
  = (length st1 + 2 * consumed_scan_inputs st1 body_inputs niv)%nat.
Proof.
  intros niv Hnsi Hlen Hnodup Hrun.
  set (scan_parameters := drop (Z.to_nat niv) body_inputs).
  pose proof (for_loop_invariant
    (fun i st =>
       body_extended st1 st /\
       (forall q, (q < length st1)%nat ->
          (forall k, 0 <= k < i ->
             body_inputs !! Z.to_nat (niv + k) <> Some q) ->
          consumed st (mkSrc q 0) <-> consumed st1 (mkSrc q 0)) /\
       length st
       = (length st1
          + 2 * length (filter (fun p => is_consumed st1 p = true)
                          (take (Z.to_nat i) scan_parameters)))%nat)
    num_scan_inputs (align_scan_input niv) st1 st2) as Hinv.
  simpl in Hinv. rewrite Z.max_r in Hinv by lia.
  destruct Hinv as (_ & _ & Hcount); [| | exact Hrun |].
  - split; [apply body_extended_refl |]. split; [tauto | simpl; lia].
  - intros i s1 s2 Hi (IHext & IHconsumed & IHcount) Hbody.
    apply align_scan_input_Ok_inv in Hbody
      as (a & x & p & et & pshape0 & pshape & pargs
          & _ & _ & Hp & Hparam & _ & _ & Hcases).
    assert (Hwrap : size_wrap (niv + i) = niv + i).
    { apply size_wrap_small. unfold niv. lia. }
    rewrite Hwrap in Hp. apply index_Ok_inv in Hp as [_ Hp].
    assert (Hold : (p < length st1)%nat).
    { destruct (decide (p < length st1)%nat) as [Hlt|Hge]; [exact Hlt |].
      exfalso. destruct IHext as [_ Hadded].
      apply (Hadded p) in Hparam; [| lia].
      destruct Hparam as [[axis H] | [H | H]]; discriminate. }
    pose proof (body_extended_length _ _ IHext) as Hgrown.
    assert (Hfresh : forall k, 0 <= k < i ->
              body_inputs !! Z.to_nat (niv + k) <> Some p).
    { intros k Hk Hpk.
      pose proof (NoDup_lookup _ _ _ _ Hnodup Hp Hpk). unfold niv in *. lia. }
    assert (Htake : take (Z.to_nat (i + 1)) scan_parameters
                    = take (Z.to_nat i) scan_parameters ++ [p]).
    { replace (Z.to_nat (i + 1)) with (S (Z.to_nat i)) by lia.
      apply take_S_r. unfold scan_parameters. rewrite lookup_drop.
      replace (Z.to_nat niv + Z.to_nat i)%nat with (Z.to_nat (niv + i))
        by (unfold niv; lia).
      exact Hp. }
    rewrite Htake, filter_app, length_app.
    destruct Hcases as [[Hnone ->] | [Hsome ->]].
    + split; [| split].
      * apply (body_extended_trans _ _ _ IHext).
        apply (body_extended_parameter _ _ et _ pshape0). exact Hparam.
      * intros q Hq Hunseen.
        rewrite (consumed_shaped_body _ _ _ pshape0) by exact Hparam.
        apply IHconsumed; [exact Hq |]. intros k Hk. apply Hunseen. lia.
      * rewrite length_insert, IHcount.
        rewrite filter_cons_False, filter_nil; [simpl; lia |].
        intros Hc. apply Hnone. apply IHconsumed; [exact Hold | exact Hfresh |].
        apply is_consumed_spec. exact Hc.
    + split; [| split].
      * apply (body_extended_trans _ _ _ IHext).
        apply (body_extended_aligned _ _ _ pshape0). exact Hparam.
      * intros q Hq Hunseen.
        assert (Hqp : q <> p).
        { intros ->. apply (Hunseen i); [lia | exact Hp]. }
        rewrite (consumed_aligned _ _ _ _ pshape0) by (try assumption; lia).
        apply IHconsumed; [exact Hq |]. intros k Hk. apply Hunseen. lia.
      * rewrite aligned_body_length, IHcount.
        rewrite filter_cons_True, filter_nil; [simpl; lia |].
        apply is_consumed_spec.
        apply IHconsumed; [exact Hold | exact Hfresh | exact Hsome].
  - rewrite Hcount. unfold consumed_scan_inputs. fold scan_parameters.
    rewrite take_ge; [reflexivity |].
    unfold scan_parameters. rewrite length_drop. unfold niv. lia.
Qed.

Lemma align_scan_outputs_extended (niv nso : Z) (st2 st3 : BodyStore)
  (bo bo' : list Src) :
  0 <= nso ->
  for_loop nso (align_scan_output niv) (st2, bo) = Ok (st3, bo') ->
  body_extended st2 st3 /\
  Z.of_nat (length st3) = Z.of_nat (length st2) + 2 * nso.
Proof.
  intros Hnso Hrun.
  pose proof (for_loop_invariant
    (fun i (s : BodyStore * list Src) =>
       body_extended st2 s.1 /\
       Z.of_nat (length s.1) = Z.of_nat (length st2) + 2 * i)
    nso (align_scan_output niv) (st2, bo) (st3, bo')) as Hinv.
  simpl in Hinv. rewrite Z.max_r in Hinv by lia.
  apply Hinv; [split; [apply body_extended_refl | lia] | | exact Hrun].
  intros i [s1 b1] [s2 b2] Hi [IH IHlen] Hbody. simpl in IH, IHlen. simpl.
  apply align_scan_output_Ok_inv in Hbody as (a & out & _ & _ & -> & _).
  split.
  - apply (body_extended_trans _ _ _ IH). apply body_extended_unsqueeze.
  - rewrite length_app. simpl. lia.
Qed.

(** The body the translation leaves extends the body it was given, by two
    node objects for every scan output and at most two for every scan
    input. *)
Lemma scan_to_tensor_iterator_extended (body st' : BodyStore) (bo : list Src)
  (outs : OutputVector) :
  0 <= num_scan_inputs <= Z.of_nat (length body_inputs) ->
  Z.of_nat (length body_inputs) < 2 ^ 63 ->
  Z.of_nat (length bo) < 2 ^ 63 ->
  scan_to_tensor_iterator body bo = Ok (outs, st') ->
  let niv := Z.of_nat (length body_inputs) - num_scan_inputs in
  let nso := Z.of_nat (length bo) - niv in
  0 <= nso /\
  body_extended body st' /\
  Z.of_nat (length body) + 2 * nso <= Z.of_nat (length st')
  <= Z.of_nat (length body) + 2 * num_scan_inputs + 2 * nso.
Proof.
  intros Hnsi Hlen Hbo Hrun niv nso.
  destruct (scan_to_tensor_iterator_Ok_inv _ _ _ _ _ _ _ _ _ _ _ _ _
              Hnsi Hlen Hbo Hrun)
    as (st1 & st2 & bo' & ti1 & ti5 & ti6 & outs5 & outs6
        & H1 & H2 & H3 & _).
  fold niv in H1, H2, H3.
  assert (Hniv : 0 <= niv < 2 ^ 63) by (unfold niv; lia).
  destruct (align_scan_outputs _ _ _ _ _ _ Hniv Hbo H3) as (Hle & _).
  rewrite size_wrap_small in H3 by (unfold niv in *; lia).
  fold nso in H3.
  assert (Hnso : 0 <= nso) by (unfold nso; lia).
  apply align_state_inputs_extended in H1 as [E1 L1].
  apply align_scan_inputs_extended in H2 as [E2 L2]; [| lia].
  apply align_scan_outputs_extended in H3 as [E3 L3]; [| exact Hnso].
  split; [exact Hnso |]. split.
  - apply (body_extended_trans _ _ _ E1).
    apply (body_extended_trans _ _ _ E2). exact E3.
  - lia.
Qed.

(** With distinct parameters, the node objects added are two for every
    scan output and two for every scan input whose parameter is consumed
    in the body. *)
Lemma scan_to_tensor_iterator_count (body st' : BodyStore) (bo : list Src)
  (outs : OutputVector) :
  0 <= num_scan_inputs <= Z.of_nat (length body_inputs) ->
  Z.of_nat (length body_inputs) < 2 ^ 63 ->
  Z.of_nat (length bo) < 2 ^ 63 ->
  NoDup body_inputs ->
  scan_to_tensor_iterator body bo = Ok (outs, st') ->
  let niv := Z.of_nat (length body_inputs) - num_scan_inputs in
  let nso := Z.of_nat (length bo) - niv in
  Z.of_nat (length st')
  = Z.of_nat (length body)
    + 2 * Z.of_nat (consumed_scan_inputs body body_inputs niv) + 2 * nso.
Proof.
  intros Hnsi Hlen Hbo Hnodup Hrun niv nso.
  destruct (scan_to_tensor_iterator_Ok_inv _ _ _ _ _ _ _ _ _ _ _ _ _
              Hnsi Hlen Hbo Hrun)
    as (st1 & st2 & bo' & ti1 & ti5 & ti6 & outs5 & outs6
        & H1 & H2 & H3 & _).
  fold niv in H1, H2, H3.
  assert (Hniv : 0 <= niv < 2 ^ 63) by (unfold niv; lia).
  destruct (align_scan_outputs _ _ _ _ _ _ Hniv Hbo H3) as (Hle & _).
  rewrite size_wrap_small in H3 by (unfold niv in *; lia).
  fold nso in H3.
  assert (Hnso : 0 <= nso) by (unfold nso; lia).
  pose proof (align_state_inputs_args _ _ _ _ _ _ H1) as Hargs.
  apply align_state_inputs_extended in H1 as [_ L1].
  apply (align_scan_inputs_count _ _ Hnsi Hlen Hnodup) in H2.
  apply align_scan_outputs_extended in H3 as [_ L3]; [| exact Hnso].
  fold niv in H2.
  assert (Hsame : consumed_scan_inputs st1 body_inputs niv
                  = consumed_scan_inputs body body_inputs niv).
  { unfold consumed_scan_inputs. f_equal. apply list_filter_iff.
    intros p. rewrite (is_consumed_args st1 body p Hargs). reflexivity. }
  rewrite Hsame in H2. lia.
Qed.

End ScanExtended.

(** ** scan: the parameters of the body after the translation *)

Lemma parameter_not_alignment (n : BodyNode) (et : ElementType)
  (pshape : PartialShape) :
  node_op n = OpParameter et pshape -> ~ alignment_node n.
Proof.
  intros Hop [[axis H] | [H | H]]; rewrite Hop in H; discriminate.
Qed.

Section ScanParameterLoops.
Context {rt : Runtime}.

Variable node_inputs : OutputVector.
Variable body_inputs : list nat.
Variable num_scan_inputs : Z.
Variable scan_input_axes scan_input_directions : list Z.
Variable scan_output_axes scan_output_directions : list Z.
Variable in_offset : Z.
Variable node_description : string.

Local Abbreviation align_state_input :=
  (scan_detail.align_state_input node_inputs body_inputs in_offset).
Local Abbreviation align_scan_input :=
  (scan_detail.align_scan_input node_inputs body_inputs scan_input_axes
     in_offset node_description).
Local Abbreviation scan_to_tensor_iterator :=
  (scan_detail.scan_to_tensor_iterator node_inputs body_inputs num_scan_inputs
     scan_input_axes scan_input_directions scan_output_axes
     scan_output_directions in_offset node_description).
Local Abbreviation state_aligned :=
  (state_parameter_aligned node_inputs body_inputs in_offset).
Local Abbreviation parameter_kept :=
  (scan_parameter_kept node_inputs body_inputs in_offset).

(** The loop over the state variables: every parameter it has passed has
    the type and shape of its node input, the other node objects are as
    they were. *)
Lemma state_parameters_aligned (niv : Z) (body st1 : BodyStore) :
  0 <= niv -> NoDup body_inputs ->
  for_loop niv align_state_input body = Ok st1 ->
  (forall i, 0 <= i < niv -> state_aligned st1 i) /\
  (forall q, (forall k, 0 <= k < niv -> body_inputs !! Z.to_nat k <> Some q) ->
     st1 !! q = body !! q).
Proof.
  intros Hniv Hnodup Hrun.
  pose proof (for_loop_invariant
    (fun i st =>
       (forall k, 0 <= k < i -> state_aligned st k) /\
       (forall q, (forall k, 0 <= k < i -> body_inputs !! Z.to_nat k <> Some q) ->
          st !! q = body !! q))
    niv align_state_input body st1) as Hinv.
  simpl in Hinv. rewrite Z.max_r in Hinv by lia.
  apply Hinv; [split; [intros; lia | reflexivity] | | exact Hrun].
  intros i s1 s2 Hi [IHaligned IHother] Hbody.
  apply align_state_input_Ok_inv in Hbody
    as (p & x & et0 & sh0 & args & Hp & Hx & Hlook & ->).
  apply index_Ok_inv in Hp as [_ Hp].
  apply index_Ok_inv in Hx as [_ Hx].
  split.
  - intros k Hk. destruct (Z.eq_dec k i) as [->|Hne].
    + exists p, x. split; [exact Hp |]. split; [exact Hx |].
      rewrite list_lookup_insert_eq
        by (apply lookup_lt_Some in Hlook; exact Hlook).
      reflexivity.
    + destruct (IHaligned k) as (p' & x' & Hp' & Hx' & Hop); [lia |].
      exists p', x'. split; [exact Hp' |]. split; [exact Hx' |].
      rewrite list_lookup_insert_ne; [exact Hop |].
      intros <-. pose proof (NoDup_lookup _ _ _ _ Hnodup Hp Hp'). lia.
  - intros q Hq. rewrite list_lookup_insert_ne.
    + apply IHother. intros k Hk. apply Hq. lia.
    + intros <-. apply (Hq i); [lia | exact Hp].
Qed.

(** The loop over the scan inputs: the node objects that are not
    parameters of scan inputs keep their operation, and the parameters of
    the scan inputs their element type. *)
Lemma scan_parameters_kept (st1 st2 : BodyStore) :
  let niv := Z.of_nat (length body_inputs) - num_scan_inputs in
  0 <= num_scan_inputs <= Z.of_nat (length body_inputs) ->
  Z.of_nat (length body_inputs) < 2 ^ 63 ->
  NoDup body_inputs ->
  for_loop num_scan_inputs (align_scan_input niv) st1 = Ok st2 ->
  (forall q op,
     (forall k, 0 <= k < num_scan_inputs ->
        body_inputs !! Z.to_nat (niv + k) <> Some q) ->
     node_op <$> st1 !! q = Some op -> node_op <$> st2 !! q = Some op) /\
  (forall i, 0 <= i < num_scan_inputs -> parameter_kept niv st1 st2 i).
Proof.
  intros niv Hnsi Hlen Hnodup Hrun.
  pose proof (for_loop_invariant
    (fun i st =>
       body_extended st1 st /\
       (forall q, (forall k, 0 <= k < i ->
                     body_inputs !! Z.to_nat (niv + k) <> Some q) ->
          (q < length st1)%nat ->
          node_op <$> st !! q = node_op <$> st1 !! q) /\
       (forall k, 0 <= k < i -> parameter_kept niv st1 st k))
    num_scan_inputs (align_scan_input niv) st1 st2) as Hinv.
  simpl in Hinv. rewrite Z.max_r in Hinv by lia.
  destruct Hinv as (_ & Hother & Hkept); [| | exact Hrun |].
  - split; [apply body_extended_refl |].
    split; [reflexivity | intros; lia].
  - intros i s1 s2 Hi (IHext & IHother & IHkept) Hbody.
    apply align_scan_input_Ok_inv in Hbody
      as (a & x & p & et & pshape0 & pshape & pargs
          & _ & Hx & Hp & Hparam & _ & Hdyn & Hcases).
    assert (Hwrap : size_wrap (niv + i) = niv + i).
    { apply size_wrap_small. unfold niv. lia. }
    rewrite Hwrap in Hx, Hp.
    apply index_Ok_inv in Hx as [_ Hx].
    apply index_Ok_inv in Hp as [_ Hp].
    assert (Hold : (p < length st1)%nat).
    { destruct (decide (p < length st1)%nat) as [Hlt|Hge]; [exact Hlt |].
      exfalso. destruct IHext as [_ Hadded].
      apply (parameter_not_alignment
               (mkBodyNode (OpParameter et pshape0) pargs) et pshape0);
        [reflexivity |].
      apply (Hadded p); [lia | exact Hparam]. }
    assert (Hdistinct : forall k p', 0 <= k < num_scan_inputs -> k <> i ->
              body_inputs !! Z.to_nat (niv + k) = Some p' -> p' <> p).
    { intros k p' Hk Hne Hp' ->.
      pose proof (NoDup_lookup _ _ _ _ Hnodup Hp Hp'). unfold niv in *. lia. }
    assert (Hbefore : node_op <$> st1 !! p = Some (OpParameter et pshape0)).
    { rewrite <- IHother; [rewrite Hparam; reflexivity | | exact Hold].
      intros k Hk' Hk''. apply (Hdistinct k p); [lia | lia | exact Hk'' |].
      reflexivity. }
    assert (Hstep :
      body_extended s1 s2 /\
      (forall q op, q <> p -> node_op <$> s1 !! q = Some op ->
         node_op <$> s2 !! q = Some op) /\
      node_op <$> s2 !! p = Some (OpParameter et pshape)).
    { destruct Hcases as [[_ ->] | [_ ->]].
      - split; [| split].
        + apply (body_extended_parameter _ _ et _ pshape0). exact Hparam.
        + intros q op Hq Hop. apply shaped_body_op; assumption.
        + apply (shaped_body_parameter _ _ _ pshape0). exact Hparam.
      - split; [| split].
        + apply (body_extended_aligned _ _ _ pshape0). exact Hparam.
        + intros q op Hq Hop. apply aligned_body_op; assumption.
        + apply (aligned_body_parameter _ _ _ pshape0). exact Hparam. }
    destruct Hstep as (Hext & Hkeeps & Hshaped).
    split; [| split].
    + apply (body_extended_trans _ _ _ IHext). exact Hext.
    + intros q Hq Hlt.
      assert (Hqp : q <> p).
      { intros ->. apply (Hq i); [lia | exact Hp]. }
      destruct (lookup_lt_is_Some_2 st1 q Hlt) as [n Hn].
      rewrite Hn. simpl.
      apply Hkeeps; [exact Hqp |].
      rewrite IHother; [rewrite Hn; reflexivity | | exact Hlt].
      intros k Hk. apply Hq. lia.
    + intros k Hk. destruct (Z.eq_dec k i) as [->|Hne].
      * exists p, x, et, pshape0, pshape.
        split; [exact Hp |]. split; [exact Hx |]. split; [exact Hbefore |].
        split; [exact Hshaped | exact Hdyn].
      * destruct (IHkept k) as (p' & x' & et' & sh0' & sh' & Hp' & Hx' & Hb & Hs & Hd);
          [lia |].
        exists p', x', et', sh0', sh'.
        split; [exact Hp' |]. split; [exact Hx' |]. split; [exact Hb |].
        split; [| exact Hd].
        apply Hkeeps; [| exact Hs].
        apply (Hdistinct k); [lia | exact Hne | exact Hp'].
  - split; [| exact Hkept].
    intros q op Hq Hop.
    assert (Hlt : (q < length st1)%nat).
    { destruct (st1 !! q) as [n|] eqn:Hn; [| discriminate].
      apply lookup_lt_Some in Hn. exact Hn. }
    rewrite Hother; [exact Hop | exact Hq | exact Hlt].
Qed.

(** The parameters of the body the translation leaves. *)
Lemma scan_to_tensor_iterator_parameters (body st' : BodyStore)
  (bo : list Src) (outs : OutputVector) :
  0 <= num_scan_inputs <= Z.of_nat (length body_inputs) ->
  Z.of_nat (length body_inputs) < 2 ^ 63 ->
  Z.of_nat (length bo) < 2 ^ 63 ->
  NoDup body_inputs ->
  scan_to_tensor_iterator body bo = Ok (outs, st') ->
  let niv := Z.of_nat (length body_inputs) - num_scan_inputs in
  (forall i, 0 <= i < niv -> state_aligned st' i) /\
  (forall i, 0 <= i < num_scan_inputs -> parameter_kept niv body st' i).
Proof.
  intros Hnsi Hlen Hbo Hnodup Hrun niv.
  destruct (scan_to_tensor_iterator_Ok_inv _ _ _ _ _ _ _ _ _ _ _ _ _
              Hnsi Hlen Hbo Hrun)
    as (st1 & st2 & bo' & ti1 & ti5 & ti6 & outs5 & outs6
        & H1 & H2 & H3 & _).
  fold niv in H1, H2, H3.
  assert (Hniv : 0 <= niv < 2 ^ 63) by (unfold niv; lia).
  destruct (align_scan_outputs _ _ _ _ _ _ Hniv Hbo H3)
    as (_ & [extra ->] & _).
  destruct (state_parameters_aligned niv _ _ (proj1 Hniv) Hnodup H1)
    as [Hstates Hrest].
  destruct (scan_parameters_kept _ _ Hnsi Hlen Hnodup H2) as [Hops Hkept].
  fold niv in Hops, Hkept.
  assert (Happ : forall q op, node_op <$> st2 !! q = Some op ->
                   node_op <$> (st2 ++ extra) !! q = Some op).
  { intros q op Hq. destruct (st2 !! q) as [n|] eqn:Hn; [| discriminate].
    rewrite (lookup_app_l_Some _ _ _ _ Hn). exact Hq. }
  split.
  - intros i Hi. destruct (Hstates i Hi) as (p & x & Hp & Hx & Hop).
    exists p, x. split; [exact Hp |]. split; [exact Hx |].
    apply Happ. apply Hops; [| exact Hop].
    intros k Hk Hpk.
    pose proof (NoDup_lookup _ _ _ _ Hnodup Hp Hpk). lia.
  - intros i Hi.
    destruct (Hkept i Hi) as (p & x & et & sh0 & sh & Hp & Hx & Hb & Hs & Hd).
    exists p, x, et, sh0, sh.
    split; [exact Hp |]. split; [exact Hx |]. split; [| split; [| exact Hd]].
    + rewrite <- Hrest; [exact Hb |].
      intros k Hk Hpk.
      pose proof (NoDup_lookup _ _ _ _ Hnodup Hp Hpk). lia.
    + apply Happ. exact Hs.
Qed.

End ScanParameterLoops.

(** ** scan: the order of the descriptions of the iterator *)

Section ScanDescriptions.
Context {rt : Runtime}.

Variable node_inputs : OutputVector.
Variable body_inputs : list nat.
Variable num_scan_inputs : Z.
Variable scan_input_axes scan_input_directions : list Z.
Variable scan_output_axes scan_output_directions : list Z.
Variable in_offset : Z.
Variable node_description : string.

Local Abbreviation slice_scan_input :=
  (scan_detail.slice_scan_input node_inputs body_inputs scan_input_axes
     scan_input_directions in_offset node_description).
Local Abbreviation state_output :=
  (scan_detail.state_output node_inputs body_inputs in_offset).
Local Abbreviation scan_output :=
  (scan_detail.scan_output scan_output_axes scan_output_directions
     node_description).
Local Abbreviation scan_to_tensor_iterator :=
  (scan_detail.scan_to_tensor_iterator node_inputs body_inputs num_scan_inputs
     scan_input_axes scan_input_directions scan_output_axes
     scan_output_directions in_offset node_description).
Local Abbreviation sliced := (sliced_at node_inputs body_inputs in_offset).
Local Abbreviation merged := (merged_at node_inputs body_inputs in_offset).

Lemma slice_scan_inputs_order (niv : Z) (model : Model) (ti : TensorIterator) :
  0 <= niv -> 0 <= num_scan_inputs -> niv + num_scan_inputs < 2 ^ 64 ->
  for_loop num_scan_inputs (slice_scan_input niv) (mkTensorIterator model [] [])
  = Ok ti ->
  Z.of_nat (length (ti_input_descriptions ti)) = num_scan_inputs /\
  forall i, 0 <= i < num_scan_inputs -> sliced niv ti i.
Proof.
  intros Hniv Hnsi Hsum Hrun.
  pose proof (for_loop_invariant
    (fun i t =>
       Z.of_nat (length (ti_input_descriptions t)) = i /\
       forall k, 0 <= k < i -> sliced niv t k)
    num_scan_inputs (slice_scan_input niv) (mkTensorIterator model [] []) ti)
    as Hinv.
  simpl in Hinv. rewrite Z.max_r in Hinv by lia.
  apply Hinv; [split; [reflexivity | intros; lia] | | exact Hrun].
  intros i t1 t2 Hi [IHlen IHsliced] Hbody.
  apply slice_scan_input_Ok_inv in Hbody
    as (a & x & axis & direction & p & _ & Hx & _ & _ & Hp & ->).
  rewrite (size_wrap_small (niv + i)) in Hx, Hp by lia.
  apply index_Ok_inv in Hx as [_ Hx].
  apply index_Ok_inv in Hp as [_ Hp].
  cbn [ti_input_descriptions]. split.
  - rewrite length_app. simpl. lia.
  - intros k Hk. destruct (Z.eq_dec k i) as [->|Hne].
    + exists p, x, direction, axis.
      split; [exact Hp |]. split; [exact Hx |].
      cbn [ti_input_descriptions].
      replace (Z.to_nat i) with (length (ti_input_descriptions t1)) by lia.
      rewrite list_lookup_middle by reflexivity. reflexivity.
    + destruct (IHsliced k) as (p' & x' & d' & ax' & Hp' & Hx' & Hd); [lia |].
      exists p', x', d', ax'.
      split; [exact Hp' |]. split; [exact Hx' |].
      cbn [ti_input_descriptions]. apply lookup_app_l_Some. exact Hd.
Qed.

Lemma state_outputs_order (niv : Z) (bo : list Src) (ti1 ti : TensorIterator)
  (outs0 outs : list nat) :
  0 <= niv ->
  for_loop niv (state_output bo) (ti1, outs0) = Ok (ti, outs) ->
  Z.of_nat (length (ti_input_descriptions ti))
  = Z.of_nat (length (ti_input_descriptions ti1)) + niv /\
  Z.of_nat (length (ti_output_descriptions ti))
  = Z.of_nat (length (ti_output_descriptions ti1)) + niv /\
  (forall k d, ti_input_descriptions ti1 !! k = Some d ->
     ti_input_descriptions ti !! k = Some d) /\
  forall i, 0 <= i < niv ->
    merged (Z.of_nat (length (ti_input_descriptions ti1))) ti i.
Proof.
  intros Hniv Hrun.
  pose proof (for_loop_invariant
    (fun i (s : TensorIterator * list nat) =>
       Z.of_nat (length (ti_input_descriptions s.1))
       = Z.of_nat (length (ti_input_descriptions ti1)) + i /\
       Z.of_nat (length (ti_output_descriptions s.1))
       = Z.of_nat (length (ti_output_descriptions ti1)) + i /\
       (forall k d, ti_input_descriptions ti1 !! k = Some d ->
          ti_input_descriptions s.1 !! k = Some d) /\
       forall k, 0 <= k < i ->
         merged (Z.of_nat (length (ti_input_descriptions ti1))) s.1 k)
    niv (state_output bo) (ti1, outs0) (ti, outs)) as Hinv.
  simpl in Hinv. rewrite Z.max_r in Hinv by lia.
  apply Hinv; [| | exact Hrun].
  - split; [lia |]. split; [lia |]. split; [auto | intros; lia].
  - intros i [t1 o1] [t2 o2] Hi (IHin & IHout & IHkeep & IHmerged) Hbody.
    simpl in IHin, IHout, IHkeep, IHmerged. simpl.
    apply state_output_Ok_inv in Hbody
      as (p & x & out & Hp & Hx & _ & -> & _).
    apply index_Ok_inv in Hx as [_ Hx].
    apply index_Ok_inv in Hp as [_ Hp].
    cbn [ti_input_descriptions ti_output_descriptions].
    split; [rewrite length_app; simpl; lia |].
    split; [rewrite length_app; simpl; lia |].
    split.
    + intros k d Hd. apply lookup_app_l_Some. apply IHkeep. exact Hd.
    + intros k Hk. destruct (Z.eq_dec k i) as [->|Hne].
      * exists p, x, out. split; [exact Hp |]. split; [exact Hx |].
        cbn [ti_input_descriptions].
        replace (Z.to_nat (Z.of_nat (length (ti_input_descriptions ti1)) + i))
          with (length (ti_input_descriptions t1)) by lia.
        apply list_lookup_middle. reflexivity.
      * destruct (IHmerged k) as (p' & x' & out' & Hp' & Hx' & Hd); [lia |].
        exists p', x', out'. split; [exact Hp' |]. split; [exact Hx' |].
        cbn [ti_input_descriptions]. apply lookup_app_l_Some. exact Hd.
Qed.

Lemma scan_outputs_order (st : BodyStore) (bo : list Src) (niv nso : Z)
  (ti5 ti : TensorIterator) (outs5 outs : list nat) :
  0 <= nso ->
  for_loop nso (scan_output st bo niv) (ti5, outs5) = Ok (ti, outs) ->
  ti_input_descriptions ti = ti_input_descriptions ti5 /\
  Z.of_nat (length (ti_output_descriptions ti))
  = Z.of_nat (length (ti_output_descriptions ti5)) + nso.
Proof.
  intros Hnso Hrun.
  pose proof (for_loop_invariant
    (fun i (s : TensorIterator * list nat) =>
       ti_input_descriptions s.1 = ti_input_descriptions ti5 /\
       Z.of_nat (length (ti_output_descriptions s.1))
       = Z.of_nat (length (ti_output_descriptions ti5)) + i)
    nso (scan_output st bo niv) (ti5, outs5) (ti, outs)) as Hinv.
  simpl in Hinv. rewrite Z.max_r in Hinv by lia.
  apply Hinv; [split; [reflexivity | lia] | | exact Hrun].
  intros i [t1 o1] [t2 o2] Hi [IHin IHout] Hbody.
  simpl in IHin, IHout. simpl.
  apply scan_output_Ok_inv in Hbody
    as (a & out & axis & direction & _ & _ & _ & _ & -> & _).
  cbn [ti_input_descriptions ti_output_descriptions].
  split; [exact IHin |]. rewrite length_app. simpl. lia.
Qed.

(** The iterator of the outputs has one input description for every
    parameter of the body, the slicings of the scan inputs before the back
    edges of the state variables, and one output description for every
    output of the body. *)
Lemma scan_to_tensor_iterator_descriptions (body st' : BodyStore)
  (bo : list Src) (outs : OutputVector) :
  0 <= num_scan_inputs <= Z.of_nat (length body_inputs) ->
  Z.of_nat (length body_inputs) < 2 ^ 63 ->
  Z.of_nat (length bo) < 2 ^ 63 ->
  scan_to_tensor_iterator body bo = Ok (outs, st') ->
  let niv := Z.of_nat (length body_inputs) - num_scan_inputs in
  exists ti : TensorIterator,
    outs = map (ti_output ti) (seq 0 (length bo)) /\
    length (ti_input_descriptions ti) = length body_inputs /\
    length (ti_output_descriptions ti) = length bo /\
    (forall i, 0 <= i < num_scan_inputs -> sliced niv ti i) /\
    (forall i, 0 <= i < niv -> merged num_scan_inputs ti i).
Proof.
  intros Hnsi Hlen Hlenbo H niv.
  destruct (scan_to_tensor_iterator_Ok_inv _ _ _ _ _ _ _ _ _ _ _ _ _
              Hnsi Hlen Hlenbo H)
    as (st1 & st2 & bo' & ti1 & ti5 & ti6 & outs5 & outs6
        & H1 & H2 & H3 & H4 & H5 & H6 & ->).
  fold niv in H1, H2, H3, H4, H5, H6.
  assert (Hniv : 0 <= niv < 2 ^ 63) by (unfold niv; lia).
  apply align_scan_outputs in H3 as (Hle & _ & Hlen' & Hsame & Haligned);
    [| assumption | assumption].
  rewrite size_wrap_small in H6 by lia.
  assert (Hsum : niv + num_scan_inputs < 2 ^ 64) by (unfold niv; lia).
  pose proof (slice_scan_inputs_order _ _ _ (proj1 Hniv) (proj1 Hnsi) Hsum H4)
    as [Hin1 Hsliced].
  apply slice_scan_inputs in H4 as (_ & Hout1 & _); [| lia | unfold niv; lia].
  pose proof (state_outputs_order _ _ _ _ _ _ (proj1 Hniv) H5)
    as (Hin5 & Hout5 & Hkeep5 & Hmerged).
  apply state_outputs with (bo0 := bo) in H5
    as (_ & _ & -> & Hlen5 & _); [| lia | assumption | assumption].
  assert (Hnso : 0 <= Z.of_nat (length bo) - niv) by lia.
  pose proof (scan_outputs_order _ _ _ _ _ _ _ _ Hnso H6) as [Hin6 Hout6].
  apply concatenated_outputs with (bo0 := bo) in H6
    as (_ & _ & -> & _ & _); [| lia | lia | lia | assumption | assumption].
  exists ti6. split; [| split; [| split; [| split]]].
  - replace (Z.to_nat (niv + (Z.of_nat (length bo) - niv))) with (length bo) by lia.
    reflexivity.
  - rewrite Hin6. unfold niv in *. lia.
  - rewrite Hout1 in Hout5. simpl in Hout5. lia.
  - intros i Hi.
    destruct (Hsliced i Hi) as (p & x & d & ax & Hp & Hx & Hd).
    exists p, x, d, ax. split; [exact Hp |]. split; [exact Hx |].
    rewrite Hin6. apply Hkeep5. exact Hd.
  - intros i Hi.
    destruct (Hmerged i Hi) as (p & x & out & Hp & Hx & Hd).
    exists p, x, out. split; [exact Hp |]. split; [exact Hx |].
    rewrite Hin6. rewrite <- Hin1. exact Hd.
Qed.

End ScanDescriptions.

(** ** scan: the node after the translation, continued *)

Section ScanNodeBody.
Context {rt : Runtime}.

(** X11: the translation of a scan node, of opset 1 or 9, leaves the
    parameter of every state variable with the element type and the
    partial shape of the node input that initializes it (input i of opset
    9, input i + 1 of opset 1), when the parameters of the body are
    distinct node objects. *)
Theorem scan_state_parameters (node node' : Node) (outs : OutputVector)
  (default_axis in_offset : Z) (directions_name : string)
  (g : Subgraph) (nsi : Z)
  (Hscan :
     scan_translated node node' outs default_axis in_offset directions_name)
  (Hbody : get_subgraphs node !! "body" = Some g)
  (Hnsi : get_attribute_value_int node "num_scan_inputs" = Ok nsi)
  (Hint64 : - 2 ^ 63 <= nsi <= 2 ^ 63 - 1)
  (Hparameters : Z.of_nat (length (sg_parameters g)) < 2 ^ 63)
  (Houtputs : Z.of_nat (length (sg_outputs g)) < 2 ^ 63)
  (Hdistinct : NoDup (sg_parameters g)) :
  let niv := Z.of_nat (length (sg_parameters g)) - nsi in
  exists st' : BodyStore,
    get_subgraphs node' !! "body"
      = Some (mkSubgraph st' (sg_parameters g) (sg_outputs g)) /\
    forall i, 0 <= i < niv ->
      state_parameter_aligned (get_ng_inputs node) (sg_parameters g)
        in_offset st' i.
Proof.
  intros niv.
  apply scan_translated_import in Hscan.
  pose proof (import_onnx_scan_range _ _ _ _ _ _ _ _ Hbody Hnsi Hint64
                Hparameters Hscan) as Hrange.
  destruct (import_onnx_scan_Ok_inv _ _ _ _ _ _ _ _ Hbody Hnsi Hrange
              Hparameters Hscan)
    as (axes_in & dirs_in & axes_out & dirs_out & st'
        & _ & _ & _ & _ & Hcore & ->).
  exists st'. split.
  - unfold scan_detail.with_body. simpl. apply lookup_insert_eq.
  - apply (scan_to_tensor_iterator_parameters _ _ _ _ _ _ _ _ _ _ _ _ _
             Hrange Hparameters Houtputs Hdistinct Hcore).
Qed.

(** X12: the translation of a scan node, of opset 1 or 9, with distinct
    parameters only adds to the body: every node object of the body stays
    at its place with its operation and its number of arguments (a
    parameter stays a parameter), and the node objects added are exactly
    two for every scan output, an axis constant and an Unsqueeze, and two
    for every scan input whose parameter has a consumer in the body, an
    axis constant and a Squeeze; for a scan input whose parameter has no
    consumer nothing is left in the body. *)
Theorem scan_body_extended (node node' : Node) (outs : OutputVector)
  (default_axis in_offset : Z) (directions_name : string)
  (g : Subgraph) (nsi : Z)
  (Hscan :
     scan_translated node node' outs default_axis in_offset directions_name)
  (Hbody : get_subgraphs node !! "body" = Some g)
  (Hnsi : get_attribute_value_int node "num_scan_inputs" = Ok nsi)
  (Hint64 : - 2 ^ 63 <= nsi <= 2 ^ 63 - 1)
  (Hparameters : Z.of_nat (length (sg_parameters g)) < 2 ^ 63)
  (Houtputs : Z.of_nat (length (sg_outputs g)) < 2 ^ 63)
  (Hdistinct : NoDup (sg_parameters g)) :
  let niv := Z.of_nat (length (sg_parameters g)) - nsi in
  let nso := Z.of_nat (length (sg_outputs g)) - niv in
  exists st' : BodyStore,
    get_subgraphs node' !! "body"
      = Some (mkSubgraph st' (sg_parameters g) (sg_outputs g)) /\
    body_extended (sg_nodes g) st' /\
    Z.of_nat (length st')
    = Z.of_nat (length (sg_nodes g))
      + 2 * Z.of_nat (consumed_scan_inputs (sg_nodes g) (sg_parameters g) niv)
      + 2 * nso.
Proof.
  intros niv nso.
  apply scan_translated_import in Hscan.
  pose proof (import_onnx_scan_range _ _ _ _ _ _ _ _ Hbody Hnsi Hint64
                Hparameters Hscan) as Hrange.
  destruct (import_onnx_scan_Ok_inv _ _ _ _ _ _ _ _ Hbody Hnsi Hrange
              Hparameters Hscan)
    as (axes_in & dirs_in & axes_out & dirs_out & st'
        & _ & _ & _ & _ & Hcore & ->).
  exists st'. split; [| split].
  - unfold scan_detail.with_body. simpl. apply lookup_insert_eq.
  - apply (scan_to_tensor_iterator_extended _ _ _ _ _ _ _ _ _ _ _ _ _
             Hrange Hparameters Houtputs Hcore).
  - apply (scan_to_tensor_iterator_count _ _ _ _ _ _ _ _ _ _ _ _ _
             Hrange Hparameters Houtputs Hdistinct Hcore).
Qed.

(** X13: the outputs of the translation of a scan node, of opset 1 or 9,
    belong to an iterator with exactly one input description for every
    parameter of the body and one output description for every output of
    the body; the input descriptions come in the order the code sets them:
    first the slicing of every scan input, then the back edge of every
    state variable, while the parameters of the body have the state
    variables first. *)
Theorem scan_iterator_descriptions (node node' : Node) (outs : OutputVector)
  (default_axis in_offset : Z) (directions_name : string)
  (g : Subgraph) (nsi : Z)
  (Hscan :
     scan_translated node node' outs default_axis in_offset directions_name)
  (Hbody : get_subgraphs node !! "body" = Some g)
  (Hnsi : get_attribute_value_int node "num_scan_inputs" = Ok nsi)
  (Hint64 : - 2 ^ 63 <= nsi <= 2 ^ 63 - 1)
  (Hparameters : Z.of_nat (length (sg_parameters g)) < 2 ^ 63)
  (Houtputs : Z.of_nat (length (sg_outputs g)) < 2 ^ 63) :
  let niv := Z.of_nat (length (sg_parameters g)) - nsi in
  exists ti : TensorIterator,
    outs = map (ti_output ti) (seq 0 (length (sg_outputs g))) /\
    length (ti_input_descriptions ti) = length (sg_parameters g) /\
    length (ti_output_descriptions ti) = length (sg_outputs g) /\
    (forall i, 0 <= i < nsi ->
       sliced_at (get_ng_inputs node) (sg_parameters g) in_offset niv ti i) /\
    (forall i, 0 <= i < niv ->
       merged_at (get_ng_inputs node) (sg_parameters g) in_offset nsi ti i).
Proof.
  intros niv.
  apply scan_translated_import in Hscan.
  pose proof (import_onnx_scan_range _ _ _ _ _ _ _ _ Hbody Hnsi Hint64
                Hparameters Hscan) as Hrange.
  destruct (import_onnx_scan_Ok_inv _ _ _ _ _ _ _ _ Hbody Hnsi Hrange
              Hparameters Hscan)
    as (axes_in & dirs_in & axes_out & dirs_out & st'
        & _ & _ & _ & _ & Hcore & ->).
  apply (scan_to_tensor_iterator_descriptions _ _ _ _ _ _ _ _ _ _ _ _ _
           Hrange Hparameters Houtputs Hcore).
Qed.

(** X14: the translation of a scan node, of opset 1 or 9, changes the
    shape of the parameter of a scan input and never its element type,
    which is not aligned with the node input as that of a state variable
    is; when the rank of the node input is dynamic the parameter is left
    with a shape of dynamic rank.  The parameters of the body are distinct
    node objects. *)
Theorem scan_input_parameters (node node' : Node) (outs : OutputVector)
  (default_axis in_offset : Z) (directions_name : string)
  (g : Subgraph) (nsi : Z)
  (Hscan :
     scan_translated node node' outs default_axis in_offset directions_name)
  (Hbody : get_subgraphs node !! "body" = Some g)
  (Hnsi : get_attribute_value_int node "num_scan_inputs" = Ok nsi)
  (Hint64 : - 2 ^ 63 <= nsi <= 2 ^ 63 - 1)
  (Hparameters : Z.of_nat (length (sg_parameters g)) < 2 ^ 63)
  (Houtputs : Z.of_nat (length (sg_outputs g)) < 2 ^ 63)
  (Hdistinct : NoDup (sg_parameters g)) :
  let niv := Z.of_nat (length (sg_parameters g)) - nsi in
  exists st' : BodyStore,
    get_subgraphs node' !! "body"
      = Some (mkSubgraph st' (sg_parameters g) (sg_outputs g)) /\
    forall i, 0 <= i < nsi ->
      scan_parameter_kept (get_ng_inputs node) (sg_parameters g) in_offset
        niv (sg_nodes g) st' i.
Proof.
  intros niv.
  apply scan_translated_import in Hscan.
  pose proof (import_onnx_scan_range _ _ _ _ _ _ _ _ Hbody Hnsi Hint64
                Hparameters Hscan) as Hrange.
  destruct (import_onnx_scan_Ok_inv _ _ _ _ _ _ _ _ Hbody Hnsi Hrange
              Hparameters Hscan)
    as (axes_in & dirs_in & axes_out & dirs_out & st'
        & _ & _ & _ & _ & Hcore & ->).
  exists st'. split.
  - unfold scan_detail.with_body. simpl. apply lookup_insert_eq.
  - apply (scan_to_tensor_iterator_parameters _ _ _ _ _ _ _ _ _ _ _ _ _
             Hrange Hparameters Houtputs Hdistinct Hcore).
Qed.

End ScanNodeBody.

Lemma example_scan9_translated :
  @scan_translated example_runtime example_scan9_node example_scan9_result.2
    example_scan9_result.1 0 0 "scan_input_directions".
Proof.
  right. split; [vm_compute; reflexivity | repeat split].
Defined.

Lemma example_scan8_translated :
  @scan_translated example_runtime example_scan8_node example_scan8_result.2
    example_scan8_result.1 1 1 "directions".
Proof.
  left. split; [vm_compute; reflexivity | repeat split].
Defined.

Lemma example_body_distinct : NoDup (sg_parameters example_body).
Proof.
  simpl. apply NoDup_cons. split; [| apply NoDup_singleton].
  rewrite list_elem_of_singleton. discriminate.
Defined.

Lemma scan_state_parameters_witness :
  exists st' : BodyStore,
    get_subgraphs example_scan8_result.2 !! "body"
      = Some (mkSubgraph st' (sg_parameters example_body)
                (sg_outputs example_body)) /\
    forall i, 0 <= i < Z.of_nat (length (sg_parameters example_body)) - 1 ->
      @state_parameter_aligned example_runtime
        (get_ng_inputs example_scan8_node) (sg_parameters example_body) 1 st' i.
Proof.
  apply (@scan_state_parameters example_runtime example_scan8_node
           example_scan8_result.2 example_scan8_result.1
           1 1 "directions" example_body 1 example_scan8_translated).
  - reflexivity.
  - reflexivity.
  - lia.
  - simpl. lia.
  - simpl. lia.
  - exact example_body_distinct.
Defined.

Lemma example_unconsumed_translated :
  @scan_translated example_runtime example_scan9_unconsumed_node
    example_scan9_unconsumed_result.2 example_scan9_unconsumed_result.1
    0 0 "scan_input_directions".
Proof.
  right. split; [vm_compute; reflexivity | repeat split].
Defined.

Lemma scan_body_extended_witness :
  exists st' : BodyStore,
    get_subgraphs example_scan9_unconsumed_result.2 !! "body"
      = Some (mkSubgraph st' (sg_parameters example_unconsumed_body)
                (sg_outputs example_unconsumed_body)) /\
    body_extended (sg_nodes example_unconsumed_body) st' /\
    Z.of_nat (length st')
    = Z.of_nat (length (sg_nodes example_unconsumed_body))
      + 2 * Z.of_nat
              (consumed_scan_inputs (sg_nodes example_unconsumed_body)
                 (sg_parameters example_unconsumed_body)
                 (Z.of_nat (length (sg_parameters example_unconsumed_body)) - 1))
      + 2 * (Z.of_nat (length (sg_outputs example_unconsumed_body))
             - (Z.of_nat (length (sg_parameters example_unconsumed_body)) - 1)).
Proof.
  apply (@scan_body_extended example_runtime example_scan9_unconsumed_node
           example_scan9_unconsumed_result.2 example_scan9_unconsumed_result.1
           0 0 "scan_input_directions" example_unconsumed_body 1
           example_unconsumed_translated).
  - reflexivity.
  - reflexivity.
  - lia.
  - simpl. lia.
  - simpl. lia.
  - exact example_body_distinct.
Defined.

Lemma scan_iterator_descriptions_witness :
  exists ti : TensorIterator,
    example_scan9_result.1
    = map (ti_output ti) (seq 0 (length (sg_outputs example_body))) /\
    length (ti_input_descriptions ti) = length (sg_parameters example_body) /\
    length (ti_output_descriptions ti) = length (sg_outputs example_body) /\
    (forall i, 0 <= i < 1 ->
       sliced_at (get_ng_inputs example_scan9_node)
         (sg_parameters example_body) 0
         (Z.of_nat (length (sg_parameters example_body)) - 1) ti i) /\
    (forall i, 0 <= i < Z.of_nat (length (sg_parameters example_body)) - 1 ->
       merged_at (get_ng_inputs example_scan9_node)
         (sg_parameters example_body) 0 1 ti i).
Proof.
  apply (@scan_iterator_descriptions example_runtime example_scan9_node
           example_scan9_result.2 example_scan9_result.1
           0 0 "scan_input_directions" example_body 1 example_scan9_translated).
  - reflexivity.
  - reflexivity.
  - lia.
  - simpl. lia.
  - simpl. lia.
Defined.

Lemma scan_input_parameters_witness :
  exists st' : BodyStore,
    get_subgraphs example_scan9_result.2 !! "body"
      = Some (mkSubgraph st' (sg_parameters example_body)
                (sg_outputs example_body)) /\
    forall i, 0 <= i < 1 ->
      @scan_parameter_kept example_runtime
        (get_ng_inputs example_scan9_node) (sg_parameters example_body) 0
        (Z.of_nat (length (sg_parameters example_body)) - 1)
        (sg_nodes example_body) st' i.
Proof.
  apply (@scan_input_parameters example_runtime example_scan9_node
           example_scan9_result.2 example_scan9_result.1
           0 0 "scan_input_directions" example_body 1 example_scan9_translated).
  - reflexivity.
  - reflexivity.
  - lia.
  - simpl. lia.
  - simpl. lia.
  - exact example_body_distinct.
Defined.

(** ** What the translators read and what they change *)

Section Statelessness.
Context {rt : Runtime}.




End Statelessness.


